(** * dashcam: the frame-advance policy, the encoder delivery callback and
      the upload receiver, embedded from [dashcam.cpp] and [dashgrab.cpp]. *)

From Stdlib Require Import ZArith Lia Bool List.
From stdpp Require Import base numbers list strings gmap pretty.
Import ListNotations.
Local Open Scope Z_scope.

(** ** C integer types

    [int] and [int64_t] values are integers reduced into the signed range of
    their width; [uint32_t] values are reduced modulo [2^32]. *)
Module CInt.

Definition wrap (w : Z) (x : Z) : Z :=
  (x + 2 ^ (w - 1)) mod 2 ^ w - 2 ^ (w - 1).

Definition wrap32 : Z -> Z := wrap 32.
Definition wrap64 : Z -> Z := wrap 64.
Definition to_u32 (x : Z) : Z := x mod 2 ^ 32.
Definition to_u64 (x : Z) : Z := x mod 2 ^ 64.

Definition INT_MAX : Z := 2 ^ 31 - 1.
Definition INT_MIN : Z := - 2 ^ 31.

End CInt.

(** ** [wait_for_next_frame] (dashcam.cpp) *)
Module FrameAdvance.
Import CInt.

Definition FRAME_NEXT_SINGLE : Z := 0.
Definition FRAME_NEXT_TIMELAPSE : Z := 1.
Definition FRAME_NEXT_KEYPRESS : Z := 2.
Definition FRAME_NEXT_FOREVER : Z := 3.
Definition FRAME_NEXT_GPIO : Z := 4.
Definition FRAME_NEXT_SIGNAL : Z := 5.
Definition FRAME_NEXT_IMMEDIATELY : Z := 6.

(** The fields of [RASPISTILL_STATE] that [wait_for_next_frame] reads. *)
Record RASPISTILL_STATE := {
  timeout : Z;
  timelapse : Z;
  frameNextMethod : Z;
  verbose : Z
}.

(** What the function does to the outside, in the order it does it. *)
Inductive event :=
| EvSleep (ms : Z)                 (* vcos_sleep(ms), ms as the uint32 it receives *)
| EvLogLate (frame late : Z)       (* "Frame %d is %d ms late" *)
| EvLogSkip (frame restart : Z)    (* "Skipping frame %d to restart at frame %d" *)
| EvPrompt                         (* "Press Enter to capture, ..." *)
| EvSignalWait                     (* "Waiting for SIGUSR1 ..." *)
| EvSignalReceived                 (* "Received SIGUSR1" *)
| EvSignalBad.                     (* "Bad signal received ..." *)

(** The two function-static variables, the caller's [*frame], and the part of
    the world the function touches: the microsecond clock, standard input,
    the results [sigwait] is going to give, and the trace of events. *)
Record machine := {
  complete_time : Z;
  next_frame_ms : Z;
  frame : Z;
  clock_us : Z;
  stdin : list Z;
  sigwait_results : list Z;
  trace : list event
}.

(** Both statics start at -1. *)
Definition boot (clock : Z) (input : list Z) (sigs : list Z) : machine :=
  {| complete_time := -1; next_frame_ms := -1; frame := 0;
     clock_us := clock; stdin := input; sigwait_results := sigs; trace := [] |}.

Definition set_complete_time (v : Z) (m : machine) : machine :=
  {| complete_time := v; next_frame_ms := next_frame_ms m; frame := frame m;
     clock_us := clock_us m; stdin := stdin m;
     sigwait_results := sigwait_results m; trace := trace m |}.

Definition set_next_frame_ms (v : Z) (m : machine) : machine :=
  {| complete_time := complete_time m; next_frame_ms := v; frame := frame m;
     clock_us := clock_us m; stdin := stdin m;
     sigwait_results := sigwait_results m; trace := trace m |}.

Definition set_frame (v : Z) (m : machine) : machine :=
  {| complete_time := complete_time m; next_frame_ms := next_frame_ms m;
     frame := v; clock_us := clock_us m; stdin := stdin m;
     sigwait_results := sigwait_results m; trace := trace m |}.

Definition emit (e : event) (m : machine) : machine :=
  {| complete_time := complete_time m; next_frame_ms := next_frame_ms m;
     frame := frame m; clock_us := clock_us m; stdin := stdin m;
     sigwait_results := sigwait_results m; trace := trace m ++ [e] |}.

(** [*frame += n] on an [int]. *)
Definition add_frame (n : Z) (m : machine) : machine :=
  set_frame (wrap32 (frame m + n)) m.

(** [vcos_getmicrosecs64()] returns a [uint64_t]. *)
Definition vcos_getmicrosecs64 (m : machine) : Z := to_u64 (clock_us m).

(** [current_time = vcos_getmicrosecs64() / 1000], stored in an [int64_t]. *)
Definition now_ms (m : machine) : Z := wrap64 (vcos_getmicrosecs64 m / 1000).

(** [vcos_sleep(ms)] takes a [uint32_t]; the clock moves on by that many
    milliseconds. *)
Definition vcos_sleep (ms : Z) (m : machine) : machine :=
  let m' := emit (EvSleep (to_u32 ms)) m in
  {| complete_time := complete_time m'; next_frame_ms := next_frame_ms m';
     frame := frame m'; clock_us := clock_us m' + 1000 * to_u32 ms;
     stdin := stdin m'; sigwait_results := sigwait_results m';
     trace := trace m' |}.

Definition EOF : Z := -1.

(** [getchar()]: the next character of standard input, [EOF] when there is
    none. *)
Definition getchar (m : machine) : Z * machine :=
  match stdin m with
  | [] => (EOF, m)
  | c :: rest =>
      (c, {| complete_time := complete_time m; next_frame_ms := next_frame_ms m;
             frame := frame m; clock_us := clock_us m; stdin := rest;
             sigwait_results := sigwait_results m; trace := trace m |})
  end.

(** [sigwait(&waitset, &sig)]: its result is the environment's. *)
Definition sigwait (m : machine) : Z * machine :=
  match sigwait_results m with
  | [] => (0, m)
  | r :: rest =>
      (r, {| complete_time := complete_time m; next_frame_ms := next_frame_ms m;
             frame := frame m; clock_us := clock_us m; stdin := stdin m;
             sigwait_results := rest; trace := trace m |})
  end.

(** A call either returns its [int] or stops at the integer division by a
    zero [state->timelapse]. *)
Inductive outcome :=
| Returned (r : Z) (m : machine)
| DivideByZero (m : machine).

(** The [keep_running] flag, from the deadline in force. *)
Definition keep_running_of (state : RASPISTILL_STATE) (current_time : Z)
    (m : machine) : Z :=
  if (complete_time m <=? current_time) && negb (timeout state =? 0)
  then 0 else 1.

(** [case FRAME_NEXT_TIMELAPSE]. *)
Definition timelapse_case (state : RASPISTILL_STATE) (current_time : Z)
    (keep_running : Z) (m0 : machine) : outcome :=
  let m := add_frame 1 m0 in
  if next_frame_ms m =? -1 then
    let m := vcos_sleep (timelapse state) m in
    let current_time := now_ms m in
    Returned keep_running
      (set_next_frame_ms (wrap64 (current_time + timelapse state)) m)
  else
    let this_delay_ms := wrap64 (next_frame_ms m - current_time) in
    if this_delay_ms <? 0 then
      if wrap64 (- this_delay_ms) <? wrap32 (timelapse state ÷ 2) then
        let m := set_next_frame_ms
                   (wrap64 (next_frame_ms m + timelapse state)) m in
        Returned keep_running
          (emit (EvLogLate (frame m) (wrap32 (wrap64 (- this_delay_ms)))) m)
      else if timelapse state =? 0 then DivideByZero m
      else
        let nskip :=
          wrap32 (wrap64 (1 + wrap64 (wrap64 (- this_delay_ms)
                                        ÷ timelapse state))) in
        let m := emit (EvLogSkip (frame m) (wrap32 (frame m + nskip))) m in
        let m := add_frame nskip m in
        let this_delay_ms :=
          wrap64 (this_delay_ms + wrap32 (nskip * timelapse state)) in
        let m := vcos_sleep this_delay_ms m in
        Returned keep_running
          (set_next_frame_ms
             (wrap64 (next_frame_ms m
                      + wrap32 (wrap32 (nskip + 1) * timelapse state))) m)
    else
      let m := vcos_sleep this_delay_ms m in
      Returned keep_running
        (set_next_frame_ms (wrap64 (next_frame_ms m + timelapse state)) m).

(** [case FRAME_NEXT_KEYPRESS]: 120 and 88 are ['x'] and ['X']. *)
Definition keypress_case (state : RASPISTILL_STATE) (keep_running : Z)
    (m : machine) : outcome :=
  let m := if verbose state =? 0 then m else emit EvPrompt m in
  let '(ch, m) := getchar m in
  let m := add_frame 1 m in
  if (ch =? 120) || (ch =? 88) then Returned 0 m
  else Returned keep_running m.

(** [case FRAME_NEXT_IMMEDIATELY]. *)
Definition immediately_case (keep_running : Z) (m : machine) : outcome :=
  let m := if frame m =? 0 then vcos_sleep 1000 m else vcos_sleep 30 m in
  Returned keep_running (add_frame 1 m).

(** [case FRAME_NEXT_SIGNAL]. *)
Definition signal_case (state : RASPISTILL_STATE) (keep_running : Z)
    (m : machine) : outcome :=
  let m := if verbose state =? 0 then m else emit EvSignalWait m in
  let '(result, m) := sigwait m in
  let m :=
    if verbose state =? 0 then m
    else if result =? 0 then emit EvSignalReceived m
    else emit EvSignalBad m in
  Returned keep_running (add_frame 1 m).

(** [if (complete_time == -1) complete_time = current_time + state->timeout]. *)
Definition arm_deadline (state : RASPISTILL_STATE) (current_time : Z)
    (m : machine) : machine :=
  if complete_time m =? -1
  then set_complete_time (wrap64 (current_time + timeout state)) m
  else m.

Definition wait_for_next_frame (state : RASPISTILL_STATE) (m0 : machine)
    : outcome :=
  let current_time := now_ms m0 in
  let m := arm_deadline state current_time m0 in
  let keep_running := keep_running_of state current_time m in
  let method := frameNextMethod state in
  if method =? FRAME_NEXT_SINGLE then Returned 0 (vcos_sleep 5000 m)
  else if method =? FRAME_NEXT_FOREVER then
    Returned 1 (vcos_sleep 10000 (add_frame 1 m))
  else if method =? FRAME_NEXT_TIMELAPSE then
    timelapse_case state current_time keep_running m
  else if method =? FRAME_NEXT_KEYPRESS then
    keypress_case state keep_running m
  else if method =? FRAME_NEXT_IMMEDIATELY then
    immediately_case keep_running m
  else if method =? FRAME_NEXT_GPIO then Returned 0 m
  else if method =? FRAME_NEXT_SIGNAL then signal_case state keep_running m
  else Returned keep_running m.

(** The value a call returns, and the machine it leaves, when it returns. *)
Definition result (o : outcome) : option Z :=
  match o with Returned r _ => Some r | DivideByZero _ => None end.

Definition after (o : outcome) : option machine :=
  match o with Returned _ m => Some m | DivideByZero _ => None end.

(** The deadline a call works with: the stored one, or the one the first
    call sets. *)
Definition deadline (state : RASPISTILL_STATE) (m : machine) : Z :=
  complete_time (arm_deadline state (now_ms m) m).

(** Time spent outside the function between two calls. *)
Definition elapse (us : Z) (m : machine) : machine :=
  {| complete_time := complete_time m; next_frame_ms := next_frame_ms m;
     frame := frame m; clock_us := clock_us m + us; stdin := stdin m;
     sigwait_results := sigwait_results m; trace := trace m |}.

(** One call per element of [delays]; each call is followed by that much
    processing time.  The return values are collected; a division by zero
    ends the run. *)
Fixpoint ticks (state : RASPISTILL_STATE) (delays : list Z) (m : machine)
    : option (list Z * machine) :=
  match delays with
  | [] => Some ([], m)
  | d :: rest =>
      match wait_for_next_frame state m with
      | DivideByZero _ => None
      | Returned r m' =>
          match ticks state rest (elapse d m') with
          | None => None
          | Some (rs, m'') => Some (r :: rs, m'')
          end
      end
  end.

(** A configuration with the given method, timeout and interval, and a
    machine with the given statics and frame counter at a given millisecond;
    used to run the function on concrete inputs. *)
Definition config (method tmo interval : Z) : RASPISTILL_STATE :=
  {| timeout := tmo; timelapse := interval; frameNextMethod := method;
     verbose := 0 |}.

Definition machine_at (ct nf fr ms : Z) : machine :=
  {| complete_time := ct; next_frame_ms := nf; frame := fr;
     clock_us := ms * 1000; stdin := []; sigwait_results := []; trace := [] |}.

End FrameAdvance.

(** ** [encoder_buffer_callback] (dashcam.cpp) *)
Module Encoder.
Import CInt.

(** A buffer header: the payload, its length ([uint32_t]) and the flag word
    ([uint32_t]). *)
Record MMAL_BUFFER_HEADER_T := {
  data : list Z;
  length : Z;
  flags : Z
}.

(** [PORT_USERDATA]: the program has one, [callback_data] of [main]; its
    semaphore and the pool it points to live in the [store] below. *)
Inductive PORT_USERDATA := callback_data.

(** The port as the callback sees it; [userdata = None] is a NULL pointer. *)
Record MMAL_PORT_T := {
  is_enabled : bool;
  userdata : option PORT_USERDATA
}.

(** What the system calls and the MMAL library answer during one
    invocation: the result of [open], of [write], and whether
    [mmal_port_send_buffer] succeeds. *)
Record oracle := {
  open_result : Z;
  write_result : Z;
  send_ok : bool
}.

Inductive event :=
| EvOpen (fd : Z)
| EvFchmod (fd : Z)
| EvMemLock
| EvWrite (fd : Z) (payload : list Z) (count : Z) (written : Z)
| EvWriteError                               (* "Write error, aborting" *)
| EvMemUnlock
| EvNoState                                  (* "... callback with no state" *)
| EvRelease (b : MMAL_BUFFER_HEADER_T)       (* mmal_buffer_header_release *)
| EvQueueGet (b : option MMAL_BUFFER_HEADER_T)
| EvSend (b : MMAL_BUFFER_HEADER_T) (ok : bool)
| EvUnableToReturn                           (* "Unable to return a buffer ..." *)
| EvPost                                     (* vcos_semaphore_post *)
| EvClose (fd : Z).

(** The global [outputFileFD], the count of [complete_semaphore], the free
    queue of [encoder_pool], the buffers handed to the port, and the trace. *)
Record store := {
  outputFileFD : Z;
  complete_semaphore : Z;
  queue : list MMAL_BUFFER_HEADER_T;
  in_port : list MMAL_BUFFER_HEADER_T;
  trace : list event
}.

Definition set_fd (fd : Z) (s : store) : store :=
  {| outputFileFD := fd; complete_semaphore := complete_semaphore s;
     queue := queue s; in_port := in_port s; trace := trace s |}.

Definition emit (e : event) (s : store) : store :=
  {| outputFileFD := outputFileFD s; complete_semaphore := complete_semaphore s;
     queue := queue s; in_port := in_port s; trace := trace s ++ [e] |}.

(** [mmal_buffer_header_release]: the buffer goes to the tail of the pool's
    free queue. *)
Definition mmal_buffer_header_release (b : MMAL_BUFFER_HEADER_T) (s : store)
    : store :=
  let s := emit (EvRelease b) s in
  {| outputFileFD := outputFileFD s; complete_semaphore := complete_semaphore s;
     queue := queue s ++ [b]; in_port := in_port s; trace := trace s |}.

(** [mmal_queue_get]: the head of the free queue, NULL when it is empty. *)
Definition mmal_queue_get (s : store) : option MMAL_BUFFER_HEADER_T * store :=
  match queue s with
  | [] => (None, emit (EvQueueGet None) s)
  | b :: rest =>
      let s := emit (EvQueueGet (Some b)) s in
      (Some b,
       {| outputFileFD := outputFileFD s;
          complete_semaphore := complete_semaphore s;
          queue := rest; in_port := in_port s; trace := trace s |})
  end.

(** [mmal_port_send_buffer]: on success the port holds the buffer. *)
Definition mmal_port_send_buffer (b : MMAL_BUFFER_HEADER_T) (ok : bool)
    (s : store) : store :=
  let s := emit (EvSend b ok) s in
  if ok then
    {| outputFileFD := outputFileFD s;
       complete_semaphore := complete_semaphore s;
       queue := queue s; in_port := in_port s ++ [b]; trace := trace s |}
  else s.

Definition vcos_semaphore_post (s : store) : store :=
  let s := emit EvPost s in
  {| outputFileFD := outputFileFD s;
     complete_semaphore := complete_semaphore s + 1;
     queue := queue s; in_port := in_port s; trace := trace s |}.

(** A callback runs to its end, or stops where it reads through the NULL
    [pData]. *)
Inductive outcome :=
| Finished (s : store)
| NullDeref (s : store).

Definition final (o : outcome) : store :=
  match o with Finished s => s | NullDeref s => s end.

Section Flags.

(** The two flag masks come from the MMAL headers, which are not part of
    this repository. *)
Variable MMAL_BUFFER_HEADER_FLAG_FRAME_END : Z.
Variable MMAL_BUFFER_HEADER_FLAG_TRANSMISSION_FAILED : Z.

(** [buffer->flags & (FRAME_END | TRANSMISSION_FAILED)]. *)
Definition marked (buffer : MMAL_BUFFER_HEADER_T) : bool :=
  negb (Z.land (flags buffer)
          (Z.lor MMAL_BUFFER_HEADER_FLAG_FRAME_END
                 MMAL_BUFFER_HEADER_FLAG_TRANSMISSION_FAILED) =? 0).

(** The [if (pData)] block: returns the store and [complete]. *)
Definition with_state (buffer : MMAL_BUFFER_HEADER_T) (env : oracle)
    (s : store) : store * bool :=
  let s :=
    if outputFileFD s =? -1 then
      let s := set_fd (wrap32 (open_result env))
                 (emit (EvOpen (wrap32 (open_result env))) s) in
      emit (EvFchmod (outputFileFD s)) s
    else s in
  let '(s, complete) :=
    if negb (length buffer =? 0) && (0 <? outputFileFD s) then
      let s := emit EvMemLock s in
      let lenWritten := wrap32 (write_result env) in
      let s := emit (EvWrite (outputFileFD s) (data buffer) (length buffer)
                       lenWritten) s in
      let '(s, complete) :=
        if to_u32 lenWritten =? length buffer then (s, false)
        else (emit EvWriteError s, true) in
      (emit EvMemUnlock s, complete)
    else (s, false) in
  (s, if marked buffer then true else complete).

Definition encoder_buffer_callback (port : MMAL_PORT_T)
    (buffer : MMAL_BUFFER_HEADER_T) (env : oracle) (s : store) : outcome :=
  let '(s, complete) :=
    match userdata port with
    | Some _ => with_state buffer env s
    | None => (emit EvNoState s, false)
    end in
  let s := mmal_buffer_header_release buffer s in
  let resend :=
    if is_enabled port then
      match userdata port with
      | None => NullDeref s
      | Some _ =>
          let '(new_buffer, s) := mmal_queue_get s in
          match new_buffer with
          | Some nb =>
              let s := mmal_port_send_buffer nb (send_ok env) s in
              Finished (if send_ok env then s else emit EvUnableToReturn s)
          | None => Finished (emit EvUnableToReturn s)
          end
      end
    else Finished s in
  match resend with
  | NullDeref s => NullDeref s
  | Finished s =>
      if complete then
        let s := vcos_semaphore_post s in
        let s := emit (EvClose (outputFileFD s)) s in
        Finished (set_fd 0 s)
      else Finished s
  end.

(** One buffer handed to the callback, with the answers of its
    environment. *)
Record delivery := {
  buf : MMAL_BUFFER_HEADER_T;
  env : oracle
}.

(** The callback, once per delivered buffer, in delivery order. *)
Fixpoint deliver_all (port : MMAL_PORT_T) (ds : list delivery) (s : store)
    : outcome :=
  match ds with
  | [] => Finished s
  | d :: rest =>
      match encoder_buffer_callback port (buf d) (env d) s with
      | Finished s' => deliver_all port rest s'
      | NullDeref s' => NullDeref s'
      end
  end.

(** The write of a delivery came back with a count other than the buffer's
    length (the comparison is made in [uint32_t]). *)
Definition short_write (d : delivery) : bool :=
  negb (to_u32 (wrap32 (write_result (env d))) =? length (buf d)).

(** The descriptor the callback writes to: the one [open] returns when
    [outputFileFD] is still -1, [outputFileFD] itself otherwise. *)
Definition sink_fd (env : oracle) (s : store) : Z :=
  if outputFileFD s =? -1 then wrap32 (open_result env) else outputFileFD s.

(** The callback calls [write] for this buffer. *)
Definition writes (buffer : MMAL_BUFFER_HEADER_T) (env : oracle) (s : store)
    : bool :=
  negb (length buffer =? 0) && (0 <? sink_fd env s).

(** The buffer is marked, or its write came back short. *)
Definition completes (buffer : MMAL_BUFFER_HEADER_T) (env : oracle)
    (s : store) : bool :=
  marked buffer
  || (writes buffer env s
      && negb (to_u32 (wrap32 (write_result env)) =? length buffer)).

End Flags.

(** [main] starts every session with [outputFileFD = -1]. *)
Definition begin_session (s : store) : store := set_fd (-1) s.

(** The number of semaphore posts in a trace. *)
Fixpoint posts (t : list event) : nat :=
  match t with
  | [] => O
  | EvPost :: t' => S (posts t')
  | _ :: t' => posts t'
  end.

(** The buffers released in a trace, in order. *)
Fixpoint released (t : list event) : list MMAL_BUFFER_HEADER_T :=
  match t with
  | [] => []
  | EvRelease b :: t' => b :: released t'
  | _ :: t' => released t'
  end.

(** The bytes [write(outputFileFD, buffer->data, buffer->length)] is
    handed. *)
Definition payload (b : MMAL_BUFFER_HEADER_T) : list Z :=
  take (Z.to_nat (length b)) (data b).

(** The bytes that reach the sink in a trace: of every [write], the first
    [written] bytes of what it was handed (none when it returned -1). *)
Fixpoint sink_bytes (t : list event) : list Z :=
  match t with
  | [] => []
  | EvWrite _ p count written :: t' =>
      take (Z.to_nat written) (take (Z.to_nat count) p) ++ sink_bytes t'
  | _ :: t' => sink_bytes t'
  end.

(** A delivery whose write is complete, with descriptor and length in the
    range of [int]. *)
Definition clean (d : delivery) : Prop :=
  0 < open_result (env d) <= INT_MAX
  /\ 0 <= length (buf d) <= INT_MAX
  /\ write_result (env d) = length (buf d).

(** The number of calls of [open] in a trace. *)
Fixpoint opens (t : list event) : nat :=
  match t with
  | [] => O
  | EvOpen _ :: t' => S (opens t')
  | _ :: t' => opens t'
  end.

(** The descriptors handed to [close] in a trace, in order. *)
Fixpoint closed (t : list event) : list Z :=
  match t with
  | [] => []
  | EvClose fd :: t' => fd :: closed t'
  | _ :: t' => closed t'
  end.

(** *** [camera_opencv_callback]

    The callback of the camera's video port.  Here [port->userdata] is the
    queue of the pool made in [create_camera_component] (NULL until that
    function stores it); the [queue] of the store is that queue and
    [in_port] the buffers at the video port. *)
Inductive MMAL_QUEUE_T := opencv_pool_queue.

Record VIDEO_PORT_T := {
  video_is_enabled : bool;
  video_userdata : option MMAL_QUEUE_T
}.

(** The callback runs to its end, or reaches [mmal_queue_get] with a NULL
    queue, where the model stops. *)
Inductive video_outcome :=
| VideoFinished (s : store)
| VideoNullQueue (s : store).

Definition video_final (o : video_outcome) : store :=
  match o with VideoFinished s => s | VideoNullQueue s => s end.

(** The test of the flags guards an empty block, so the flags play no
    part. *)
Definition camera_opencv_callback (port : VIDEO_PORT_T)
    (buffer : MMAL_BUFFER_HEADER_T) (env : oracle) (s : store)
    : video_outcome :=
  let s := mmal_buffer_header_release buffer s in
  if video_is_enabled port then
    match video_userdata port with
    | None => VideoNullQueue s
    | Some _ =>
        let '(new_buffer, s) := mmal_queue_get s in
        match new_buffer with
        | Some nb =>
            let s := mmal_port_send_buffer nb (send_ok env) s in
            VideoFinished (if send_ok env then s else emit EvUnableToReturn s)
        | None => VideoFinished (emit EvUnableToReturn s)
        end
    end
  else VideoFinished s.

(** Concrete inputs: a store before the first session, a buffer holding a
    payload under a flag word, the answers of the environment, and the
    port with [callback_data] attached. *)
Definition idle : store :=
  {| outputFileFD := 0; complete_semaphore := 0; queue := []; in_port := [];
     trace := [] |}.

Definition buffer_of (payload : list Z) (flag_word : Z)
    : MMAL_BUFFER_HEADER_T :=
  {| data := payload; length := Z.of_nat (List.length payload);
     flags := flag_word |}.

Definition answers (fd written : Z) : oracle :=
  {| open_result := fd; write_result := written; send_ok := true |}.

Definition encoder_output_port : MMAL_PORT_T :=
  {| is_enabled := true; userdata := Some callback_data |}.

End Encoder.

(** ** The upload receiver (dashgrab.cpp) *)
Module Dashgrab.

(** One turn of the copy loop as its environment answers it.  What
    [read(fd, buffer, sizeof(buffer))] gives: some bytes, 0 when the peer
    has closed, -1 on an error; and, when it gives bytes, what
    [write(out, buffer, len)] returns, which the code does not look at:
    [ReadBytes] is followed by a complete write, [ReadShort] by a write that
    returns [written], fewer than the bytes it was handed or -1. *)
Inductive read_result :=
| ReadBytes (bytes : list Z)
| ReadShort (bytes : list Z) (written : Z)
| ReadClosed
| ReadFailed.

Definition len_of (r : read_result) : Z :=
  match r with
  | ReadBytes bytes => Z.of_nat (List.length bytes)
  | ReadShort bytes _ => Z.of_nat (List.length bytes)
  | ReadClosed => 0
  | ReadFailed => -1
  end.

Definition bytes_of (r : read_result) : list Z :=
  match r with
  | ReadBytes bytes => bytes
  | ReadShort bytes _ => bytes
  | _ => []
  end.

(** The bytes the [write] of a turn puts into the file: all of them, or the
    first [written]; none when [write] returns -1 or 0. *)
Definition written_of (r : read_result) : list Z :=
  match r with
  | ReadBytes bytes => bytes
  | ReadShort bytes written => take (Z.to_nat written) bytes
  | _ => []
  end.

(** An accepted connection: the peer address [accept] stores in [cli_addr],
    the results of the reads on it, and whether [open] of the output file
    succeeds while it is served. *)
Record connection := {
  cli_addr : N;
  reads : list read_result;
  open_ok : bool
}.

(** [filename << "/var/www/html/grab" << address << ".jpeg"]. *)
Definition filename_of (address : N) : string :=
  "/var/www/html/grab" +:+ pretty address +:+ ".jpeg".

(** The file after [bytes] have been put at offset [off]. *)
Definition write_at (off : nat) (bytes content : list Z) : list Z :=
  take off content ++ bytes ++ drop (off + List.length bytes) content.

(** The [do ... while (len > 0)] loop on an open output file; [off] is the
    file offset.  The result of [write] is dropped: the loop goes on to the
    next [read] whatever was written, and the offset is where the last
    [write] left it. *)
Fixpoint copy_loop (rs : list read_result) (off : nat) (content : list Z)
    : list Z :=
  match rs with
  | [] => content
  | r :: rest =>
      if 0 <? len_of r then
        copy_loop rest (off + List.length (written_of r))
          (write_at off (written_of r) content)
      else content
  end.

(** [processClient(fd, address)]: [open] with [O_WRONLY | O_CREAT] creates
    the file when it is missing and keeps its content otherwise; when [open]
    fails every [write] fails with it. *)
Definition processClient (c : connection) (address : N)
    (fs : gmap string (list Z)) : gmap string (list Z) :=
  if open_ok c then
    <[filename_of address := copy_loop (reads c) 0
                               (default [] (fs !! filename_of address))]> fs
  else fs.

(** The bytes a connection delivers before the first read that returns no
    data, and those of them that the writes put into the file. *)
Fixpoint received (rs : list read_result) : list Z :=
  match rs with
  | [] => []
  | r :: rest => if 0 <? len_of r then bytes_of r ++ received rest else []
  end.

Fixpoint stored (rs : list read_result) : list Z :=
  match rs with
  | [] => []
  | r :: rest => if 0 <? len_of r then written_of r ++ stored rest else []
  end.

(** No write of the connection comes back short. *)
Definition complete_writes (rs : list read_result) : bool :=
  forallb (fun r => match r with ReadShort _ _ => false | _ => true end) rs.

Section Server.

(** [serv_addr.sin_addr.s_addr] is set to [INADDR_ANY], a constant of the
    system headers. *)
Variable INADDR_ANY : N.

(** The accept loop: every accepted connection is served to its end before
    the next [select], with [serv_addr.sin_addr.s_addr] as the address. *)
Definition acceptThread (conns : list connection)
    (fs : gmap string (list Z)) : gmap string (list Z) :=
  foldl (fun fs c => processClient c INADDR_ANY fs) fs conns.

End Server.

(** What the keyboard loop of [main] does that can be seen from outside:
    its echo of a key, and the calls of wiringPi. *)
Inductive pin_event :=
| EvTyped (c : Z)
| EvPinOutput (pin : Z)
| EvDigitalWrite (pin : Z) (high : bool)
| EvDelay (ms : Z).

Definition sendCaptureGpio : list pin_event :=
  [EvPinOutput 21; EvDigitalWrite 21 true; EvDelay 500;
   EvDigitalWrite 21 false; EvDelay 500].

(** The loop ends at the key [q]; at the end of the input [getchar] returns
    [EOF] at every call, which is not [q], and the loop goes on for ever
    with nothing but its echo. *)
Inductive keyboard :=
| Quit (t : list pin_event)
| Spinning (t : list pin_event).

Definition events (k : keyboard) : list pin_event :=
  match k with Quit t => t | Spinning t => t end.

Definition after_key (t : list pin_event) (k : keyboard) : keyboard :=
  match k with
  | Quit t' => Quit (t ++ t')
  | Spinning t' => Spinning (t ++ t')
  end.

(** The [do ... while (c != 'q')] loop of [main] on the keys typed; the
    letters [c] and [q] are 99 and 113. *)
Fixpoint main (keys : list Z) : keyboard :=
  match keys with
  | [] => Spinning []
  | c :: rest =>
      let t := EvTyped c :: (if c =? 99 then sendCaptureGpio else []) in
      if c =? 113 then Quit t else after_key t (main rest)
  end.

(** The calls of wiringPi in a trace, the keys typed before the first [q],
    and the level the last [digitalWrite] left on a pin. *)
Definition is_pin (e : pin_event) : bool :=
  match e with EvTyped _ => false | _ => true end.

Fixpoint before_quit (keys : list Z) : list Z :=
  match keys with
  | [] => []
  | c :: rest => if c =? 113 then [] else c :: before_quit rest
  end.

Fixpoint level (pin : Z) (t : list pin_event) (high : bool) : bool :=
  match t with
  | [] => high
  | EvDigitalWrite p h :: rest => level pin rest (if p =? pin then h else high)
  | _ :: rest => level pin rest high
  end.

Definition pulses (n : nat) : list pin_event :=
  List.concat (List.repeat sendCaptureGpio n).

End Dashgrab.

(** ** EXIF tags: [store_exif_tag], [add_exif_tag], [add_exif_tags]
       (dashcam.cpp)

    A C string is a [string] (the characters before the NUL); a
    [const char *] that may be NULL is an [option string]. *)
Module Exif.
Import CInt.

Definition MAX_USER_EXIF_TAGS : Z := 32.
Definition MAX_EXIF_PAYLOAD_LENGTH : Z := 128.

(** The fields of [RASPISTILL_STATE] the three functions use: the array
    [exifTags] of [MAX_USER_EXIF_TAGS] pointers, [numExifTags],
    [camera_name], and whether [encoder_component] is set. *)
Record RASPISTILL_STATE := {
  exifTags : list (option string);
  numExifTags : Z;
  camera_name : string;
  encoder_component : bool
}.

(** [store_exif_tag]: [None] is the write in front of the array that a
    negative [numExifTags] would make. *)
Definition store_exif_tag (state : RASPISTILL_STATE)
    (exif_tag : option string) : option RASPISTILL_STATE :=
  if numExifTags state <? MAX_USER_EXIF_TAGS then
    if numExifTags state <? 0 then None
    else
      Some {| exifTags := <[Z.to_nat (numExifTags state) := exif_tag]>
                            (exifTags state);
              numExifTags := wrap32 (numExifTags state + 1);
              camera_name := camera_name state;
              encoder_component := encoder_component state |}
  else Some state.

(** [store_exif_tag] once for every tag of a list, in order. *)
Fixpoint store_all (tags : list (option string)) (state : RASPISTILL_STATE)
    : option RASPISTILL_STATE :=
  match tags with
  | [] => Some state
  | t :: rest =>
      match store_exif_tag state t with
      | Some state' => store_all rest state'
      | None => None
      end
  end.

(** The character ['='], code 61. *)
Definition equals_sign : Ascii.ascii := Ascii.ascii_of_nat 61.

(** [strchr(s, c) != NULL]. *)
Fixpoint has_char (c : Ascii.ascii) (s : string) : bool :=
  match s with
  | EmptyString => false
  | String a s' => if Ascii.eqb a c then true else has_char c s'
  end.

(** The first [n] characters of a string. *)
Fixpoint string_take (n : nat) (s : string) : string :=
  match n, s with
  | O, _ => EmptyString
  | S _, EmptyString => EmptyString
  | S n', String a s' => String a (string_take n' s')
  end.

(** The string left in a zeroed buffer of more than [n] bytes by
    [strncpy(buffer, s, n)], and the string [snprintf(buffer, size, ...)]
    leaves when the formatted text is [text]. *)
Definition strncpy (s : string) (n : Z) : string := string_take (Z.to_nat n) s.
Definition snprintf (size : Z) (text : string) : string :=
  string_take (Z.to_nat (size - 1)) text.

Fixpoint zeros (n : nat) : string :=
  match n with O => EmptyString | S n' => String (Ascii.ascii_of_nat 48) (zeros n') end.

(** The conversion [%0<w>d] of an [int]. *)
Definition fmt_0d (w : nat) (z : Z) : string :=
  let digits := pretty (Z.abs_N z) in
  if z <? 0 then "-" +:+ zeros (w - 1 - String.length digits) +:+ digits
  else zeros (w - String.length digits) +:+ digits.

(** The fields of [struct tm] that are printed. *)
Record tm := {
  tm_year : Z; tm_mon : Z; tm_mday : Z;
  tm_hour : Z; tm_min : Z; tm_sec : Z
}.

Inductive event :=
| EvCalloc
| EvSetExif (data : string) (size : Z)   (* mmal_port_parameter_set of the tag *)
| EvFree.

(** The world: whether the n-th [calloc] succeeds, the status of the n-th
    [mmal_port_parameter_set], and what has happened so far. *)
Record world := {
  calloc_ok : nat -> bool;
  set_status : nat -> Z;
  trace : list event
}.

Definition emit (e : event) (w : world) : world :=
  {| calloc_ok := calloc_ok w; set_status := set_status w;
     trace := trace w ++ [e] |}.

Fixpoint callocs (t : list event) : nat :=
  match t with
  | [] => O
  | EvCalloc :: t' => S (callocs t')
  | _ :: t' => callocs t'
  end.

(** The tags handed to the encoder in a trace, in order. *)
Fixpoint sets (t : list event) : list string :=
  match t with
  | [] => []
  | EvSetExif data _ :: t' => data :: sets t'
  | _ :: t' => sets t'
  end.

Fixpoint frees (t : list event) : nat :=
  match t with
  | [] => O
  | EvFree :: t' => S (frees t')
  | _ :: t' => frees t'
  end.

(** A call returns a status, or stops at a NULL pointer: the block [calloc]
    did not give, or [state->encoder_component]. *)
Inductive outcome :=
| Returned (status : Z) (w : world)
| NullDeref (w : world).

Section Constants.

(** [MMAL_EINVAL] and [sizeof(MMAL_PARAMETER_EXIF_T)] come from the MMAL
    headers. *)
Variable MMAL_EINVAL : Z.
Variable sizeof_MMAL_PARAMETER_EXIF_T : Z.

Definition add_exif_tag (state : RASPISTILL_STATE) (exif_tag : option string)
    (w : world) : outcome :=
  let allocated := calloc_ok w (callocs (trace w)) in
  let w := emit EvCalloc w in
  match exif_tag with
  | None => Returned MMAL_EINVAL w
  | Some tag =>
      if negb (has_char equals_sign tag)
         || (MAX_EXIF_PAYLOAD_LENGTH - 1 <? Z.of_nat (String.length tag))
      then Returned MMAL_EINVAL w
      else if negb allocated then NullDeref w
      else
        let data := strncpy tag (MAX_EXIF_PAYLOAD_LENGTH - 1) in
        let size :=
          to_u32 (sizeof_MMAL_PARAMETER_EXIF_T
                  + Z.of_nat (String.length data)) in
        if encoder_component state then
          let status := set_status w (List.length (sets (trace w))) in
          let w := emit (EvSetExif data size) w in
          Returned status (emit EvFree w)
        else NullDeref w
  end.

(** A call of [add_exif_tag] whose status is dropped. *)
Definition then_add (state : RASPISTILL_STATE) (exif_tag : option string)
    (o : outcome) : outcome :=
  match o with
  | Returned _ w => add_exif_tag state exif_tag w
  | NullDeref w => NullDeref w
  end.

(** The loop over the user's tags: [i] runs while
    [i < state->numExifTags && i < MAX_USER_EXIF_TAGS]; NULL entries are
    passed over. *)
Fixpoint user_tags_loop (state : RASPISTILL_STATE) (i : Z) (fuel : nat)
    (o : outcome) : outcome :=
  match fuel with
  | O => o
  | S fuel' =>
      if (i <? numExifTags state) && (i <? MAX_USER_EXIF_TAGS) then
        let o :=
          match default None (exifTags state !! Z.to_nat i) with
          | Some tag => then_add state (Some tag) o
          | None => o
          end in
        user_tags_loop state (wrap32 (i + 1)) fuel' o
      else o
  end.

(** [add_exif_tags]; [timeinfo] is what [localtime] gives. *)
Definition add_exif_tags (state : RASPISTILL_STATE) (timeinfo : tm)
    (w : world) : outcome :=
  let model_buf := snprintf 32 ("IFD0.Model=RP_" +:+ camera_name state) in
  let o := add_exif_tag state (Some model_buf) w in
  let o := then_add state (Some "IFD0.Make=RaspberryPi") o in
  let time_buf :=
    snprintf 32
      (fmt_0d 4 (wrap32 (tm_year timeinfo + 1900)) +:+ ":"
       +:+ fmt_0d 2 (wrap32 (tm_mon timeinfo + 1)) +:+ ":"
       +:+ fmt_0d 2 (tm_mday timeinfo) +:+ " "
       +:+ fmt_0d 2 (tm_hour timeinfo) +:+ ":"
       +:+ fmt_0d 2 (tm_min timeinfo) +:+ ":"
       +:+ fmt_0d 2 (tm_sec timeinfo)) in
  let o := then_add state
             (Some (snprintf 128 ("EXIF.DateTimeDigitized=" +:+ time_buf))) o in
  let o := then_add state
             (Some (snprintf 128 ("EXIF.DateTimeOriginal=" +:+ time_buf))) o in
  let o := then_add state
             (Some (snprintf 128 ("IFD0.DateTime=" +:+ time_buf))) o in
  user_tags_loop state 0 (Z.to_nat MAX_USER_EXIF_TAGS) o.

End Constants.

(** A tag [add_exif_tag] accepts: present, with an ['='] in it, and at most
    [MAX_EXIF_PAYLOAD_LENGTH - 1] characters long. *)
Definition acceptable (exif_tag : option string) : bool :=
  match exif_tag with
  | None => false
  | Some tag =>
      has_char equals_sign tag
      && (Z.of_nat (String.length tag) <=? MAX_EXIF_PAYLOAD_LENGTH - 1)
  end.

(** The tags of a list that [add_exif_tag] accepts, in order. *)
Definition accepted (tags : list (option string)) : list string :=
  omap (fun t => if acceptable t then t else None) tags.

(** The state [default_status] leaves as far as the tags go: none stored. *)
Definition no_tags (name : string) : RASPISTILL_STATE :=
  {| exifTags := replicate (Z.to_nat MAX_USER_EXIF_TAGS) None;
     numExifTags := 0; camera_name := name; encoder_component := true |}.

(** A world in which every [calloc] succeeds and every set returns
    [status]. *)
Definition kind_world (status : Z) : world :=
  {| calloc_ok := fun _ => true; set_status := fun _ => status; trace := [] |}.

End Exif.

(** ** Start-up and shut-down: [default_status], [set_sensor_defaults],
       [create_camera_component], [create_encoder_component],
       [connect_ports], the destroy functions and [main] up to its capture
       loop (dashcam.cpp)

    The trace records the MMAL calls and the messages of [vcos_log_error];
    what is only printed is not recorded.  Every status and every pointer
    the libraries give is an answer of the environment. *)
Module Startup.
Import CInt.

Inductive component := CameraInfo | Camera | Preview | Encoder.
Inductive connection := PreviewConnection | EncoderConnection.
Inductive port :=
| InfoControl | CameraControl | CameraPreview | CameraVideo | CameraStill
| EncoderOutput.

Inductive event :=
| EvLog (msg : string)
| EvComponentCreate (c : component)
| EvComponentEnable (c : component)
| EvComponentDisable (c : component)
| EvComponentDestroy (c : component)
| EvParameter (p : port) (name : string)
| EvPortEnable (p : port)
| EvPortDisable (p : port)
| EvFormatCommit (p : port)
| EvPoolCreate (p : port) (num size : Z)
| EvPoolDestroy (p : port)
| EvSendBuffer (p : port) (q : Z)
| EvConnectionCreate (c : connection)
| EvConnectionEnable (c : connection)
| EvConnectionDestroy (c : connection)
| EvPreviewCreate
| EvPreviewDestroy
| EvCamControl
| EvSemaphoreCreate.

(** The fields of [RASPISTILL_STATE] these functions use; a pointer field is
    [true] when it is not NULL.  [preview_width], [preview_height] and
    [preview_component] are the fields of [preview_parameters]. *)
Record RASPISTILL_STATE := {
  width : Z; height : Z; camera_name : string;
  quality : Z; verbose : Z; settings : Z; fullResPreview : Z;
  sensor_mode : Z; cameraNum : Z;
  preview_width : Z; preview_height : Z; preview_component : bool;
  camera_component : bool; encoder_component : bool; encoder_pool : bool;
  preview_connection : bool; encoder_connection : bool
}.

Definition with_pointers (pv cam enc pool pc ec : bool)
    (st : RASPISTILL_STATE) : RASPISTILL_STATE :=
  {| width := width st; height := height st; camera_name := camera_name st;
     quality := quality st; verbose := verbose st; settings := settings st;
     fullResPreview := fullResPreview st; sensor_mode := sensor_mode st;
     cameraNum := cameraNum st;
     preview_width := preview_width st; preview_height := preview_height st;
     preview_component := pv; camera_component := cam;
     encoder_component := enc; encoder_pool := pool;
     preview_connection := pc; encoder_connection := ec |}.

Definition set_preview_component (v : bool) (st : RASPISTILL_STATE) :=
  with_pointers v (camera_component st) (encoder_component st)
    (encoder_pool st) (preview_connection st) (encoder_connection st) st.
Definition set_camera_component (v : bool) (st : RASPISTILL_STATE) :=
  with_pointers (preview_component st) v (encoder_component st)
    (encoder_pool st) (preview_connection st) (encoder_connection st) st.
Definition set_encoder_component (v : bool) (st : RASPISTILL_STATE) :=
  with_pointers (preview_component st) (camera_component st) v
    (encoder_pool st) (preview_connection st) (encoder_connection st) st.
Definition set_encoder_pool (v : bool) (st : RASPISTILL_STATE) :=
  with_pointers (preview_component st) (camera_component st)
    (encoder_component st) v (preview_connection st) (encoder_connection st)
    st.
Definition set_connection (c : connection) (v : bool)
    (st : RASPISTILL_STATE) :=
  match c with
  | PreviewConnection =>
      with_pointers (preview_component st) (camera_component st)
        (encoder_component st) (encoder_pool st) v (encoder_connection st) st
  | EncoderConnection =>
      with_pointers (preview_component st) (camera_component st)
        (encoder_component st) (encoder_pool st) (preview_connection st) v st
  end.
Definition get_connection (c : connection) (st : RASPISTILL_STATE) : bool :=
  match c with
  | PreviewConnection => preview_connection st
  | EncoderConnection => encoder_connection st
  end.

(** The program's state, whether the camera's video port is enabled, and
    the trace. *)
Record sys := {
  state : RASPISTILL_STATE;
  video_enabled : bool;
  trace : list event
}.

Definition emit (e : event) (s : sys) : sys :=
  {| state := state s; video_enabled := video_enabled s;
     trace := trace s ++ [e] |}.
Definition vcos_log_error (msg : string) (s : sys) : sys := emit (EvLog msg) s.
Definition update (f : RASPISTILL_STATE -> RASPISTILL_STATE) (s : sys) : sys :=
  {| state := f (state s); video_enabled := video_enabled s;
     trace := trace s |}.
Definition set_video_enabled (v : bool) (s : sys) : sys :=
  {| state := state s; video_enabled := v; trace := trace s |}.

(** The answers of the environment, one per call whose result the code
    looks at.  A [_created] field says whether the call left a pointer that
    is not NULL. *)
Record oracle := {
  info_create_status : Z; info_created : bool;
  info_first_get_status : Z; info_second_get_status : Z;
  info_num_cameras : Z; info_camera_name : string;
  preview_defaults : Z * Z * bool;
  cam_create_status : Z; cam_created : bool;
  cam_select_status : Z; cam_output_num : Z; cam_sensor_status : Z;
  cam_settings_status : Z; cam_control_enable_status : Z;
  preview_commit_status : Z;
  video_commit_status : Z; video_commit_adjust : Z -> Z -> Z * Z;
  still_commit_status : Z;
  video_pool : option Z;
  cam_enable_status : Z; video_enable_status : Z;
  video_buffer : Z -> bool; video_send_status : Z -> Z;
  preview_create_status : Z; preview_created : bool;
  preview_destroy_leaves : bool;
  enc_create_status : Z; enc_created : bool;
  enc_input_num : Z; enc_output_num : Z;
  enc_size_recommended : Z; enc_size_min : Z;
  enc_num_recommended : Z; enc_num_min : Z;
  enc_commit_status : Z; enc_quality_status : Z; enc_enable_status : Z;
  enc_pool : bool;
  conn_create_status : connection -> Z; conn_created : connection -> bool;
  conn_enable_status : connection -> Z;
  capture_status : Z
}.

(** A function returning [MMAL_STATUS_T] returns, or stops at a pointer
    that is NULL or outside its array; so does a function returning
    nothing. *)
Inductive result :=
| Status (status : Z) (s : sys)
| Fault (s : sys).

Inductive step :=
| Done (s : sys)
| Stopped (s : sys).

(** [main] returns its exit code, reaches its capture loop, or stops as
    above. *)
Inductive run :=
| Exit (exit_code : Z) (s : sys)
| CaptureLoop (s : sys)
| Crash (s : sys).

Definition final (r : run) : sys :=
  match r with Exit _ s => s | CaptureLoop s => s | Crash s => s end.

(** How often a component or a connection is destroyed in a trace. *)
Definition is_destroy (c : component) (e : event) : bool :=
  match e, c with
  | EvComponentDestroy CameraInfo, CameraInfo => true
  | EvComponentDestroy Camera, Camera => true
  | EvComponentDestroy Preview, Preview => true
  | EvComponentDestroy Encoder, Encoder => true
  | _, _ => false
  end.

Definition is_connection_destroy (c : connection) (e : event) : bool :=
  match e, c with
  | EvConnectionDestroy PreviewConnection, PreviewConnection => true
  | EvConnectionDestroy EncoderConnection, EncoderConnection => true
  | _, _ => false
  end.

Definition destroys (c : component) (t : list event) : nat :=
  List.length (List.filter (is_destroy c) t).

(** How often [mmal_component_enable] is called on a component. *)
Definition is_enable (c : component) (e : event) : bool :=
  match e, c with
  | EvComponentEnable CameraInfo, CameraInfo => true
  | EvComponentEnable Camera, Camera => true
  | EvComponentEnable Preview, Preview => true
  | EvComponentEnable Encoder, Encoder => true
  | _, _ => false
  end.

Definition enables (c : component) (t : list event) : nat :=
  List.length (List.filter (is_enable c) t).

(** An event that disables or destroys something, and those of a trace. *)
Definition is_teardown (e : event) : bool :=
  match e with
  | EvComponentDisable _ | EvComponentDestroy _ | EvPortDisable _
  | EvPoolDestroy _ | EvConnectionDestroy _ | EvPreviewDestroy => true
  | _ => false
  end.

Definition teardowns (t : list event) : list event :=
  List.filter is_teardown t.

(** An event that neither enables, disables nor destroys anything. *)
Definition plain (e : event) : bool :=
  match e with
  | EvComponentEnable _ => false
  | _ => negb (is_teardown e)
  end.

Definition connection_destroys (c : connection) (t : list event) : nat :=
  List.length (List.filter (is_connection_destroy c) t).

(** Before [main] has done anything: nothing has happened, and the state
    is yet to be filled in by [default_status]. *)
Definition power_on : sys :=
  {| state := {| width := 0; height := 0; camera_name := "";
                 quality := 0; verbose := 0; settings := 0;
                 fullResPreview := 0; sensor_mode := 0; cameraNum := 0;
                 preview_width := 0; preview_height := 0;
                 preview_component := false; camera_component := false;
                 encoder_component := false; encoder_pool := false;
                 preview_connection := false; encoder_connection := false |};
     video_enabled := false; trace := [] |}.

Section Codes.

(** Constants of the MMAL and system headers, and the macro
    [VCOS_ALIGN_UP]. *)
Variable MMAL_SUCCESS MMAL_ENOSYS : Z.
Variable EX_OK EX_SOFTWARE : Z.
Variable MMAL_PARAMETER_CAMERA_INFO_MAX_STR_LEN : Z.
Variable VCOS_ALIGN_UP : Z -> Z -> Z.

Definition VIDEO_OUTPUT_BUFFERS_NUM : Z := 3.

Definition ok (status : Z) : bool := status =? MMAL_SUCCESS.

(** [set_sensor_defaults].  [camera_name] holds the characters of the array
    before its first NUL. *)
Definition set_sensor_defaults (env : oracle) (s : sys) : step :=
  let named (name : string) (s : sys) :=
    update (fun st =>
      {| width := 1280; height := 720; camera_name := name;
         quality := quality st; verbose := verbose st;
         settings := settings st; fullResPreview := fullResPreview st;
         sensor_mode := sensor_mode st; cameraNum := cameraNum st;
         preview_width := preview_width st;
         preview_height := preview_height st;
         preview_component := preview_component st;
         camera_component := camera_component st;
         encoder_component := encoder_component st;
         encoder_pool := encoder_pool st;
         preview_connection := preview_connection st;
         encoder_connection := encoder_connection st |}) s in
  let s := named (Exif.strncpy "OV5647" MMAL_PARAMETER_CAMERA_INFO_MAX_STR_LEN)
             s in
  let s := emit (EvComponentCreate CameraInfo) s in
  if ok (info_create_status env) then
    if negb (info_created env) then Stopped s
    else
      let s := emit (EvParameter InfoControl "CAMERA_INFO") s in
      let s :=
        if negb (ok (info_first_get_status env)) then
          let s := emit (EvParameter InfoControl "CAMERA_INFO") s in
          if ok (info_second_get_status env) && (0 <? info_num_cameras env)
          then
            named (Exif.strncpy (info_camera_name env)
                     (MMAL_PARAMETER_CAMERA_INFO_MAX_STR_LEN - 1)) s
          else
            vcos_log_error
              "Cannot read cameara info, keeping the defaults for OV5647" s
        else s in
      Done (emit (EvComponentDestroy CameraInfo) s)
  else Done (vcos_log_error "Failed to create camera_info component" s).

(** [default_status]: every field is set, whatever it held; the window of
    the preview and its component pointer are what
    [raspipreview_set_defaults] leaves. *)
Definition default_status (env : oracle) (s : sys) : step :=
  let s :=
    update (fun _ =>
      {| width := 0; height := 0; camera_name := "";
         quality := 85; verbose := 1; settings := 0; fullResPreview := 0;
         sensor_mode := 0; cameraNum := 0;
         preview_width := 0; preview_height := 0;
         preview_component := false;
         camera_component := false; encoder_component := false;
         encoder_pool := false;
         preview_connection := false; encoder_connection := false |}) s in
  match set_sensor_defaults env s with
  | Stopped s => Stopped s
  | Done s =>
      Done (update (fun st =>
        {| width := width st; height := height st;
           camera_name := camera_name st;
           quality := quality st; verbose := verbose st;
           settings := settings st; fullResPreview := fullResPreview st;
           sensor_mode := sensor_mode st; cameraNum := cameraNum st;
           preview_width := (preview_defaults env).1.1;
           preview_height := (preview_defaults env).1.2;
           preview_component := (preview_defaults env).2;
           camera_component := camera_component st;
           encoder_component := encoder_component st;
           encoder_pool := encoder_pool st;
           preview_connection := preview_connection st;
           encoder_connection := encoder_connection st |}) s)
  end.

(** The [error:] label of [create_camera_component]. *)
Definition camera_error (camera : bool) (status : Z) (s : sys) : result :=
  Status status (if camera then emit (EvComponentDestroy Camera) s else s).

(** The loop that sends the buffers of the pool to the video port. *)
Fixpoint send_buffers (env : oracle) (q : Z) (n : nat) (s : sys) : sys :=
  match n with
  | O => s
  | S n' =>
      let s :=
        if video_buffer env q then s
        else vcos_log_error
               "Unable to get a required buffer %d from pool queue" s in
      let s := emit (EvSendBuffer CameraVideo q) s in
      let s :=
        if ok (video_send_status env q) then s
        else vcos_log_error
               "Unable to send a buffer to camera output port (%d)" s in
      send_buffers env (wrap32 (q + 1)) n' s
  end.

Definition create_camera_component (env : oracle) (s : sys) : result :=
  let st := state s in
  let s := emit (EvComponentCreate Camera) s in
  if negb (ok (cam_create_status env)) then
    camera_error (cam_created env) (cam_create_status env)
      (vcos_log_error "Failed to create camera component" s)
  else if negb (cam_created env) then Fault s
  else
  let s := emit (EvParameter CameraControl "CAMERA_NUM") s in
  if negb (ok (cam_select_status env)) then
    camera_error true (cam_select_status env)
      (vcos_log_error "Could not select camera : error %d" s)
  else if cam_output_num env =? 0 then
    camera_error true MMAL_ENOSYS
      (vcos_log_error "Camera doesn't have output ports" s)
  else
  let s := emit (EvParameter CameraControl "CAMERA_CUSTOM_SENSOR_CONFIG") s in
  if negb (ok (cam_sensor_status env)) then
    camera_error true (cam_sensor_status env)
      (vcos_log_error "Could not set sensor mode : error %d" s)
  else if cam_output_num env <? 3 then Fault s
  else
  let s :=
    if settings st =? 0 then s
    else
      let s := emit (EvParameter CameraControl "CHANGE_EVENT_REQUEST") s in
      if ok (cam_settings_status env) then s
      else vcos_log_error "No camera settings events" s in
  let s := emit (EvPortEnable CameraControl) s in
  if negb (ok (cam_control_enable_status env)) then
    camera_error true (cam_control_enable_status env)
      (vcos_log_error "Unable to enable control port : error %d" s)
  else
  let s := emit (EvParameter CameraControl "CAMERA_CONFIG") s in
  let video_width :=
    to_u32 (VCOS_ALIGN_UP (if fullResPreview st =? 0 then preview_width st
                           else width st) 32) in
  let video_height :=
    to_u32 (VCOS_ALIGN_UP (if fullResPreview st =? 0 then preview_height st
                           else height st) 16) in
  let s := emit (EvFormatCommit CameraPreview) s in
  if negb (ok (preview_commit_status env)) then
    camera_error true (preview_commit_status env)
      (vcos_log_error "camera viewfinder format couldn't be set" s)
  else
  let buffer_size :=
    to_u32 (to_u32 (video_width * video_height) * 3) / 2 in
  let s := emit (EvFormatCommit CameraVideo) s in
  let '(buffer_num, buffer_size) := video_commit_adjust env 4 buffer_size in
  if negb (ok (video_commit_status env)) then
    camera_error true (video_commit_status env)
      (vcos_log_error "camera video format couldn't be set" s)
  else
  let buffer_num :=
    if buffer_num <? VIDEO_OUTPUT_BUFFERS_NUM then VIDEO_OUTPUT_BUFFERS_NUM
    else buffer_num in
  let s := emit (EvFormatCommit CameraStill) s in
  if negb (ok (still_commit_status env)) then
    camera_error true (still_commit_status env)
      (vcos_log_error "camera still format couldn't be set" s)
  else
  let s := update (set_camera_component true) s in
  let s := emit (EvPoolCreate CameraVideo buffer_num buffer_size) s in
  let s :=
    match video_pool env with
    | Some _ => s
    | None =>
        vcos_log_error
          "Failed to create buffer header pool for encoder output port %s" s
    end in
  let s := emit (EvComponentEnable Camera) s in
  if negb (ok (cam_enable_status env)) then
    camera_error true (cam_enable_status env)
      (vcos_log_error "camera component couldn't be enabled" s)
  else
  let s := emit (EvPortEnable CameraVideo) s in
  if negb (ok (video_enable_status env)) then
    camera_error true (video_enable_status env)
      (vcos_log_error "camera component couldn't enable opencv" s)
  else
  let s := set_video_enabled true s in
  match video_pool env with
  | None => Fault s
  | Some num =>
      let s := send_buffers env 0 (Z.to_nat (wrap32 num)) s in
      let s := emit EvCamControl s in
      let s := emit (EvParameter CameraPreview "ROTATION") s in
      let s := emit (EvParameter CameraVideo "ROTATION") s in
      let s := emit (EvParameter CameraStill "ROTATION") s in
      Status (video_enable_status env) s
  end.

Definition destroy_camera_component (s : sys) : sys :=
  if camera_component (state s) then
    update (set_camera_component false) (emit (EvComponentDestroy Camera) s)
  else s.

(** The [error:] label of [create_encoder_component]. *)
Definition encoder_error (encoder : bool) (status : Z) (s : sys) : result :=
  Status status (if encoder then emit (EvComponentDestroy Encoder) s else s).

Definition create_encoder_component (env : oracle) (s : sys) : result :=
  let s := emit (EvComponentCreate Encoder) s in
  if negb (ok (enc_create_status env)) then
    encoder_error (enc_created env) (enc_create_status env)
      (vcos_log_error "Unable to create JPEG encoder component" s)
  else if negb (enc_created env) then Fault s
  else if (enc_input_num env =? 0) || (enc_output_num env =? 0) then
    encoder_error true MMAL_ENOSYS
      (vcos_log_error "JPEG encoder doesn't have input/output ports" s)
  else
  let buffer_size :=
    if enc_size_recommended env <? enc_size_min env then enc_size_min env
    else enc_size_recommended env in
  let buffer_num :=
    if enc_num_recommended env <? enc_num_min env then enc_num_min env
    else enc_num_recommended env in
  let s := emit (EvFormatCommit EncoderOutput) s in
  if negb (ok (enc_commit_status env)) then
    encoder_error true (enc_commit_status env)
      (vcos_log_error "Unable to set format on video encoder output port" s)
  else
  let s := emit (EvParameter EncoderOutput "JPEG_Q_FACTOR") s in
  if negb (ok (enc_quality_status env)) then
    encoder_error true (enc_quality_status env)
      (vcos_log_error "Unable to set JPEG quality" s)
  else
  let s := emit (EvComponentEnable Encoder) s in
  if negb (ok (enc_enable_status env)) then
    encoder_error true (enc_enable_status env)
      (vcos_log_error "Unable to enable video encoder component" s)
  else
  let s := emit (EvPoolCreate EncoderOutput buffer_num buffer_size) s in
  let s :=
    if enc_pool env then s
    else
      vcos_log_error
        "Failed to create buffer header pool for encoder output port %s" s in
  let s := update (set_encoder_pool (enc_pool env)) s in
  let s := update (set_encoder_component true) s in
  Status (enc_enable_status env) s.

Definition destroy_encoder_component (s : sys) : step :=
  let pooled :=
    if encoder_pool (state s) then
      if encoder_component (state s)
      then Done (emit (EvPoolDestroy EncoderOutput) s)
      else Stopped s
    else Done s in
  match pooled with
  | Stopped s => Stopped s
  | Done s =>
      if encoder_component (state s) then
        Done (update (set_encoder_component false)
                (emit (EvComponentDestroy Encoder) s))
      else Done s
  end.

(** [connect_ports], for the connection it is to store in the state. *)
Definition connect_ports (env : oracle) (c : connection) (s : sys) : result :=
  let s := emit (EvConnectionCreate c) s in
  let s := update (set_connection c (conn_created env c)) s in
  if ok (conn_create_status env c) then
    if negb (conn_created env c) then Fault s
    else
      let s := emit (EvConnectionEnable c) s in
      if ok (conn_enable_status env c) then
        Status (conn_enable_status env c) s
      else
        Status (conn_enable_status env c) (emit (EvConnectionDestroy c) s)
  else Status (conn_create_status env c) s.

(** [raspipreview_create] and [raspipreview_destroy] belong to another
    file: they are calls with an answer. *)
Definition raspipreview_create (env : oracle) (s : sys) : sys :=
  update (set_preview_component (preview_created env)) (emit EvPreviewCreate s).

Definition raspipreview_destroy (env : oracle) (s : sys) : sys :=
  update (set_preview_component (preview_destroy_leaves env))
    (emit EvPreviewDestroy s).

(** [check_disable_port] on the camera's video port; [port] says whether
    the pointer is set. *)
Definition check_disable_video_port (port : bool) (s : sys) : sys :=
  if port && video_enabled s
  then set_video_enabled false (emit (EvPortDisable CameraVideo) s)
  else s.

(** What [main] does from its [error:] label on.  [ports] says whether the
    port pointers have been set; the encoder's output port is not enabled
    before the capture loop, so [check_disable_port] leaves it alone. *)
Definition shut_down (env : oracle) (ports : bool) (exit_code : Z) (s : sys)
    : run :=
  let s := check_disable_video_port ports s in
  let s :=
    if preview_connection (state s)
    then emit (EvConnectionDestroy PreviewConnection) s else s in
  let s :=
    if encoder_connection (state s)
    then emit (EvConnectionDestroy EncoderConnection) s else s in
  let s :=
    if encoder_component (state s)
    then emit (EvComponentDisable Encoder) s else s in
  let s :=
    if preview_component (state s)
    then emit (EvComponentDisable Preview) s else s in
  let s :=
    if camera_component (state s)
    then emit (EvComponentDisable Camera) s else s in
  match destroy_encoder_component s with
  | Stopped s => Crash s
  | Done s =>
      Exit exit_code (destroy_camera_component (raspipreview_destroy env s))
  end.

(** [main], from its first line to the capture loop or to its return. *)
Definition main (env : oracle) : run :=
  match default_status env power_on with
  | Stopped s => Crash s
  | Done s =>
  match create_camera_component env s with
  | Fault s => Crash s
  | Status status s =>
  if negb (ok status) then
    shut_down env false EX_SOFTWARE
      (vcos_log_error "main: Failed to create camera component" s)
  else
  let s := raspipreview_create env s in
  if negb (ok (preview_create_status env)) then
    let s := vcos_log_error "main: Failed to create preview component" s in
    shut_down env false EX_SOFTWARE (destroy_camera_component s)
  else
  match create_encoder_component env s with
  | Fault s => Crash s
  | Status status s =>
  if negb (ok status) then
    let s := vcos_log_error "main: Failed to create encode component" s in
    let s := raspipreview_destroy env s in
    shut_down env false EX_SOFTWARE (destroy_camera_component s)
  else if negb (preview_component (state s)) then Crash s
  else
  match connect_ports env PreviewConnection s with
  | Fault s => Crash s
  | Status status s =>
  if negb (ok status) then shut_down env true EX_OK s
  else
  match connect_ports env EncoderConnection s with
  | Fault s => Crash s
  | Status status s =>
  if negb (ok status) then
    shut_down env true EX_OK
      (vcos_log_error
         "main: Failed to connect camera video port to encoder input" s)
  else
    let s := emit EvSemaphoreCreate s in
    let s := emit (EvParameter CameraVideo "CAPTURE") s in
    CaptureLoop s
  end end end end end.

(** [main] has created its three components and stands, in [s], before its
    first call of [connect_ports]. *)
Definition connection_stage (env : oracle) (s : sys) : Prop :=
  exists s0 s1,
    default_status env power_on = Done s0
    /\ create_camera_component env s0 = Status MMAL_SUCCESS s1
    /\ preview_create_status env = MMAL_SUCCESS
    /\ create_encoder_component env (raspipreview_create env s1)
       = Status MMAL_SUCCESS s
    /\ preview_component (state s) = true.

End Codes.

(** An environment in which every call succeeds with status 0 and every
    pointer is set, except that the camera component is enabled with status
    [cam_enable], the encoder component with [enc_enable], and the
    connections with the statuses [conn_enable] gives. *)
Definition smooth (cam_enable enc_enable : Z) (conn_enable : connection -> Z)
    : oracle :=
  {| info_create_status := 0; info_created := true;
     info_first_get_status := 1; info_second_get_status := 0;
     info_num_cameras := 1; info_camera_name := "imx219";
     preview_defaults := (1024, 768, false);
     cam_create_status := 0; cam_created := true;
     cam_select_status := 0; cam_output_num := 3; cam_sensor_status := 0;
     cam_settings_status := 0; cam_control_enable_status := 0;
     preview_commit_status := 0;
     video_commit_status := 0; video_commit_adjust := fun n size => (n, size);
     still_commit_status := 0;
     video_pool := Some 4;
     cam_enable_status := cam_enable; video_enable_status := 0;
     video_buffer := fun _ => true; video_send_status := fun _ => 0;
     preview_create_status := 0; preview_created := true;
     preview_destroy_leaves := false;
     enc_create_status := 0; enc_created := true;
     enc_input_num := 1; enc_output_num := 1;
     enc_size_recommended := 81920; enc_size_min := 2048;
     enc_num_recommended := 1; enc_num_min := 1;
     enc_commit_status := 0; enc_quality_status := 0;
     enc_enable_status := enc_enable;
     enc_pool := true;
     conn_create_status := fun _ => 0; conn_created := fun _ => true;
     conn_enable_status := conn_enable;
     capture_status := 0 |}.

(** The macro [VCOS_ALIGN_UP(p, n)] for the concrete runs: [p] rounded up
    to a multiple of [n]. *)
Definition align_up (p n : Z) : Z := (p + n - 1) / n * n.

End Startup.

(** * Properties *)

(** ** Integer conversions *)
Section IntFacts.
Import CInt.

Lemma wrap32_id (x : Z) : INT_MIN <= x <= INT_MAX -> wrap32 x = x.
Proof.
  unfold wrap32, wrap, INT_MIN, INT_MAX. intros Hx.
  change (2 ^ (32 - 1)) with 2147483648. change (2 ^ 32) with 4294967296.
  change (2 ^ 31) with 2147483648 in Hx.
  rewrite Z.mod_small by lia. lia.
Qed.

Lemma wrap64_id (x : Z) : - 2 ^ 63 <= x < 2 ^ 63 -> wrap64 x = x.
Proof.
  unfold wrap64, wrap. intros Hx.
  change (2 ^ (64 - 1)) with 9223372036854775808.
  change (2 ^ 64) with 18446744073709551616.
  change (2 ^ 63) with 9223372036854775808 in Hx.
  rewrite Z.mod_small by lia. lia.
Qed.

Lemma to_u32_id (x : Z) : 0 <= x < 2 ^ 32 -> to_u32 x = x.
Proof. intros Hx. unfold to_u32. apply Z.mod_small. exact Hx. Qed.

Lemma to_u64_id (x : Z) : 0 <= x < 2 ^ 64 -> to_u64 x = x.
Proof. intros Hx. unfold to_u64. apply Z.mod_small. exact Hx. Qed.

End IntFacts.

Ltac int_range :=
  unfold CInt.INT_MIN, CInt.INT_MAX in *;
  change (2 ^ 31) with 2147483648 in *;
  change (2 ^ 32) with 4294967296 in *;
  change (2 ^ 50) with 1125899906842624 in *;
  change (2 ^ 62) with 4611686018427387904 in *;
  change (2 ^ 63) with 9223372036854775808 in *;
  change (2 ^ 64) with 18446744073709551616 in *;
  lia.

Section FrameAdvanceFacts.
Import CInt FrameAdvance.

Lemma arm_deadline_fields (state : RASPISTILL_STATE) (t : Z) (m : machine) :
  next_frame_ms (arm_deadline state t m) = next_frame_ms m
  /\ frame (arm_deadline state t m) = frame m
  /\ clock_us (arm_deadline state t m) = clock_us m
  /\ stdin (arm_deadline state t m) = stdin m
  /\ sigwait_results (arm_deadline state t m) = sigwait_results m
  /\ trace (arm_deadline state t m) = trace m.
Proof. unfold arm_deadline. destruct (complete_time m =? -1); simpl; tauto. Qed.

(** The skip branch of the timelapse case, in general. *)
Lemma timelapse_case_skip (state : RASPISTILL_STATE) (now kr : Z) (m : machine) :
  let late := now - next_frame_ms m in
  let nskip := 1 + late / timelapse state in
  next_frame_ms m <> -1 ->
  - 2 ^ 62 <= next_frame_ms m < 2 ^ 62 ->
  0 < timelapse state ->
  0 < late ->
  timelapse state / 2 <= late ->
  late + 2 * timelapse state <= INT_MAX ->
  INT_MIN <= frame m -> frame m + 1 + nskip <= INT_MAX ->
  timelapse_case state now kr m =
    Returned kr
      {| complete_time := complete_time m;
         next_frame_ms := next_frame_ms m + (nskip + 1) * timelapse state;
         frame := frame m + 1 + nskip;
         clock_us := clock_us m + 1000 * (nskip * timelapse state - late);
         stdin := stdin m;
         sigwait_results := sigwait_results m;
         trace := trace m ++ [EvLogSkip (frame m + 1) (frame m + 1 + nskip);
                              EvSleep (nskip * timelapse state - late)] |}.
Proof.
  intros late nskip Hinit Hnext Hpos Hl0 Hhalf Hbig Hf1 Hf2.
  destruct m as [ct nf fr clk inp sg tr]. simpl in *.
  set (T := timelapse state) in *.
  assert (Hq : 0 <= late / T) by (apply Z.div_pos; lia).
  assert (Hlo : T * (late / T) <= late) by (apply Z.mul_div_le; lia).
  assert (Hhi : late < T * Z.succ (late / T)) by (apply Z.mul_succ_div_gt; lia).
  assert (Hd : nf - now = - late) by (subst late; lia).
  set (q := late / T) in *.
  assert (Hns : nskip = 1 + q) by reflexivity.
  assert (Hh2 : T ÷ 2 = T / 2) by (apply Z.quot_div_nonneg; lia).
  assert (Hq2 : late ÷ T = q) by (apply Z.quot_div_nonneg; lia).
  assert (Hmul : (1 + q) * T = T * q + T) by ring.
  assert (Hmul2 : (1 + q + 1) * T = T * q + 2 * T) by ring.
  clearbody nskip q late. subst nskip.
  unfold timelapse_case, add_frame, vcos_sleep, emit, set_next_frame_ms,
    set_frame. simpl. fold T.
  destruct (Z.eqb_spec nf (-1)) as [|_]; [contradiction|].
  rewrite Hd. rewrite (wrap64_id (- late)) by int_range.
  rewrite Z.opp_involutive. rewrite (wrap64_id late) by int_range.
  rewrite Hh2, Hq2. clear Hh2 Hq2.
  destruct (Z.ltb_spec (- late) 0) as [_|Hge]; [|lia].
  assert (Hhalf0 : 0 <= T / 2 <= T) by (clear -Hpos; Z.div_mod_to_equations; lia).
  rewrite (wrap32_id (T / 2)) by int_range.
  destruct (Z.ltb_spec late (T / 2)) as [Hlt|_]; [lia|].
  destruct (Z.eqb_spec T 0) as [Hz|_]; [lia|].
  rewrite (wrap64_id q) by int_range.
  rewrite (wrap64_id (1 + q)) by int_range.
  rewrite (wrap32_id (1 + q)) by int_range.
  rewrite (wrap32_id (fr + 1)) by int_range.
  rewrite (wrap32_id (fr + 1 + (1 + q))) by int_range.
  rewrite (wrap32_id (1 + q + 1)) by int_range.
  rewrite Hmul, Hmul2.
  rewrite (wrap32_id (T * q + T)) by int_range.
  rewrite (wrap32_id (T * q + 2 * T)) by int_range.
  rewrite (wrap64_id (- late + _)) by int_range.
  rewrite (wrap64_id (nf + _)) by int_range.
  rewrite (to_u32_id (- late + _)) by int_range.
  rewrite <- app_assoc. simpl.
  repeat f_equal; lia.
Qed.

Lemma now_ms_range (m : machine) : 0 <= now_ms m < 2 ^ 62.
Proof.
  unfold now_ms, vcos_getmicrosecs64, to_u64.
  assert (H : 0 <= clock_us m mod 2 ^ 64 < 2 ^ 64)
    by (apply Z.mod_pos_bound; reflexivity).
  revert H. generalize (clock_us m mod 2 ^ 64). intros c Hc.
  assert (Hd : 0 <= c / 1000 <= c) by (Z.div_mod_to_equations; lia).
  assert (Hd' : c / 1000 < 2 ^ 62).
  { apply Z.div_lt_upper_bound; [lia|]. int_range. }
  rewrite wrap64_id by int_range. lia.
Qed.

Lemma now_ms_small (m : machine) :
  0 <= clock_us m < 2 ^ 64 -> now_ms m = clock_us m / 1000.
Proof.
  intros Hc. pose proof (now_ms_range m) as Hr. revert Hr.
  unfold now_ms, vcos_getmicrosecs64. rewrite to_u64_id by exact Hc.
  intros Hr.
  assert (Hd : 0 <= clock_us m / 1000 <= clock_us m)
    by (Z.div_mod_to_equations; lia).
  assert (Hd' : clock_us m / 1000 < 2 ^ 62).
  { apply Z.div_lt_upper_bound; [lia|]. int_range. }
  apply wrap64_id. int_range.
Qed.

(** The first tick. *)
Lemma timelapse_case_first (state : RASPISTILL_STATE) (now kr : Z) (m : machine) :
  next_frame_ms m = -1 ->
  0 <= timelapse state <= INT_MAX ->
  0 <= clock_us m < 2 ^ 62 ->
  INT_MIN <= frame m < INT_MAX ->
  timelapse_case state now kr m =
    Returned kr
      {| complete_time := complete_time m;
         next_frame_ms := clock_us m / 1000 + 2 * timelapse state;
         frame := frame m + 1;
         clock_us := clock_us m + 1000 * timelapse state;
         stdin := stdin m;
         sigwait_results := sigwait_results m;
         trace := trace m ++ [EvSleep (timelapse state)] |}.
Proof.
  intros Hnext HT Hclk Hfr.
  destruct m as [ct nf fr clk inp sg tr]. simpl in *. subst nf.
  set (T := timelapse state) in *.
  unfold timelapse_case, add_frame, vcos_sleep, emit, set_next_frame_ms,
    set_frame. simpl. fold T.
  rewrite (to_u32_id T) by int_range.
  rewrite (wrap32_id (fr + 1)) by int_range.
  rewrite now_ms_small by (simpl; int_range). simpl.
  replace (clk + 1000 * T) with (T * 1000 + clk) by ring.
  rewrite Z.div_add_l by lia.
  assert (Hd : 0 <= clk / 1000 <= clk) by (Z.div_mod_to_equations; lia).
  rewrite wrap64_id by int_range.
  f_equal. f_equal; lia.
Qed.

(** A tick that is on time. *)
Lemma timelapse_case_on_time (state : RASPISTILL_STATE) (now kr : Z)
    (m : machine) :
  let wait := next_frame_ms m - now in
  next_frame_ms m <> -1 ->
  - 2 ^ 62 <= next_frame_ms m < 2 ^ 62 ->
  INT_MIN <= timelapse state <= INT_MAX ->
  0 <= wait < 2 ^ 32 ->
  INT_MIN <= frame m < INT_MAX ->
  timelapse_case state now kr m =
    Returned kr
      {| complete_time := complete_time m;
         next_frame_ms := next_frame_ms m + timelapse state;
         frame := frame m + 1;
         clock_us := clock_us m + 1000 * wait;
         stdin := stdin m;
         sigwait_results := sigwait_results m;
         trace := trace m ++ [EvSleep wait] |}.
Proof.
  intros wait Hinit Hnext HT Hwait Hfr.
  destruct m as [ct nf fr clk inp sg tr]. simpl in *.
  unfold timelapse_case, add_frame, vcos_sleep, emit, set_next_frame_ms,
    set_frame. simpl.
  destruct (Z.eqb_spec nf (-1)) as [|_]; [contradiction|].
  fold wait. clearbody wait.
  rewrite (wrap64_id wait) by int_range.
  destruct (Z.ltb_spec wait 0) as [|_]; [lia|].
  rewrite (to_u32_id wait) by int_range.
  rewrite (wrap32_id (fr + 1)) by int_range.
  rewrite wrap64_id by int_range.
  reflexivity.
Qed.

(** A tick that is late by less than half the interval. *)
Lemma timelapse_case_late (state : RASPISTILL_STATE) (now kr : Z)
    (m : machine) :
  let late := now - next_frame_ms m in
  next_frame_ms m <> -1 ->
  - 2 ^ 62 <= next_frame_ms m < 2 ^ 62 ->
  0 <= timelapse state <= INT_MAX ->
  0 < late < timelapse state / 2 ->
  INT_MIN <= frame m < INT_MAX ->
  timelapse_case state now kr m =
    Returned kr
      {| complete_time := complete_time m;
         next_frame_ms := next_frame_ms m + timelapse state;
         frame := frame m + 1;
         clock_us := clock_us m;
         stdin := stdin m;
         sigwait_results := sigwait_results m;
         trace := trace m ++ [EvLogLate (frame m + 1) late] |}.
Proof.
  intros late Hinit Hnext HT Hlate Hfr.
  destruct m as [ct nf fr clk inp sg tr]. simpl in *.
  set (T := timelapse state) in *.
  assert (Hd : nf - now = - late) by (subst late; lia).
  assert (Hh2 : T ÷ 2 = T / 2) by (apply Z.quot_div_nonneg; lia).
  assert (Hhalf0 : 0 <= T / 2 <= T) by (clear -HT; Z.div_mod_to_equations; lia).
  clearbody late.
  unfold timelapse_case, add_frame, vcos_sleep, emit, set_next_frame_ms,
    set_frame. simpl. fold T.
  destruct (Z.eqb_spec nf (-1)) as [|_]; [contradiction|].
  rewrite Hd, Hh2. clear Hh2.
  rewrite (wrap64_id (- late)) by int_range.
  rewrite Z.opp_involutive. rewrite (wrap64_id late) by int_range.
  destruct (Z.ltb_spec (- late) 0) as [_|]; [|lia].
  rewrite (wrap32_id (T / 2)) by int_range.
  destruct (Z.ltb_spec late (T / 2)) as [_|]; [|lia].
  rewrite (wrap32_id (fr + 1)) by int_range.
  rewrite (wrap32_id late) by int_range.
  rewrite wrap64_id by int_range.
  reflexivity.
Qed.

(** The timelapse case returns whenever the interval is not zero. *)
Lemma timelapse_case_returns (state : RASPISTILL_STATE) (now kr : Z)
    (m : machine) :
  timelapse state <> 0 ->
  exists m', timelapse_case state now kr m = Returned kr m'.
Proof.
  intros HT. unfold timelapse_case.
  repeat match goal with
         | |- context [if ?b then _ else _] => destruct b eqn:?
         end; try (eexists; reflexivity).
  match goal with
  | H : (timelapse state =? 0) = true |- _ => apply Z.eqb_eq in H; contradiction
  end.
Qed.

Lemma wait_timelapse (state : RASPISTILL_STATE) (m : machine) :
  frameNextMethod state = FRAME_NEXT_TIMELAPSE ->
  wait_for_next_frame state m =
    timelapse_case state (now_ms m)
      (keep_running_of state (now_ms m) (arm_deadline state (now_ms m) m))
      (arm_deadline state (now_ms m) m).
Proof. intros Hm. unfold wait_for_next_frame. rewrite Hm. reflexivity. Qed.

Lemma elapse_zero (m : machine) : elapse 0 m = m.
Proof. destruct m. unfold elapse. simpl. f_equal. lia. Qed.

(** A tick that is on time, seen from the caller. *)
Lemma wait_on_time (state : RASPISTILL_STATE) (m : machine) :
  frameNextMethod state = FRAME_NEXT_TIMELAPSE ->
  INT_MIN <= timelapse state <= INT_MAX ->
  now_ms m <= next_frame_ms m < 2 ^ 62 ->
  next_frame_ms m - now_ms m < 2 ^ 32 ->
  INT_MIN <= frame m < INT_MAX ->
  exists r ct,
    wait_for_next_frame state m =
      Returned r
        {| complete_time := ct;
           next_frame_ms := next_frame_ms m + timelapse state;
           frame := frame m + 1;
           clock_us := clock_us m + 1000 * (next_frame_ms m - now_ms m);
           stdin := stdin m;
           sigwait_results := sigwait_results m;
           trace := trace m ++ [EvSleep (next_frame_ms m - now_ms m)] |}.
Proof.
  intros Hm HT Hnext Hwait Hfr.
  pose proof (now_ms_range m) as Hnow.
  destruct (arm_deadline_fields state (now_ms m) m)
    as (E1 & E2 & E3 & E4 & E5 & E6).
  rewrite (wait_timelapse _ _ Hm).
  eexists _, _.
  rewrite timelapse_case_on_time; rewrite ?E1, ?E2, ?E3, ?E4, ?E5, ?E6;
    try reflexivity; try int_range.
Qed.

(** Ticks with no processing time between them, from a deadline that has
    not passed. *)
Lemma ticks_steady (state : RASPISTILL_STATE) (n : nat) :
  frameNextMethod state = FRAME_NEXT_TIMELAPSE ->
  0 < timelapse state < 2 ^ 31 ->
  forall m : machine,
    0 <= clock_us m < 2 ^ 64 ->
    now_ms m <= next_frame_ms m ->
    next_frame_ms m - now_ms m < 2 ^ 32 ->
    next_frame_ms m + Z.of_nat n * timelapse state < 2 ^ 50 ->
    INT_MIN <= frame m -> frame m + Z.of_nat n <= INT_MAX ->
    exists rs m',
      ticks state (repeat 0 n) m = Some (rs, m')
      /\ next_frame_ms m' = next_frame_ms m + Z.of_nat n * timelapse state
      /\ frame m' = frame m + Z.of_nat n
      /\ (n <> O -> now_ms m' = next_frame_ms m' - timelapse state)
      /\ trace m' =
           trace m ++
           match n with
           | O => []
           | S k => EvSleep (next_frame_ms m - now_ms m)
                    :: repeat (EvSleep (timelapse state)) k
           end.
Proof.
  intros Hm HT. set (T := timelapse state) in *.
  induction n as [|n IH]; intros m Hclk Hnow Hwait Hnext Hf1 Hf2.
  - exists [], m. simpl. rewrite app_nil_r. repeat split; lia.
  - pose proof (now_ms_range m) as Hr.
    assert (HnT : 0 <= Z.of_nat n * T) by nia.
    assert (HS : Z.of_nat (S n) * T = Z.of_nat n * T + T) by lia.
    rewrite HS in *.
    destruct (wait_on_time state m Hm) as (r & ct & Hw); fold T;
      try int_range.
    fold T in Hw.
    assert (Hn0 : now_ms m = clock_us m / 1000)
      by (apply now_ms_small; exact Hclk).
    assert (Hc1 : 1000 * (clock_us m / 1000) <= clock_us m
                  < 1000 * (clock_us m / 1000 + 1))
      by (Z.div_mod_to_equations; lia).
    remember (next_frame_ms m - now_ms m) as w eqn:Ew.
    match type of Hw with _ = Returned _ ?x => remember x as m1 eqn:Em1 end.
    assert (F : next_frame_ms m1 = next_frame_ms m + T
                /\ frame m1 = frame m + 1
                /\ clock_us m1 = clock_us m + w * 1000
                /\ trace m1 = trace m ++ [EvSleep w]).
    { subst m1. simpl. repeat split. lia. }
    destruct F as (F1 & F2 & F3 & F4).
    assert (Hclk1 : 0 <= clock_us m1 < 2 ^ 64) by int_range.
    assert (Hnow1 : now_ms m1 = next_frame_ms m).
    { rewrite now_ms_small by exact Hclk1.
      rewrite F3, Z.div_add by lia. lia. }
    destruct (IH m1) as (rs & m' & Ht & En & Ef & Eno & Etr);
      try int_range.
    exists (r :: rs), m'. simpl. rewrite Hw, elapse_zero, Ht.
    split; [reflexivity|].
    split; [lia|].
    split; [lia|].
    split.
    + intros _. destruct n as [|k].
      * simpl in Ht. injection Ht as _ <-. lia.
      * apply Eno. discriminate.
    + rewrite Etr, F4, Hnow1, F1.
      rewrite <- app_assoc. simpl. f_equal. f_equal.
      replace (next_frame_ms m + T - next_frame_ms m) with T by lia.
      destruct n; reflexivity.
Qed.

(** The skip branch, seen from the caller. *)
Lemma wait_skip (state : RASPISTILL_STATE) (m : machine) :
  let late := now_ms m - next_frame_ms m in
  let nskip := 1 + late / timelapse state in
  frameNextMethod state = FRAME_NEXT_TIMELAPSE ->
  next_frame_ms m <> -1 ->
  - 2 ^ 62 <= next_frame_ms m < 2 ^ 62 ->
  0 < timelapse state ->
  0 < late ->
  timelapse state / 2 <= late ->
  late + 2 * timelapse state <= INT_MAX ->
  INT_MIN <= frame m -> frame m + 1 + nskip <= INT_MAX ->
  exists r ct,
    wait_for_next_frame state m =
      Returned r
        {| complete_time := ct;
           next_frame_ms := next_frame_ms m + (nskip + 1) * timelapse state;
           frame := frame m + 1 + nskip;
           clock_us := clock_us m + 1000 * (nskip * timelapse state - late);
           stdin := stdin m;
           sigwait_results := sigwait_results m;
           trace := trace m ++ [EvLogSkip (frame m + 1) (frame m + 1 + nskip);
                                EvSleep (nskip * timelapse state - late)] |}.
Proof.
  intros late nskip Hm Hinit Hnext HT Hl0 Hhalf Hbig Hf1 Hf2.
  destruct (arm_deadline_fields state (now_ms m) m)
    as (E1 & E2 & E3 & E4 & E5 & E6).
  rewrite (wait_timelapse _ _ Hm).
  eexists _, _.
  rewrite timelapse_case_skip; rewrite ?E1, ?E2, ?E3, ?E4, ?E5, ?E6;
    try reflexivity; assumption.
Qed.

(** C2: in TIMELAPSE mode with an interval of 1000 ms, a tick that is not
    the first and comes 1500 ms after the deadline skips 2 frames (the
    counter goes up by 1 + 2), sleeps the remaining 500 ms and moves the
    deadline on by (2 + 1) * 1000 ms; a tick late by exactly half the
    interval, 500 ms, takes the skip branch as well (it skips 1 frame). *)
Theorem C2_timelapse_catch_up (state : RASPISTILL_STATE) (m : machine) :
  frameNextMethod state = FRAME_NEXT_TIMELAPSE ->
  timelapse state = 1000 ->
  next_frame_ms m <> -1 ->
  - 2 ^ 62 <= next_frame_ms m < 2 ^ 62 ->
  INT_MIN <= frame m -> frame m + 3 <= INT_MAX ->
  (now_ms m = next_frame_ms m + 1500 ->
   exists r m',
     wait_for_next_frame state m = Returned r m'
     /\ frame m' = frame m + 1 + 2
     /\ next_frame_ms m' = next_frame_ms m + (2 + 1) * 1000
     /\ trace m' = trace m ++ [EvLogSkip (frame m + 1) (frame m + 1 + 2);
                               EvSleep 500])
  /\ (now_ms m = next_frame_ms m + 500 ->
      exists r m',
        wait_for_next_frame state m = Returned r m'
        /\ frame m' = frame m + 1 + 1
        /\ next_frame_ms m' = next_frame_ms m + (1 + 1) * 1000
        /\ trace m' = trace m ++ [EvLogSkip (frame m + 1) (frame m + 1 + 1);
                                  EvSleep 500]).
Proof.
  intros Hm HT Hinit Hnext Hf1 Hf2. split; intros Hnow.
  - pose proof (wait_skip state m) as H. cbv zeta in H.
    rewrite HT, Hnow in H.
    replace (next_frame_ms m + 1500 - next_frame_ms m) with 1500 in H by lia.
    change (1500 / 1000) with 1 in H. change (1000 / 2) with 500 in H.
    destruct H as (r & ct & H); try assumption; try int_range.
    eexists _, _. split; [exact H|]. simpl. repeat split.
  - pose proof (wait_skip state m) as H. cbv zeta in H.
    rewrite HT, Hnow in H.
    replace (next_frame_ms m + 500 - next_frame_ms m) with 500 in H by lia.
    change (500 / 1000) with 0 in H. change (1000 / 2) with 500 in H.
    destruct H as (r & ct & H); try assumption; try int_range.
    eexists _, _. split; [exact H|]. simpl. repeat split.
Qed.

(** The first tick, seen from the caller. *)
Lemma wait_first (state : RASPISTILL_STATE) (m : machine) :
  frameNextMethod state = FRAME_NEXT_TIMELAPSE ->
  next_frame_ms m = -1 ->
  0 <= timelapse state <= INT_MAX ->
  0 <= clock_us m < 2 ^ 62 ->
  INT_MIN <= frame m < INT_MAX ->
  exists r ct,
    wait_for_next_frame state m =
      Returned r
        {| complete_time := ct;
           next_frame_ms := now_ms m + 2 * timelapse state;
           frame := frame m + 1;
           clock_us := clock_us m + 1000 * timelapse state;
           stdin := stdin m;
           sigwait_results := sigwait_results m;
           trace := trace m ++ [EvSleep (timelapse state)] |}.
Proof.
  intros Hm Hinit HT Hclk Hfr.
  destruct (arm_deadline_fields state (now_ms m) m)
    as (E1 & E2 & E3 & E4 & E5 & E6).
  rewrite (wait_timelapse _ _ Hm).
  eexists _, _.
  rewrite timelapse_case_first; rewrite ?E1, ?E2, ?E3, ?E4, ?E5, ?E6;
    try assumption.
  rewrite (now_ms_small m) by int_range. reflexivity.
Qed.

(** C6: in TIMELAPSE mode with an interval of 1000 ms, a tick that finds
    its deadline not yet passed sleeps exactly the time left to it and moves
    the deadline on by exactly one interval.  With no processing time
    between the ticks, 100 such ticks leave the deadline at exactly
    start + 100 * 1000, the last of them having woken exactly on the
    deadline before it; and 100 ticks counted from the very first call end
    exactly 100 * 1000 ms after that call, one interval before the deadline
    then in force. *)
Theorem C6_timelapse_steady_state (state : RASPISTILL_STATE) (m : machine) :
  frameNextMethod state = FRAME_NEXT_TIMELAPSE ->
  timelapse state = 1000 ->
  0 <= clock_us m < 2 ^ 50 ->
  INT_MIN <= frame m -> frame m + 100 <= INT_MAX ->
  (0 <= next_frame_ms m - now_ms m < 2 ^ 32 ->
   exists r m1,
     wait_for_next_frame state m = Returned r m1
     /\ trace m1 = trace m ++ [EvSleep (next_frame_ms m - now_ms m)]
     /\ next_frame_ms m1 = next_frame_ms m + 1000)
  /\ (0 <= next_frame_ms m - now_ms m < 2 ^ 32 ->
      exists rs m',
        ticks state (repeat 0 100%nat) m = Some (rs, m')
        /\ next_frame_ms m' - (next_frame_ms m + 100 * 1000) = 0
        /\ now_ms m' = next_frame_ms m + 99 * 1000
        /\ trace m' = trace m ++ EvSleep (next_frame_ms m - now_ms m)
                                 :: repeat (EvSleep 1000) 99)
  /\ (next_frame_ms m = -1 ->
      exists rs m',
        ticks state (repeat 0 100%nat) m = Some (rs, m')
        /\ now_ms m' - (now_ms m + 100 * 1000) = 0
        /\ next_frame_ms m' = now_ms m' + 1000
        /\ trace m' = trace m ++ repeat (EvSleep 1000) 100).
Proof.
  intros Hm HT Hclk Hf1 Hf2.
  pose proof (now_ms_range m) as Hr.
  assert (Hms : 1000 * now_ms m <= clock_us m).
  { rewrite (now_ms_small m) by int_range.
    Z.div_mod_to_equations; lia. }
  split; [|split].
  - intros Hnext.
    destruct (wait_on_time state m Hm) as (r & ct & Hw);
      rewrite ?HT; try int_range.
    rewrite HT in Hw. eexists _, _. split; [exact Hw|]. simpl. split; reflexivity.
  - intros Hnext.
    destruct (ticks_steady state 100 Hm) with (m := m)
      as (rs & m' & Ht & En & Ef & Eno & Etr);
      rewrite ?HT; try int_range.
    rewrite HT in *. exists rs, m'. split; [exact Ht|].
    split; [lia|]. split; [|exact Etr].
    rewrite Eno by discriminate. lia.
  - intros Hinit.
    destruct (wait_first state m Hm Hinit) as (r & ct & Hw);
      rewrite ?HT; try int_range.
    rewrite HT in Hw.
    match type of Hw with _ = Returned _ ?x => remember x as m1 eqn:Em1 end.
    assert (F : next_frame_ms m1 = now_ms m + 2 * 1000
                /\ frame m1 = frame m + 1
                /\ clock_us m1 = clock_us m + 1000 * 1000
                /\ trace m1 = trace m ++ [EvSleep 1000]).
    { subst m1. simpl. repeat split. }
    destruct F as (F1 & F2 & F3 & F4).
    assert (Hn0 : now_ms m = clock_us m / 1000)
      by (apply now_ms_small; int_range).
    assert (Hc1 : 1000 * (clock_us m / 1000) <= clock_us m)
      by (Z.div_mod_to_equations; lia).
    assert (Hnow1 : now_ms m1 = now_ms m + 1000).
    { rewrite now_ms_small by int_range.
      rewrite F3, Z.div_add by lia. lia. }
    destruct (ticks_steady state 99 Hm) with (m := m1)
      as (rs & m' & Ht & En & Ef & Eno & Etr);
      rewrite ?HT; try int_range.
    rewrite HT in *. exists (r :: rs), m'.
    change (repeat 0 100%nat) with (0 :: repeat 0 99%nat).
    cbn [ticks]. rewrite Hw, elapse_zero, Ht.
    split; [reflexivity|].
    rewrite Eno by discriminate.
    split; [lia|]. split; [lia|].
    rewrite Etr, F4, F1, Hnow1. rewrite <- app_assoc.
    replace (now_ms m + 2 * 1000 - (now_ms m + 1000)) with 1000 by lia.
    reflexivity.
Qed.

(** The dispatch of [wait_for_next_frame], one method at a time. *)
Lemma wait_dispatch (state : RASPISTILL_STATE) (m : machine) :
  let now := now_ms m in
  let a := arm_deadline state now m in
  let kr := keep_running_of state now a in
  let method := frameNextMethod state in
  (method = FRAME_NEXT_SINGLE ->
   wait_for_next_frame state m = Returned 0 (vcos_sleep 5000 a))
  /\ (method = FRAME_NEXT_FOREVER ->
      wait_for_next_frame state m = Returned 1 (vcos_sleep 10000 (add_frame 1 a)))
  /\ (method = FRAME_NEXT_KEYPRESS ->
      wait_for_next_frame state m = keypress_case state kr a)
  /\ (method = FRAME_NEXT_IMMEDIATELY ->
      wait_for_next_frame state m = immediately_case kr a)
  /\ (method = FRAME_NEXT_GPIO ->
      wait_for_next_frame state m = Returned 0 a)
  /\ (method = FRAME_NEXT_SIGNAL ->
      wait_for_next_frame state m = signal_case state kr a)
  /\ (method < 0 \/ 6 < method ->
      wait_for_next_frame state m = Returned kr a).
Proof.
  cbv zeta. unfold wait_for_next_frame.
  repeat split; intros H; try (rewrite H; reflexivity).
  unfold FRAME_NEXT_SINGLE, FRAME_NEXT_FOREVER, FRAME_NEXT_TIMELAPSE,
    FRAME_NEXT_KEYPRESS, FRAME_NEXT_IMMEDIATELY, FRAME_NEXT_GPIO,
    FRAME_NEXT_SIGNAL.
  repeat match goal with
         | |- context [frameNextMethod state =? ?k] =>
             destruct (Z.eqb_spec (frameNextMethod state) k); [lia|]
         end.
  reflexivity.
Qed.

Lemma keep_running_expired (state : RASPISTILL_STATE) (m : machine) :
  timeout state <> 0 ->
  deadline state m <= now_ms m ->
  keep_running_of state (now_ms m) (arm_deadline state (now_ms m) m) = 0.
Proof.
  unfold deadline, keep_running_of. intros Ht Hd.
  destruct (Z.leb_spec (complete_time (arm_deadline state (now_ms m) m))
              (now_ms m)); [|lia].
  destruct (Z.eqb_spec (timeout state) 0); [contradiction|]. reflexivity.
Qed.

Lemma keypress_case_result (state : RASPISTILL_STATE) (kr : Z) (m : machine) :
  exists r m',
    keypress_case state kr m = Returned r m'
    /\ (r = 0 \/ r = kr)
    /\ frame m' = wrap32 (frame m + 1).
Proof.
  unfold keypress_case, getchar.
  destruct (verbose state =? 0); destruct (stdin m) as [|c rest] eqn:E;
    simpl; rewrite ?E; simpl;
    try (destruct ((c =? 120) || (c =? 88)));
    eexists _, _; (split; [reflexivity|]); simpl; auto.
Qed.

Lemma immediately_case_result (kr : Z) (m : machine) :
  exists m',
    immediately_case kr m = Returned kr m'
    /\ frame m' = wrap32 (frame m + 1).
Proof.
  unfold immediately_case. destruct (frame m =? 0);
    eexists; (split; [reflexivity|]); reflexivity.
Qed.

Lemma signal_case_result (state : RASPISTILL_STATE) (kr : Z) (m : machine) :
  exists m',
    signal_case state kr m = Returned kr m'
    /\ frame m' = wrap32 (frame m + 1).
Proof.
  unfold signal_case, sigwait.
  destruct (verbose state =? 0); destruct (sigwait_results m) as [|c rest] eqn:E;
    simpl; rewrite ?E; simpl;
    try (destruct (c =? 0));
    eexists; (split; [reflexivity|]); reflexivity.
Qed.

(** C3 (amended): with the overall deadline enabled and reached, the call
    returns stop under every method, defined or not, except FOREVER, which
    returns continue all the same; in TIMELAPSE mode the interval is taken
    to be other than zero. *)
Theorem C3_deadline_stops_all_but_forever (state : RASPISTILL_STATE)
    (m : machine) :
  timeout state <> 0 ->
  deadline state m <= now_ms m ->
  (frameNextMethod state = FRAME_NEXT_TIMELAPSE -> timelapse state <> 0) ->
  result (wait_for_next_frame state m)
  = Some (if frameNextMethod state =? FRAME_NEXT_FOREVER then 1 else 0).
Proof.
  intros Ht Hd HT.
  pose proof (keep_running_expired state m Ht Hd) as Hkr.
  pose proof (wait_dispatch state m) as D. cbv zeta in D. rewrite Hkr in D.
  destruct D as (D0 & D3 & D2 & D6 & D4 & D5 & Dx).
  destruct (Z.eqb_spec (frameNextMethod state) FRAME_NEXT_FOREVER) as [E|NE].
  { rewrite (D3 E). reflexivity. }
  destruct (Z.eq_dec (frameNextMethod state) FRAME_NEXT_SINGLE) as [E|N0].
  { rewrite (D0 E). reflexivity. }
  destruct (Z.eq_dec (frameNextMethod state) FRAME_NEXT_TIMELAPSE) as [E|N1].
  { rewrite (wait_timelapse _ _ E), Hkr.
    destruct (timelapse_case_returns state (now_ms m) 0
                (arm_deadline state (now_ms m) m) (HT E)) as (m' & ->).
    reflexivity. }
  destruct (Z.eq_dec (frameNextMethod state) FRAME_NEXT_KEYPRESS) as [E|N2].
  { rewrite (D2 E).
    destruct (keypress_case_result state 0 (arm_deadline state (now_ms m) m))
      as (r & m' & -> & [-> | ->] & _); reflexivity. }
  destruct (Z.eq_dec (frameNextMethod state) FRAME_NEXT_IMMEDIATELY) as [E|N6].
  { rewrite (D6 E).
    destruct (immediately_case_result 0 (arm_deadline state (now_ms m) m))
      as (m' & -> & _). reflexivity. }
  destruct (Z.eq_dec (frameNextMethod state) FRAME_NEXT_GPIO) as [E|N4].
  { rewrite (D4 E). reflexivity. }
  destruct (Z.eq_dec (frameNextMethod state) FRAME_NEXT_SIGNAL) as [E|N5].
  { rewrite (D5 E).
    destruct (signal_case_result state 0 (arm_deadline state (now_ms m) m))
      as (m' & -> & _). reflexivity. }
  rewrite Dx; [reflexivity|].
  unfold FRAME_NEXT_SINGLE, FRAME_NEXT_FOREVER, FRAME_NEXT_TIMELAPSE,
    FRAME_NEXT_KEYPRESS, FRAME_NEXT_IMMEDIATELY, FRAME_NEXT_GPIO,
    FRAME_NEXT_SIGNAL in *. lia.
Qed.

(** C4 (amended): in GPIO mode every call returns stop (0); it does not
    wait, does not sleep and leaves the frame counter as it was: the clock
    and the trace are untouched, no character is read, no signal is waited
    for, and the timelapse deadline stays. *)
Theorem C4_gpio_returns_stop (state : RASPISTILL_STATE) (m : machine) :
  frameNextMethod state = FRAME_NEXT_GPIO ->
  exists m',
    wait_for_next_frame state m = Returned 0 m'
    /\ frame m' = frame m
    /\ clock_us m' = clock_us m
    /\ trace m' = trace m
    /\ stdin m' = stdin m
    /\ sigwait_results m' = sigwait_results m
    /\ next_frame_ms m' = next_frame_ms m.
Proof.
  intros Hm.
  destruct (wait_dispatch state m) as (_ & _ & _ & _ & D4 & _).
  destruct (arm_deadline_fields state (now_ms m) m)
    as (E1 & E2 & E3 & E4 & E5 & E6).
  eexists. split; [apply D4; exact Hm|]. repeat split; assumption.
Qed.

(** C10: a method code outside 0..6 takes no case of the dispatch: the call
    does not sleep or wait, leaves the frame counter alone, and returns
    stop when the overall deadline is enabled and reached, continue
    otherwise. *)
Theorem C10_unknown_method_falls_through (state : RASPISTILL_STATE)
    (m : machine) :
  frameNextMethod state < 0 \/ 6 < frameNextMethod state ->
  exists m',
    wait_for_next_frame state m =
      Returned (if (deadline state m <=? now_ms m)
                   && negb (timeout state =? 0) then 0 else 1) m'
    /\ frame m' = frame m
    /\ next_frame_ms m' = next_frame_ms m
    /\ clock_us m' = clock_us m
    /\ stdin m' = stdin m
    /\ sigwait_results m' = sigwait_results m
    /\ trace m' = trace m.
Proof.
  intros Hm.
  destruct (wait_dispatch state m) as (_ & _ & _ & _ & _ & _ & Dx).
  destruct (arm_deadline_fields state (now_ms m) m)
    as (E1 & E2 & E3 & E4 & E5 & E6).
  eexists. split; [apply Dx; exact Hm|]. auto 10.
Qed.

(** Outside the skip branch the timelapse case counts one frame. *)
Lemma timelapse_case_counts_one (state : RASPISTILL_STATE) (now kr : Z)
    (m : machine) :
  next_frame_ms m = -1
  \/ 0 <= wrap64 (next_frame_ms m - now)
  \/ wrap64 (- wrap64 (next_frame_ms m - now)) < wrap32 (timelapse state ÷ 2) ->
  frame <$> after (timelapse_case state now kr m) = Some (wrap32 (frame m + 1)).
Proof.
  intros H. unfold timelapse_case. simpl.
  destruct (Z.eqb_spec (next_frame_ms m) (-1)) as [E|NE]; [reflexivity|].
  destruct (Z.ltb_spec (wrap64 (next_frame_ms m - now)) 0) as [L|G];
    [|reflexivity].
  destruct (Z.ltb_spec (wrap64 (- wrap64 (next_frame_ms m - now)))
              (wrap32 (timelapse state ÷ 2))) as [L2|G2]; [reflexivity|].
  lia.
Qed.

(** C7 (amended): with the counter below [INT_MAX], one call adds exactly
    one to the frame counter under KEYPRESS, FOREVER, IMMEDIATE and SIGNAL,
    and leaves it unchanged under SINGLE and GPIO.  Under TIMELAPSE, with
    the stored deadline within 2^62 ms of zero and lateness = now - deadline:
    for an interval from 0 to [INT_MAX] it adds exactly one on the first
    tick, on a tick that is not late and on a tick whose lateness is less
    than interval / 2 as the code computes it, in integers and rounded down
    (at an interval of 1001 a lateness of 500 is not less); for a positive
    interval, when the lateness is positive and at least that integer half
    and neither lateness + 2 * interval nor the new counter passes
    [INT_MAX], it adds 1 + skip, where skip = 1 + lateness / interval,
    rounded down. *)
Theorem C7_frame_counter (state : RASPISTILL_STATE) (m : machine) :
  INT_MIN <= frame m < INT_MAX ->
  let method := frameNextMethod state in
  let late := now_ms m - next_frame_ms m in
  let counted := frame <$> after (wait_for_next_frame state m) in
  (method = FRAME_NEXT_KEYPRESS \/ method = FRAME_NEXT_FOREVER
   \/ method = FRAME_NEXT_IMMEDIATELY \/ method = FRAME_NEXT_SIGNAL ->
   counted = Some (frame m + 1))
  /\ (method = FRAME_NEXT_SINGLE \/ method = FRAME_NEXT_GPIO ->
      counted = Some (frame m))
  /\ (method = FRAME_NEXT_TIMELAPSE ->
      - 2 ^ 62 <= next_frame_ms m < 2 ^ 62 ->
      0 <= timelapse state <= INT_MAX ->
      next_frame_ms m = -1 \/ late <= 0 \/ late < timelapse state / 2 ->
      counted = Some (frame m + 1))
  /\ (method = FRAME_NEXT_TIMELAPSE ->
      next_frame_ms m <> -1 ->
      - 2 ^ 62 <= next_frame_ms m < 2 ^ 62 ->
      0 < timelapse state ->
      0 < late ->
      timelapse state / 2 <= late ->
      late + 2 * timelapse state <= INT_MAX ->
      frame m + 1 + (1 + late / timelapse state) <= INT_MAX ->
      counted = Some (frame m + 1 + (1 + late / timelapse state))).
Proof.
  intros Hfr method late counted. subst method counted.
  pose proof (now_ms_range m) as Hr.
  destruct (wait_dispatch state m) as (D0 & D3 & D2 & D6 & D4 & D5 & _).
  destruct (arm_deadline_fields state (now_ms m) m)
    as (E1 & E2 & E3 & E4 & E5 & E6).
  split; [|split; [|split]].
  - intros [E | [E | [E | E]]].
    + rewrite (D2 E).
      destruct (keypress_case_result state
                  (keep_running_of state (now_ms m)
                     (arm_deadline state (now_ms m) m))
                  (arm_deadline state (now_ms m) m))
        as (r & m' & -> & _ & F).
      simpl. rewrite F, E2. rewrite wrap32_id by int_range. reflexivity.
    + rewrite (D3 E). simpl. rewrite E2.
      rewrite wrap32_id by int_range. reflexivity.
    + rewrite (D6 E).
      destruct (immediately_case_result
                  (keep_running_of state (now_ms m)
                     (arm_deadline state (now_ms m) m))
                  (arm_deadline state (now_ms m) m))
        as (m' & -> & F).
      simpl. rewrite F, E2. rewrite wrap32_id by int_range. reflexivity.
    + rewrite (D5 E).
      destruct (signal_case_result state
                  (keep_running_of state (now_ms m)
                     (arm_deadline state (now_ms m) m))
                  (arm_deadline state (now_ms m) m))
        as (m' & -> & F).
      simpl. rewrite F, E2. rewrite wrap32_id by int_range. reflexivity.
  - intros [E | E].
    + rewrite (D0 E). simpl. rewrite E2. reflexivity.
    + rewrite (D4 E). simpl. rewrite E2. reflexivity.
  - intros E Hnext HT Hcase.
    rewrite (wait_timelapse _ _ E).
    rewrite timelapse_case_counts_one.
    + rewrite E2. rewrite wrap32_id by int_range. reflexivity.
    + rewrite E1. fold late.
      assert (Hh2 : timelapse state ÷ 2 = timelapse state / 2)
        by (apply Z.quot_div_nonneg; lia).
      assert (Hh : 0 <= timelapse state / 2 <= timelapse state)
        by (clear -HT; Z.div_mod_to_equations; lia).
      rewrite Hh2. clear Hh2.
      replace (next_frame_ms m - now_ms m) with (- late) by (subst late; lia).
      assert (Hl : - 2 ^ 63 < late < 2 ^ 63) by (subst late; int_range).
      clearbody late.
      rewrite (wrap64_id (- late)) by int_range.
      rewrite Z.opp_involutive, (wrap64_id late) by int_range.
      rewrite (wrap32_id (timelapse state / 2)) by int_range.
      destruct Hcase as [H | [H | H]]; [left; exact H | right; left; lia
                                       | right; right; exact H].
  - intros E Hinit Hnext HT Hl0 Hhalf Hbig Hf2.
    destruct (wait_skip state m E Hinit Hnext HT Hl0 Hhalf Hbig)
      as (r & ct & ->); [int_range | exact Hf2 |].
    reflexivity.
Qed.

(** *** Concrete runs *)

Lemma C2_timelapse_catch_up_witness :
  (exists r m',
     wait_for_next_frame (config FRAME_NEXT_TIMELAPSE 0 1000)
       (machine_at (-1) 10000 7 11500) = Returned r m'
     /\ frame m' = 7 + 1 + 2
     /\ next_frame_ms m' = 10000 + (2 + 1) * 1000
     /\ trace m' = [] ++ [EvLogSkip (7 + 1) (7 + 1 + 2); EvSleep 500])
  /\ (exists r m',
        wait_for_next_frame (config FRAME_NEXT_TIMELAPSE 0 1000)
          (machine_at (-1) 10000 7 10500) = Returned r m'
        /\ frame m' = 7 + 1 + 1
        /\ next_frame_ms m' = 10000 + (1 + 1) * 1000
        /\ trace m' = [] ++ [EvLogSkip (7 + 1) (7 + 1 + 1); EvSleep 500]).
Proof.
  split.
  - apply (C2_timelapse_catch_up (config FRAME_NEXT_TIMELAPSE 0 1000)
             (machine_at (-1) 10000 7 11500));
      try reflexivity; vm_compute; intuition discriminate.
  - apply (C2_timelapse_catch_up (config FRAME_NEXT_TIMELAPSE 0 1000)
             (machine_at (-1) 10000 7 10500));
      try reflexivity; vm_compute; intuition discriminate.
Defined.

(** C3, as stated, fails under FOREVER: with a timeout of 5000 ms and the
    deadline (6000) a second in the past, the call returns 1. *)
Lemma C3_forever_ignores_deadline :
  ~ (timeout (config FRAME_NEXT_FOREVER 5000 0) <> 0 ->
     deadline (config FRAME_NEXT_FOREVER 5000 0) (machine_at 6000 (-1) 4 7000)
       <= now_ms (machine_at 6000 (-1) 4 7000) ->
     result (wait_for_next_frame (config FRAME_NEXT_FOREVER 5000 0)
               (machine_at 6000 (-1) 4 7000)) = Some 0).
Proof.
  intros H.
  assert (E : result (wait_for_next_frame (config FRAME_NEXT_FOREVER 5000 0)
                        (machine_at 6000 (-1) 4 7000)) = Some 1)
    by (vm_compute; reflexivity).
  rewrite E in H.
  discriminate H; vm_compute; discriminate.
Qed.

Lemma C3_deadline_stops_all_but_forever_witness :
  timeout (config FRAME_NEXT_TIMELAPSE 5000 1000) <> 0
  /\ deadline (config FRAME_NEXT_TIMELAPSE 5000 1000)
       (machine_at 6000 8000 4 7000) <= now_ms (machine_at 6000 8000 4 7000)
  /\ result (wait_for_next_frame (config FRAME_NEXT_TIMELAPSE 5000 1000)
               (machine_at 6000 8000 4 7000)) = Some 0.
Proof.
  assert (H1 : timeout (config FRAME_NEXT_TIMELAPSE 5000 1000) <> 0)
    by (vm_compute; discriminate).
  assert (H2 : deadline (config FRAME_NEXT_TIMELAPSE 5000 1000)
                 (machine_at 6000 8000 4 7000)
               <= now_ms (machine_at 6000 8000 4 7000))
    by (vm_compute; discriminate).
  split; [exact H1|]. split; [exact H2|].
  apply (C3_deadline_stops_all_but_forever
           (config FRAME_NEXT_TIMELAPSE 5000 1000)
           (machine_at 6000 8000 4 7000) H1 H2).
  intros _. vm_compute. discriminate.
Defined.

(** C4, as stated, fails: a call in GPIO mode, with no deadline in force,
    does not return continue. *)
Lemma C4_gpio_does_not_continue :
  ~ (exists r m',
       wait_for_next_frame (config FRAME_NEXT_GPIO 0 0)
         (machine_at (-1) (-1) 0 1000) = Returned r m'
       /\ r <> 0).
Proof.
  intros (r & m' & E & Hr). vm_compute in E. injection E as <- _.
  apply Hr. reflexivity.
Qed.

Lemma C4_gpio_returns_stop_witness :
  exists m',
    wait_for_next_frame (config FRAME_NEXT_GPIO 0 0)
      (machine_at (-1) (-1) 5 1000) = Returned 0 m'
    /\ frame m' = 5
    /\ clock_us m' = 1000 * 1000
    /\ trace m' = []
    /\ stdin m' = []
    /\ sigwait_results m' = []
    /\ next_frame_ms m' = -1.
Proof.
  apply (C4_gpio_returns_stop (config FRAME_NEXT_GPIO 0 0)
           (machine_at (-1) (-1) 5 1000)).
  reflexivity.
Defined.

Lemma C6_timelapse_steady_state_witness :
  (exists rs m',
     ticks (config FRAME_NEXT_TIMELAPSE 0 1000) (repeat 0 100%nat)
       (machine_at (-1) 2000 0 1000) = Some (rs, m')
     /\ next_frame_ms m' - (2000 + 100 * 1000) = 0
     /\ now_ms m' = 2000 + 99 * 1000
     /\ trace m' = [] ++ EvSleep (2000 - now_ms (machine_at (-1) 2000 0 1000))
                          :: repeat (EvSleep 1000) 99)
  /\ (exists rs m',
        ticks (config FRAME_NEXT_TIMELAPSE 0 1000) (repeat 0 100%nat)
          (machine_at (-1) (-1) 0 1000) = Some (rs, m')
        /\ now_ms m' - (now_ms (machine_at (-1) (-1) 0 1000) + 100 * 1000) = 0
        /\ next_frame_ms m' = now_ms m' + 1000
        /\ trace m' = [] ++ repeat (EvSleep 1000) 100).
Proof.
  split.
  - apply (C6_timelapse_steady_state (config FRAME_NEXT_TIMELAPSE 0 1000)
             (machine_at (-1) 2000 0 1000));
      try reflexivity; vm_compute; intuition discriminate.
  - apply (C6_timelapse_steady_state (config FRAME_NEXT_TIMELAPSE 0 1000)
             (machine_at (-1) (-1) 0 1000));
      try reflexivity; vm_compute; intuition discriminate.
Defined.

(** C7, as stated, fails under TIMELAPSE: a tick 1500 ms late with an
    interval of 1000 ms takes the counter from 7 to 10. *)
Lemma C7_timelapse_skip_counts_more :
  ~ (frame <$> after (wait_for_next_frame (config FRAME_NEXT_TIMELAPSE 0 1000)
                        (machine_at (-1) 10000 7 11500))
     = Some (frame (machine_at (-1) 10000 7 11500) + 1)).
Proof. vm_compute. discriminate. Qed.

Lemma C7_frame_counter_witness :
  INT_MIN <= frame (machine_at (-1) 10000 7 11500) < INT_MAX
  /\ frame <$> after (wait_for_next_frame (config FRAME_NEXT_KEYPRESS 0 0)
                        (machine_at (-1) 10000 7 11500)) = Some (7 + 1)
  /\ frame <$> after (wait_for_next_frame (config FRAME_NEXT_GPIO 0 0)
                        (machine_at (-1) 10000 7 11500)) = Some 7
  /\ frame <$> after (wait_for_next_frame (config FRAME_NEXT_TIMELAPSE 0 1000)
                        (machine_at (-1) 10000 7 10400)) = Some (7 + 1)
  /\ frame <$> after (wait_for_next_frame (config FRAME_NEXT_TIMELAPSE 0 1000)
                        (machine_at (-1) 10000 7 11500)) = Some (7 + 1 + (1 + 1))
  /\ frame <$> after (wait_for_next_frame (config FRAME_NEXT_TIMELAPSE 0 1001)
                        (machine_at (-1) 10000 7 10500))
     = Some (7 + 1 + (1 + 500 / 1001)).
Proof.
  assert (H : INT_MIN <= frame (machine_at (-1) 10000 7 11500) < INT_MAX)
    by (vm_compute; intuition discriminate).
  split; [exact H|].
  split; [|split; [|split; [|split]]].
  - destruct (C7_frame_counter (config FRAME_NEXT_KEYPRESS 0 0)
                (machine_at (-1) 10000 7 11500) H) as (A & _).
    apply A. left. reflexivity.
  - destruct (C7_frame_counter (config FRAME_NEXT_GPIO 0 0)
                (machine_at (-1) 10000 7 11500) H) as (_ & B & _).
    apply B. right. reflexivity.
  - destruct (C7_frame_counter (config FRAME_NEXT_TIMELAPSE 0 1000)
                (machine_at (-1) 10000 7 10400) H) as (_ & _ & C & _).
    apply C; try reflexivity; vm_compute; intuition discriminate.
  - destruct (C7_frame_counter (config FRAME_NEXT_TIMELAPSE 0 1000)
                (machine_at (-1) 10000 7 11500) H) as (_ & _ & _ & D).
    apply D; try reflexivity; vm_compute; intuition discriminate.
  - destruct (C7_frame_counter (config FRAME_NEXT_TIMELAPSE 0 1001)
                (machine_at (-1) 10000 7 10500) H) as (_ & _ & _ & D).
    apply D; try reflexivity; vm_compute; intuition discriminate.
Defined.

Lemma C10_unknown_method_falls_through_witness :
  (frameNextMethod (config 7 5000 0) < 0 \/ 6 < frameNextMethod (config 7 5000 0))
  /\ exists m',
       wait_for_next_frame (config 7 5000 0) (machine_at 6000 (-1) 4 7000)
       = Returned 0 m'
       /\ frame m' = 4
       /\ next_frame_ms m' = -1
       /\ clock_us m' = 7000 * 1000
       /\ stdin m' = []
       /\ sigwait_results m' = []
       /\ trace m' = [].
Proof.
  assert (H : frameNextMethod (config 7 5000 0) < 0
              \/ 6 < frameNextMethod (config 7 5000 0))
    by (right; reflexivity).
  split; [exact H|].
  apply (C10_unknown_method_falls_through (config 7 5000 0)
           (machine_at 6000 (-1) 4 7000) H).
Defined.

End FrameAdvanceFacts.

Ltac trace_eq :=
  simpl; rewrite <- ?app_assoc; simpl;
  first [reflexivity | symmetry; apply app_nil_r].

Section EncoderFacts.
Import CInt Encoder.

Variable FRAME_END TRANSMISSION_FAILED : Z.

Local Abbreviation marked := (Encoder.marked FRAME_END TRANSMISSION_FAILED).
Local Abbreviation completes := (Encoder.completes FRAME_END TRANSMISSION_FAILED).
Local Abbreviation with_state := (Encoder.with_state FRAME_END TRANSMISSION_FAILED).
Local Abbreviation encoder_buffer_callback :=
  (Encoder.encoder_buffer_callback FRAME_END TRANSMISSION_FAILED).
Local Abbreviation deliver_all := (Encoder.deliver_all FRAME_END TRANSMISSION_FAILED).

Lemma posts_app (t1 t2 : list event) : posts (t1 ++ t2) = (posts t1 + posts t2)%nat.
Proof.
  induction t1 as [|e t1 IH]; [reflexivity|].
  destruct e; simpl; rewrite IH; reflexivity.
Qed.

Lemma released_app (t1 t2 : list event) :
  released (t1 ++ t2) = released t1 ++ released t2.
Proof.
  induction t1 as [|e t1 IH]; [reflexivity|].
  destruct e; simpl; rewrite IH; reflexivity.
Qed.

Lemma with_state_spec (b : MMAL_BUFFER_HEADER_T) (env : oracle) (s : store) :
  exists evs,
    trace (with_state b env s).1 = trace s ++ evs
    /\ posts evs = O
    /\ released evs = []
    /\ (In EvWriteError evs <->
          writes b env s
          && negb (to_u32 (wrap32 (write_result env)) =? length b) = true)
    /\ complete_semaphore (with_state b env s).1 = complete_semaphore s
    /\ queue (with_state b env s).1 = queue s
    /\ in_port (with_state b env s).1 = in_port s
    /\ outputFileFD (with_state b env s).1 = sink_fd env s
    /\ (with_state b env s).2 = completes b env s.
Proof.
  unfold Encoder.with_state, Encoder.completes, writes, sink_fd.
  destruct (outputFileFD s =? -1); simpl;
    match goal with
    | |- context [negb (length b =? 0) && (0 <? ?fd)] =>
        destruct (negb (length b =? 0) && (0 <? fd))
    end; simpl;
    try destruct (to_u32 (wrap32 (write_result env)) =? length b); simpl;
    destruct (marked b); simpl;
    eexists; (split; [trace_eq|]); simpl;
    intuition (discriminate || congruence).
Qed.

(** One invocation with user state present. *)
Lemma callback_with_state (port : MMAL_PORT_T) (b : MMAL_BUFFER_HEADER_T)
    (env : oracle) (s : store) :
  userdata port = Some callback_data ->
  exists s' evs,
    encoder_buffer_callback port b env s = Finished s'
    /\ trace s' = trace s ++ evs
    /\ posts evs = (if completes b env s then 1%nat else O)
    /\ released evs = [b]
    /\ (In EvWriteError evs <->
          writes b env s
          && negb (to_u32 (wrap32 (write_result env)) =? length b) = true)
    /\ complete_semaphore s'
       = complete_semaphore s + (if completes b env s then 1 else 0)
    /\ outputFileFD s' = (if completes b env s then 0 else sink_fd env s).
Proof.
  intros Hud.
  destruct (with_state_spec b env s)
    as (evs & Htr & Hp & Hr & Hw & Hsem & Hq & Hport & Hfd & Hc).
  unfold Encoder.encoder_buffer_callback. rewrite Hud.
  destruct (with_state b env s) as [s1 c]. simpl in *. subst c.
  unfold mmal_buffer_header_release, mmal_queue_get, mmal_port_send_buffer,
    vcos_semaphore_post, emit, set_fd.
  destruct (is_enabled port); destruct (queue s1) as [|q0 qs];
    destruct (send_ok env); destruct (completes b env s); simpl;
    eexists _, _; (split; [reflexivity|]); simpl;
    rewrite Htr, Hsem, Hfd;
    (split; [trace_eq|]);
    rewrite ?posts_app, ?released_app, Hp, Hr; simpl;
    (split; [reflexivity|]); (split; [reflexivity|]);
    (split; [|split; [lia || reflexivity | reflexivity]]);
    rewrite ?in_app_iff; simpl; rewrite <- Hw;
    intuition discriminate.
Qed.


Lemma closed_app (t1 t2 : list event) :
  closed (t1 ++ t2) = closed t1 ++ closed t2.
Proof.
  induction t1 as [|e t1 IH]; [reflexivity|].
  destruct e; simpl; rewrite IH; reflexivity.
Qed.

Lemma with_state_closes (b : MMAL_BUFFER_HEADER_T) (env : oracle) (s : store) :
  exists evs,
    trace (with_state b env s).1 = trace s ++ evs /\ closed evs = [].
Proof.
  unfold Encoder.with_state.
  destruct (outputFileFD s =? -1); simpl;
    match goal with
    | |- context [negb (length b =? 0) && (0 <? ?fd)] =>
        destruct (negb (length b =? 0) && (0 <? fd))
    end; simpl;
    try destruct (to_u32 (wrap32 (write_result env)) =? length b); simpl;
    destruct (marked b); simpl;
    eexists; (split; [trace_eq | reflexivity]).
Qed.

(** What one invocation with user state closes: the descriptor it had for
    writing, when it completes, and nothing otherwise. *)
Lemma callback_closes (port : MMAL_PORT_T) (b : MMAL_BUFFER_HEADER_T)
    (env : oracle) (s : store) :
  userdata port = Some callback_data ->
  exists s' evs,
    encoder_buffer_callback port b env s = Finished s'
    /\ trace s' = trace s ++ evs
    /\ closed evs = (if completes b env s then [sink_fd env s] else []).
Proof.
  intros Hud.
  destruct (with_state_spec b env s)
    as (evs0 & Htr0 & _ & _ & _ & _ & _ & _ & Hfd & Hc).
  destruct (with_state_closes b env s) as (evs & Htr & Hcl).
  unfold Encoder.encoder_buffer_callback. rewrite Hud.
  destruct (with_state b env s) as [s1 c]. simpl in *. subst c.
  unfold mmal_buffer_header_release, mmal_queue_get, mmal_port_send_buffer,
    vcos_semaphore_post, emit, set_fd.
  destruct (is_enabled port); destruct (queue s1) as [|q0 qs];
    destruct (send_ok env); destruct (completes b env s); simpl;
    eexists _, _; (split; [reflexivity|]); simpl;
    rewrite Htr, ?Hfd;
    (split; [trace_eq|]);
    rewrite ?closed_app, Hcl; reflexivity.
Qed.



(** A prefix of a session in which no buffer is marked and no write comes
    back short is delivered without a post. *)
Lemma deliver_all_quiet (port : MMAL_PORT_T) (ds : list delivery) :
  userdata port = Some callback_data ->
  Forall (fun d => marked (buf d) = false /\ short_write d = false) ds ->
  forall s,
    exists s',
      deliver_all port ds s = Finished s'
      /\ posts (trace s') = posts (trace s)
      /\ complete_semaphore s' = complete_semaphore s.
Proof.
  intros Hud Hq. induction Hq as [|d ds [Hm Hs] _ IH]; intros s.
  - exists s. repeat split.
  - destruct (callback_with_state port (buf d) (env d) s Hud)
      as (s1 & evs & Hcb & Htr & Hp & _ & _ & Hsem & _).
    assert (Hc : completes (buf d) (env d) s = false).
    { unfold Encoder.completes. rewrite Hm. simpl.
      unfold short_write in Hs. rewrite Hs. apply andb_false_r. }
    rewrite Hc in *.
    destruct (IH s1) as (s' & Hd & Hp' & Hsem').
    exists s'. simpl. rewrite Hcb. split; [exact Hd|].
    rewrite Hp', Hsem', Htr, posts_app, Hp, Hsem. split; lia.
Qed.

(** C1 (amended): with user state present, one invocation posts the
    semaphore once when the buffer carries an end-of-frame or
    transmission-failed marker or when its write came back with a count
    other than its length, and does not post otherwise.  So a session whose
    buffers before the last are unmarked and written in full, and whose last
    buffer is marked, is posted exactly once, and not before that buffer. *)
Theorem C1_post_on_marker_or_short_write (port : MMAL_PORT_T) (s : store) :
  userdata port = Some callback_data ->
  (forall b env,
     exists s',
       encoder_buffer_callback port b env s = Finished s'
       /\ posts (trace s')
          = (posts (trace s) + (if completes b env s then 1 else 0))%nat
       /\ complete_semaphore s'
          = complete_semaphore s + (if completes b env s then 1 else 0))
  /\ (forall ds last,
        Forall (fun d => marked (buf d) = false /\ short_write d = false) ds ->
        marked (buf last) = true ->
        exists s1 s',
          deliver_all port ds s = Finished s1
          /\ posts (trace s1) = posts (trace s)
          /\ deliver_all port (ds ++ [last]) s = Finished s'
          /\ posts (trace s') = S (posts (trace s))
          /\ complete_semaphore s' = complete_semaphore s + 1).
Proof.
  intros Hud. split.
  - intros b env.
    destruct (callback_with_state port b env s Hud)
      as (s' & evs & Hcb & Htr & Hp & _ & _ & Hsem & _).
    exists s'. split; [exact Hcb|]. rewrite Htr, posts_app, Hp.
    split; [reflexivity | exact Hsem].
  - intros ds last Hq Hlast.
    destruct (deliver_all_quiet port ds Hud Hq s) as (s1 & Hd & Hp1 & Hsem1).
    destruct (callback_with_state port (buf last) (env last) s1 Hud)
      as (s' & evs & Hcb & Htr & Hp & _ & _ & Hsem & _).
    assert (Hc : completes (buf last) (env last) s1 = true)
      by (unfold Encoder.completes; rewrite Hlast; reflexivity).
    rewrite Hc in *.
    exists s1, s'. split; [exact Hd|]. split; [exact Hp1|].
    split.
    + clear -Hd Hcb. revert s Hd.
      induction ds as [|d ds IH]; intros s Hd; simpl in *.
      * injection Hd as ->. rewrite Hcb. reflexivity.
      * destruct (encoder_buffer_callback port (buf d) (env d) s);
          [apply IH; exact Hd | discriminate].
    + rewrite Htr, posts_app, Hp, Hp1, Hsem, Hsem1. split; lia.
Qed.

(** C5 (amended): when the write of a buffer comes back with a count other
    than the buffer's length, the callback prints its write-error message
    and completes the session itself: it posts the semaphore once in that
    same invocation, whether or not the buffer is marked, closes the sink
    (one [close], of the descriptor it wrote to, after which [outputFileFD]
    is 0), and leaves the semaphore exactly as a marked buffer written in
    full would. *)
Theorem C5_short_write_completes (port : MMAL_PORT_T)
    (b : MMAL_BUFFER_HEADER_T) (env : oracle) (s : store) :
  userdata port = Some callback_data ->
  writes b env s = true ->
  to_u32 (wrap32 (write_result env)) <> length b ->
  exists s' evs,
    encoder_buffer_callback port b env s = Finished s'
    /\ trace s' = trace s ++ evs
    /\ In EvWriteError evs
    /\ posts evs = 1%nat
    /\ complete_semaphore s' = complete_semaphore s + 1
    /\ closed evs = [sink_fd env s]
    /\ outputFileFD s' = 0
    /\ (forall b2 env2,
          marked b2 = true ->
          complete_semaphore (final (encoder_buffer_callback port b2 env2 s))
          = complete_semaphore s').
Proof.
  intros Hud Hw Hshort.
  destruct (callback_with_state port b env s Hud)
    as (s' & evs & Hcb & Htr & Hp & _ & Hwe & Hsem & Hfd).
  destruct (callback_closes port b env s Hud) as (s2 & evs2 & Hcb2 & Htr2 & Hcl).
  rewrite Hcb in Hcb2. injection Hcb2 as <-.
  rewrite Htr in Htr2. apply app_inv_head in Htr2. subst evs2.
  assert (Hne : negb (to_u32 (wrap32 (write_result env)) =? length b) = true).
  { destruct (Z.eqb_spec (to_u32 (wrap32 (write_result env))) (length b));
      [contradiction | reflexivity]. }
  assert (Hc : completes b env s = true).
  { unfold Encoder.completes. rewrite Hw, Hne. apply orb_true_r. }
  rewrite Hc in *. rewrite Hw, Hne in Hwe.
  exists s', evs. split; [exact Hcb|]. split; [exact Htr|].
  split; [apply Hwe; reflexivity|]. split; [exact Hp|].
  split; [exact Hsem|]. split; [exact Hcl|]. split; [exact Hfd|].
  intros b2 env2 Hm2.
  destruct (callback_with_state port b2 env2 s Hud)
    as (s2 & evs2 & -> & _ & _ & _ & _ & Hsem2 & _).
  assert (Hc2 : completes b2 env2 s = true)
    by (unfold Encoder.completes; rewrite Hm2; reflexivity).
  rewrite Hc2 in Hsem2. simpl. lia.
Qed.

End EncoderFacts.

(** *** Concrete runs of the callback

    The masks are those of the MMAL headers: [MMAL_BUFFER_HEADER_FLAG_FRAME_END]
    is [1 << 2] and [MMAL_BUFFER_HEADER_FLAG_TRANSMISSION_FAILED] is
    [1 << 10]. *)
Section EncoderRuns.
Import CInt Encoder.


(** C1, as stated, fails: a buffer with no marker whose write returns 1 of
    its 3 bytes makes the callback post. *)
Lemma C1_post_without_marker :
  ~ (marked 4 1024 (buffer_of [1; 2; 3] 0) = false ->
     posts (trace (final (encoder_buffer_callback 4 1024 encoder_output_port
                            (buffer_of [1; 2; 3] 0) (answers 5 1)
                            (begin_session idle)))) = O).
Proof. intros H. specialize (H eq_refl). vm_compute in H. discriminate H. Qed.

Lemma C1_post_on_marker_or_short_write_witness :
  userdata encoder_output_port = Some callback_data
  /\ exists s1 s',
       deliver_all 4 1024 encoder_output_port
         [ {| buf := buffer_of [255; 216] 0; env := answers 5 2 |};
           {| buf := buffer_of [7; 7; 7] 0; env := answers 5 3 |} ]
         (begin_session idle) = Finished s1
       /\ posts (trace s1) = posts (trace (begin_session idle))
       /\ deliver_all 4 1024 encoder_output_port
            ([ {| buf := buffer_of [255; 216] 0; env := answers 5 2 |};
               {| buf := buffer_of [7; 7; 7] 0; env := answers 5 3 |} ]
             ++ [ {| buf := buffer_of [255; 217] 4; env := answers 5 2 |} ])
            (begin_session idle) = Finished s'
       /\ posts (trace s') = S (posts (trace (begin_session idle)))
       /\ complete_semaphore s' = complete_semaphore (begin_session idle) + 1.
Proof.
  split; [reflexivity|].
  destruct (C1_post_on_marker_or_short_write 4 1024 encoder_output_port
              (begin_session idle) eq_refl) as [_ H].
  apply H.
  - repeat constructor.
  - reflexivity.
Defined.

(** C5, as stated, fails: in a session whose first buffer is written short
    and whose second carries the end-of-frame marker, the semaphore is
    posted twice, the first time before any marker has been seen. *)
Lemma C5_short_write_posts_before_marker :
  ~ (posts (trace (final (deliver_all 4 1024 encoder_output_port
                            [ {| buf := buffer_of [1; 2; 3] 0;
                                 env := answers 5 1 |};
                              {| buf := buffer_of [4; 5] 4;
                                 env := answers 5 2 |} ]
                            (begin_session idle)))) = 1%nat).
Proof. vm_compute. discriminate. Qed.

Lemma C5_short_write_completes_witness :
  userdata encoder_output_port = Some callback_data
  /\ writes (buffer_of [1; 2; 3] 0) (answers 5 1) (begin_session idle) = true
  /\ to_u32 (wrap32 (write_result (answers 5 1)))
     <> length (buffer_of [1; 2; 3] 0)
  /\ exists s' evs,
       encoder_buffer_callback 4 1024 encoder_output_port
         (buffer_of [1; 2; 3] 0) (answers 5 1) (begin_session idle)
       = Finished s'
       /\ trace s' = trace (begin_session idle) ++ evs
       /\ In EvWriteError evs
       /\ posts evs = 1%nat
       /\ complete_semaphore s' = complete_semaphore (begin_session idle) + 1
       /\ closed evs = [sink_fd (answers 5 1) (begin_session idle)]
       /\ outputFileFD s' = 0
       /\ (forall b2 env2,
             marked 4 1024 b2 = true ->
             complete_semaphore
               (final (encoder_buffer_callback 4 1024 encoder_output_port
                         b2 env2 (begin_session idle)))
             = complete_semaphore s').
Proof.
  assert (H1 : userdata encoder_output_port = Some callback_data)
    by reflexivity.
  assert (H2 : writes (buffer_of [1; 2; 3] 0) (answers 5 1)
                 (begin_session idle) = true) by reflexivity.
  assert (H3 : to_u32 (wrap32 (write_result (answers 5 1)))
               <> length (buffer_of [1; 2; 3] 0))
    by (vm_compute; discriminate).
  split; [exact H1|]. split; [exact H2|]. split; [exact H3|].
  exact (C5_short_write_completes 4 1024 encoder_output_port
           (buffer_of [1; 2; 3] 0) (answers 5 1) (begin_session idle)
           H1 H2 H3).
Defined.

End EncoderRuns.

(** ** The upload receiver *)
Section DashgrabFacts.
Import Dashgrab.

(** On an open file the loop appends what its writes put there, byte for
    byte and in order, after what the file offset has passed. *)
Lemma copy_loop_appends (rs : list read_result) (pre : list Z) :
  copy_loop rs (List.length pre) pre = pre ++ stored rs.
Proof.
  revert pre. induction rs as [|r rs IH]; intros pre; simpl.
  - rewrite app_nil_r. reflexivity.
  - destruct (0 <? len_of r); [|rewrite app_nil_r; reflexivity].
    unfold write_at.
    rewrite firstn_all, drop_ge by lia. rewrite app_nil_r.
    rewrite <- length_app. rewrite IH. rewrite <- app_assoc. reflexivity.
Qed.

(** When no write comes back short, what is stored is what was received. *)
Lemma stored_complete (rs : list read_result) :
  complete_writes rs = true -> stored rs = received rs.
Proof.
  induction rs as [|r rs IH]; [reflexivity|].
  cbn [complete_writes forallb stored received]. intros H.
  apply andb_true_iff in H as [Hr H].
  rewrite (IH H). destruct r; try discriminate Hr; reflexivity.
Qed.

(** [processClient] on a file that does not exist yet, when no write comes
    back short, leaves in it exactly the bytes received, under the name
    built from its [address] argument. *)
Lemma processClient_fresh_file (c : connection) (address : N)
    (fs : gmap string (list Z)) :
  open_ok c = true ->
  complete_writes (reads c) = true ->
  fs !! filename_of address = None ->
  processClient c address fs !! filename_of address = Some (received (reads c)).
Proof.
  intros Ho Hw Hf. unfold processClient. rewrite Ho, Hf. simpl.
  rewrite lookup_insert_eq.
  f_equal. rewrite <- (stored_complete _ Hw).
  apply (copy_loop_appends (reads c) []).
Qed.

Lemma string_length_app (s t : string) :
  String.length (s +:+ t) = (String.length s + String.length t)%nat.
Proof. induction s as [|a s IH]; simpl; [reflexivity | rewrite IH; reflexivity]. Qed.

Lemma string_app_inj_r (t s1 s2 : string) : s1 +:+ t = s2 +:+ t -> s1 = s2.
Proof.
  revert s2. induction s1 as [|a s1 IH]; intros [|b s2] H.
  - reflexivity.
  - apply (f_equal String.length) in H.
    rewrite !string_length_app in H. simpl in H. lia.
  - apply (f_equal String.length) in H.
    rewrite !string_length_app in H. simpl in H. lia.
  - change (String a (s1 +:+ t) = String b (s2 +:+ t)) in H.
    injection H as -> H. f_equal. apply IH, H.
Qed.

(** Distinct addresses give distinct file names. *)
Lemma filename_of_inj (a1 a2 : N) : filename_of a1 = filename_of a2 -> a1 = a2.
Proof.
  unfold filename_of. intros H.
  apply (inj (String.app "/var/www/html/grab")) in H.
  apply string_app_inj_r in H.
  apply (inj pretty) in H. exact H.
Qed.

(** The accept loop writes to one file only, whoever the peers are. *)
Lemma acceptThread_one_file (INADDR_ANY : N) (conns : list connection)
    (fs : gmap string (list Z)) (name : string) :
  name <> filename_of INADDR_ANY ->
  acceptThread INADDR_ANY conns fs !! name = fs !! name.
Proof.
  intros Hne. revert fs. induction conns as [|c conns IH]; intros fs.
  - reflexivity.
  - simpl. rewrite IH. unfold processClient.
    destruct (open_ok c); [|reflexivity].
    apply lookup_insert_ne. congruence.
Qed.

(** C9 does not hold of the code.  Two peers, 10.0.0.1 and
    10.0.0.2, upload [1; 2; 3] and [9]; [serv_addr.sin_addr.s_addr] is
    [INADDR_ANY], 0.  No file is named after either peer: both uploads go to
    the file named after the server's own address, and the second overwrites
    the start of the first. *)
Theorem C9_two_peers_share_one_file :
  let peer1 := {| cli_addr := 167772161;
                  reads := [ReadBytes [1; 2; 3]; ReadClosed];
                  open_ok := true |} in
  let peer2 := {| cli_addr := 167772162;
                  reads := [ReadBytes [9]; ReadClosed];
                  open_ok := true |} in
  let fs := acceptThread 0 [peer1; peer2] ∅ in
  fs !! filename_of (cli_addr peer1) = None
  /\ fs !! filename_of (cli_addr peer2) = None
  /\ fs !! "/var/www/html/grab0.jpeg" = Some [9; 2; 3].
Proof.
  cbv zeta. split; [|split].
  - rewrite acceptThread_one_file; [reflexivity|].
    intros H. apply filename_of_inj in H. discriminate H.
  - rewrite acceptThread_one_file; [reflexivity|].
    intros H. apply filename_of_inj in H. discriminate H.
  - vm_compute. reflexivity.
Qed.

End DashgrabFacts.

(** ** More on [wait_for_next_frame] *)
Section FrameAdvanceMore.
Import CInt FrameAdvance.

Lemma keep_running_of_cases (state : RASPISTILL_STATE) (m : machine) :
  let kr := keep_running_of state (now_ms m) (arm_deadline state (now_ms m) m) in
  (kr = 0 /\ timeout state <> 0 /\ deadline state m <= now_ms m)
  \/ (kr = 1 /\ ~ (timeout state <> 0 /\ deadline state m <= now_ms m)).
Proof.
  cbv zeta. unfold keep_running_of, deadline.
  destruct (Z.leb_spec (complete_time (arm_deadline state (now_ms m) m))
              (now_ms m));
    destruct (Z.eqb_spec (timeout state) 0); simpl; intuition lia.
Qed.

(** The keypress case: one character is taken from standard input, if there
    is one; ['x'] and ['X'] stop, anything else (the end of input too) gives
    [keep_running]. *)
Lemma keypress_case_exact (state : RASPISTILL_STATE) (kr : Z) (m : machine) :
  exists m',
    keypress_case state kr m
    = Returned (if ((getchar m).1 =? 120) || ((getchar m).1 =? 88)
                then 0 else kr) m'
    /\ frame m' = wrap32 (frame m + 1)
    /\ complete_time m' = complete_time m
    /\ next_frame_ms m' = next_frame_ms m
    /\ clock_us m' = clock_us m
    /\ stdin m' = tail (stdin m).
Proof.
  unfold keypress_case, getchar.
  destruct (verbose state =? 0); destruct (stdin m) as [|c rest] eqn:E;
    simpl; rewrite ?E; simpl;
    try (destruct ((c =? 120) || (c =? 88)));
    eexists; (split; [reflexivity|]); simpl; auto 10.
Qed.

(** X1.  When a call stops.  Whenever it returns, [wait_for_next_frame] returns 0
    or 1, and it returns 0 exactly when the method is SINGLE or GPIO, or
    the method is KEYPRESS and the character read is ['x'] or ['X'], or the
    method is not FOREVER and the enabled deadline has been reached. *)
Theorem wait_stops_exactly_when (state : RASPISTILL_STATE) (m : machine) :
  (frameNextMethod state = FRAME_NEXT_TIMELAPSE -> timelapse state <> 0) ->
  exists r m',
    wait_for_next_frame state m = Returned r m'
    /\ (r = 0 \/ r = 1)
    /\ (r = 0 <->
        frameNextMethod state = FRAME_NEXT_SINGLE
        \/ frameNextMethod state = FRAME_NEXT_GPIO
        \/ (frameNextMethod state = FRAME_NEXT_KEYPRESS
            /\ ((getchar m).1 = 120 \/ (getchar m).1 = 88))
        \/ (frameNextMethod state <> FRAME_NEXT_FOREVER
            /\ timeout state <> 0 /\ deadline state m <= now_ms m)).
Proof.
  intros HT.
  pose proof (wait_dispatch state m) as D. cbv zeta in D.
  destruct D as (D0 & D3 & D2 & D6 & D4 & D5 & Dx).
  destruct (arm_deadline_fields state (now_ms m) m)
    as (E1 & E2 & E3 & E4 & E5 & E6).
  pose proof (keep_running_of_cases state m) as K. cbv zeta in K.
  set (kr := keep_running_of state (now_ms m)
               (arm_deadline state (now_ms m) m)) in *.
  set (a := arm_deadline state (now_ms m) m) in *.
  unfold FRAME_NEXT_SINGLE, FRAME_NEXT_FOREVER, FRAME_NEXT_TIMELAPSE,
    FRAME_NEXT_KEYPRESS, FRAME_NEXT_IMMEDIATELY, FRAME_NEXT_GPIO,
    FRAME_NEXT_SIGNAL in *.
  destruct (Z.eq_dec (frameNextMethod state) 0) as [E|N0].
  { rewrite (D0 E). eexists _, _. split; [reflexivity|]. intuition lia. }
  destruct (Z.eq_dec (frameNextMethod state) 3) as [E|N3].
  { rewrite (D3 E). eexists _, _. split; [reflexivity|]. intuition lia. }
  destruct (Z.eq_dec (frameNextMethod state) 4) as [E|N4].
  { rewrite (D4 E). eexists _, _. split; [reflexivity|]. intuition lia. }
  destruct (Z.eq_dec (frameNextMethod state) 1) as [E|N1].
  { rewrite (wait_timelapse _ _ E). fold a kr.
    destruct (timelapse_case_returns state (now_ms m) kr a (HT E))
      as (m' & ->).
    eexists _, _. split; [reflexivity|]. intuition lia. }
  destruct (Z.eq_dec (frameNextMethod state) 2) as [E|N2].
  { rewrite (D2 E).
    destruct (keypress_case_exact state kr a) as (m' & -> & _).
    assert (G : (getchar a).1 = (getchar m).1)
      by (unfold getchar; rewrite E4; destruct (stdin m); reflexivity).
    rewrite G.
    eexists _, _. split; [reflexivity|].
    destruct (Z.eqb_spec (getchar m).1 120); destruct (Z.eqb_spec (getchar m).1 88);
      simpl; intuition lia. }
  destruct (Z.eq_dec (frameNextMethod state) 6) as [E|N6].
  { rewrite (D6 E).
    destruct (immediately_case_result kr a) as (m' & -> & _).
    eexists _, _. split; [reflexivity|]. intuition lia. }
  destruct (Z.eq_dec (frameNextMethod state) 5) as [E|N5].
  { rewrite (D5 E).
    destruct (signal_case_result state kr a) as (m' & -> & _).
    eexists _, _. split; [reflexivity|]. intuition lia. }
  rewrite Dx by lia.
  eexists _, _. split; [reflexivity|]. intuition lia.
Qed.

(** Whatever the method, a call that returns leaves in [complete_time]
    the deadline it worked with. *)
Lemma wait_keeps_deadline (state : RASPISTILL_STATE) (m : machine) (r : Z)
    (m' : machine) :
  wait_for_next_frame state m = Returned r m' ->
  complete_time m' = deadline state m.
Proof.
  unfold deadline, wait_for_next_frame.
  set (a := arm_deadline state (now_ms m) m).
  set (kr := keep_running_of state (now_ms m) a).
  clearbody a kr.
  unfold timelapse_case, keypress_case, immediately_case, signal_case,
    getchar, sigwait.
  repeat match goal with
         | |- context [if ?b then _ else _] => destruct b
         | |- context [match stdin ?x with _ => _ end] => destruct (stdin x)
         | |- context [match sigwait_results ?x with _ => _ end] =>
             destruct (sigwait_results x)
         end;
    simpl; intros H; inversion H; reflexivity.
Qed.

Lemma arm_deadline_armed (state : RASPISTILL_STATE) (t : Z) (m : machine) :
  complete_time m <> -1 -> arm_deadline state t m = m.
Proof.
  intros H. unfold arm_deadline.
  destruct (Z.eqb_spec (complete_time m) (-1)); [contradiction | reflexivity].
Qed.

(** X2.  The overall deadline is fixed by the first call.  The first call sets it
    to its own time plus the timeout; unless that value is -1, no later call
    moves it, however many calls follow and however much time passes
    between them. *)
Theorem deadline_set_once (state : RASPISTILL_STATE) (d : Z) (delays : list Z)
    (m : machine) (rs : list Z) (m' : machine) :
  complete_time m = -1 ->
  wrap64 (now_ms m + timeout state) <> -1 ->
  ticks state (d :: delays) m = Some (rs, m') ->
  complete_time m' = wrap64 (now_ms m + timeout state).
Proof.
  intros Hfresh Hne Ht.
  assert (Hd : deadline state m = wrap64 (now_ms m + timeout state)).
  { unfold deadline, arm_deadline. rewrite Hfresh. reflexivity. }
  rewrite <- Hd in *. clear Hfresh.
  simpl in Ht.
  destruct (wait_for_next_frame state m) as [r m1|] eqn:Hw; [|discriminate].
  apply wait_keeps_deadline in Hw.
  assert (Hc : complete_time (elapse d m1) = deadline state m) by exact Hw.
  assert (Hne1 : complete_time (elapse d m1) <> -1) by (rewrite Hc; exact Hne).
  destruct (ticks state delays (elapse d m1)) as [[rs1 m2]|] eqn:Hrest;
    [|discriminate].
  injection Ht as _ <-.
  rewrite <- Hc. clear Hw Hc Hd Hne.
  revert rs1 d m1 Hrest Hne1.
  induction delays as [|d' delays IH]; intros rs1 d m1 Hrest Hne1.
  - simpl in Hrest. injection Hrest as _ <-. reflexivity.
  - simpl in Hrest.
    destruct (wait_for_next_frame state (elapse d m1)) as [r' m3|] eqn:Hw;
      [|discriminate].
    apply wait_keeps_deadline in Hw.
    unfold deadline in Hw. rewrite arm_deadline_armed in Hw by exact Hne1.
    destruct (ticks state delays (elapse d' m3)) as [[rs2 m4]|] eqn:Hrest2;
      [|discriminate].
    injection Hrest as _ <-.
    rewrite <- Hw.
    apply (IH rs2 d' m3 Hrest2). simpl. rewrite Hw. exact Hne1.
Qed.

(** X3.  At the end of input KEYPRESS mode does not stop: [getchar] gives [EOF],
    which is neither ['x'] nor ['X'], so with the deadline disabled every
    call returns continue and counts a frame, without consuming anything. *)
Theorem keypress_at_end_of_input_never_stops (state : RASPISTILL_STATE)
    (delays : list Z) (m : machine) :
  frameNextMethod state = FRAME_NEXT_KEYPRESS ->
  timeout state = 0 ->
  stdin m = [] ->
  INT_MIN <= frame m ->
  frame m + Z.of_nat (List.length delays) <= INT_MAX ->
  exists m',
    ticks state delays m = Some (repeat 1 (List.length delays), m')
    /\ frame m' = frame m + Z.of_nat (List.length delays)
    /\ stdin m' = [].
Proof.
  intros Hm Ht. revert m.
  induction delays as [|d delays IH]; intros m Hin Hf1 Hf2.
  - exists m. simpl. repeat split; [lia | exact Hin].
  - simpl List.length in *.
    destruct (wait_dispatch state m) as (_ & _ & D2 & _).
    destruct (arm_deadline_fields state (now_ms m) m)
      as (E1 & E2 & E3 & E4 & E5 & E6).
    destruct (keypress_case_exact state
                (keep_running_of state (now_ms m)
                   (arm_deadline state (now_ms m) m))
                (arm_deadline state (now_ms m) m))
      as (m1 & Hk & F & _ & _ & _ & Hs).
    assert (G : (getchar (arm_deadline state (now_ms m) m)).1 = EOF)
      by (unfold getchar; rewrite E4, Hin; reflexivity).
    rewrite G in Hk. simpl in Hk.
    assert (K : keep_running_of state (now_ms m)
                  (arm_deadline state (now_ms m) m) = 1).
    { unfold keep_running_of. rewrite Ht. simpl. rewrite andb_false_r.
      reflexivity. }
    rewrite K in Hk. rewrite E2 in F. rewrite wrap32_id in F by int_range.
    rewrite E4, Hin in Hs.
    destruct (IH (elapse d m1)) as (m' & Hrun & Hfr & Hst);
      [exact Hs | simpl; lia | simpl; lia |].
    exists m'. simpl. rewrite (D2 Hm), K, Hk, Hrun.
    split; [reflexivity|]. split; [simpl in Hfr; lia | exact Hst].
Qed.

Lemma immediately_case_exact (kr : Z) (m : machine) :
  immediately_case kr m
  = Returned kr
      {| complete_time := complete_time m;
         next_frame_ms := next_frame_ms m;
         frame := wrap32 (frame m + 1);
         clock_us := clock_us m + 1000 * (if frame m =? 0 then 1000 else 30);
         stdin := stdin m;
         sigwait_results := sigwait_results m;
         trace := trace m ++ [EvSleep (if frame m =? 0 then 1000 else 30)] |}.
Proof. unfold immediately_case. destruct (frame m =? 0); reflexivity. Qed.

(** Calls in IMMEDIATELY mode while the counter is positive: 30 ms each. *)
Lemma immediately_run_positive (state : RASPISTILL_STATE) (delays : list Z) :
  frameNextMethod state = FRAME_NEXT_IMMEDIATELY ->
  forall m : machine,
    0 < frame m ->
    frame m + Z.of_nat (List.length delays) <= INT_MAX ->
    exists rs m',
      ticks state delays m = Some (rs, m')
      /\ frame m' = frame m + Z.of_nat (List.length delays)
      /\ trace m' = trace m ++ repeat (EvSleep 30) (List.length delays).
Proof.
  intros Hm. induction delays as [|d delays IH]; intros m Hf1 Hf2.
  - exists [], m. simpl. rewrite app_nil_r. repeat split. lia.
  - simpl List.length in *.
    destruct (wait_dispatch state m) as (_ & _ & _ & D6 & _).
    destruct (arm_deadline_fields state (now_ms m) m)
      as (E1 & E2 & E3 & E4 & E5 & E6).
    specialize (D6 Hm). rewrite immediately_case_exact in D6.
    rewrite E2, E6 in D6.
    destruct (Z.eqb_spec (frame m) 0) as [|_]; [lia|].
    rewrite wrap32_id in D6 by int_range.
    match type of D6 with _ = Returned _ ?x => remember x as m1 eqn:Em1 end.
    destruct (IH (elapse d m1)) as (rs & m' & Hrun & Hfr & Htr);
      [subst m1; simpl; lia | subst m1; simpl; lia |].
    eexists (_ :: rs), m'. simpl. rewrite D6, Hrun.
    split; [reflexivity|].
    split; [rewrite Hfr; subst m1; simpl; lia|].
    rewrite Htr. subst m1. simpl. rewrite <- app_assoc. reflexivity.
Qed.

(** X4.  A run in IMMEDIATELY mode that starts with the counter at 0 sleeps
    1000 ms before the first frame and 30 ms before every later one, and
    counts one frame per call. *)
Theorem immediately_run_from_zero (state : RASPISTILL_STATE) (d : Z)
    (delays : list Z) (m : machine) :
  frameNextMethod state = FRAME_NEXT_IMMEDIATELY ->
  frame m = 0 ->
  1 + Z.of_nat (List.length delays) <= INT_MAX ->
  exists rs m',
    ticks state (d :: delays) m = Some (rs, m')
    /\ frame m' = 1 + Z.of_nat (List.length delays)
    /\ trace m' = trace m ++ EvSleep 1000
                             :: repeat (EvSleep 30) (List.length delays).
Proof.
  intros Hm Hf0 Hn.
  destruct (wait_dispatch state m) as (_ & _ & _ & D6 & _).
  destruct (arm_deadline_fields state (now_ms m) m)
    as (E1 & E2 & E3 & E4 & E5 & E6).
  specialize (D6 Hm). rewrite immediately_case_exact in D6.
  rewrite E2, E6, Hf0 in D6. change (0 + 1) with 1 in D6.
  rewrite (wrap32_id 1) in D6 by int_range.
  change (0 =? 0) with true in D6. cbv iota in D6.
  match type of D6 with _ = Returned _ ?x => remember x as m1 eqn:Em1 end.
  destruct (immediately_run_positive state delays Hm (elapse d m1))
    as (rs & m' & Hrun & Hfr & Htr);
    [subst m1; simpl; lia | subst m1; simpl; int_range |].
  eexists (_ :: rs), m'. simpl. rewrite D6, Hrun.
  split; [reflexivity|].
  split; [rewrite Hfr; subst m1; reflexivity|].
  rewrite Htr. subst m1. simpl. rewrite <- app_assoc. reflexivity.
Qed.

(** A tick late by less than half the interval. *)
Lemma wait_slightly_late (state : RASPISTILL_STATE)
    (m : machine) :
  let late := now_ms m - next_frame_ms m in
  frameNextMethod state = FRAME_NEXT_TIMELAPSE ->
  next_frame_ms m <> -1 ->
  - 2 ^ 62 <= next_frame_ms m < 2 ^ 62 ->
  0 <= timelapse state <= INT_MAX ->
  0 < late < timelapse state / 2 ->
  INT_MIN <= frame m < INT_MAX ->
  exists r m',
    wait_for_next_frame state m = Returned r m'
    /\ trace m' = trace m ++ [EvLogLate (frame m + 1) late]
    /\ clock_us m' = clock_us m
    /\ frame m' = frame m + 1
    /\ next_frame_ms m' = next_frame_ms m + timelapse state.
Proof.
  intros late Hm Hinit Hnext HT Hlate Hfr.
  destruct (arm_deadline_fields state (now_ms m) m)
    as (E1 & E2 & E3 & E4 & E5 & E6).
  rewrite (wait_timelapse _ _ Hm).
  rewrite timelapse_case_late; rewrite ?E1, ?E2, ?E3, ?E4, ?E5, ?E6;
    try assumption.
  eexists _, _. split; [reflexivity|]. simpl. repeat split.
Qed.

(** X5.  A timelapse tick that comes late by less than interval / 2, the
    half as the code computes it, in integers and rounded down, takes its
    frame at once: the call does not sleep, reports the lateness, counts
    one frame and moves the deadline on by one interval.  (At an interval
    of 1001 a tick 500 ms late is not such a tick: it skips.) *)
Theorem timelapse_late_tick_does_not_sleep (state : RASPISTILL_STATE)
    (m : machine) :
  let late := now_ms m - next_frame_ms m in
  frameNextMethod state = FRAME_NEXT_TIMELAPSE ->
  next_frame_ms m <> -1 ->
  - 2 ^ 62 <= next_frame_ms m < 2 ^ 62 ->
  0 <= timelapse state <= INT_MAX ->
  0 < late < timelapse state / 2 ->
  INT_MIN <= frame m < INT_MAX ->
  exists r m',
    wait_for_next_frame state m = Returned r m'
    /\ trace m' = trace m ++ [EvLogLate (frame m + 1) late]
    /\ clock_us m' = clock_us m
    /\ frame m' = frame m + 1
    /\ next_frame_ms m' = next_frame_ms m + timelapse state.
Proof. apply wait_slightly_late. Qed.

Lemma now_ms_advance (m m' : machine) (ms : Z) :
  0 <= clock_us m ->
  0 <= ms ->
  clock_us m' = clock_us m + 1000 * ms ->
  clock_us m' < 2 ^ 64 ->
  now_ms m' = now_ms m + ms.
Proof.
  intros H0 Hs Hc Hb.
  rewrite (now_ms_small m), (now_ms_small m') by int_range.
  rewrite Hc. replace (clock_us m + 1000 * ms) with (clock_us m + ms * 1000)
    by ring.
  apply Z.div_add. lia.
Qed.

(** X6.  A timelapse tick that skips sleeps more than nothing and at most one
    interval, and returns exactly one interval before the deadline it
    leaves: after a skip the run is back on its grid. *)
Theorem timelapse_skip_resynchronises (state : RASPISTILL_STATE)
    (m : machine) :
  let late := now_ms m - next_frame_ms m in
  let nskip := 1 + late / timelapse state in
  frameNextMethod state = FRAME_NEXT_TIMELAPSE ->
  next_frame_ms m <> -1 ->
  - 2 ^ 62 <= next_frame_ms m < 2 ^ 62 ->
  0 <= clock_us m < 2 ^ 62 ->
  0 < timelapse state ->
  0 < late ->
  timelapse state / 2 <= late ->
  late + 2 * timelapse state <= INT_MAX ->
  INT_MIN <= frame m -> frame m + 1 + nskip <= INT_MAX ->
  exists r m' ms,
    wait_for_next_frame state m = Returned r m'
    /\ trace m' = trace m ++ [EvLogSkip (frame m + 1) (frame m + 1 + nskip);
                              EvSleep ms]
    /\ 0 < ms <= timelapse state
    /\ now_ms m' = next_frame_ms m + nskip * timelapse state
    /\ next_frame_ms m' = now_ms m' + timelapse state.
Proof.
  intros late nskip Hm Hinit Hnext Hclk HT Hl0 Hhalf Hbig Hf1 Hf2.
  destruct (wait_skip state m Hm Hinit Hnext HT Hl0 Hhalf Hbig Hf1 Hf2)
    as (r & ct & Hw).
  fold late nskip in Hw.
  set (T := timelapse state) in *.
  assert (Hlo : T * (late / T) <= late) by (apply Z.mul_div_le; lia).
  assert (Hhi : late < T * Z.succ (late / T))
    by (apply Z.mul_succ_div_gt; lia).
  assert (Hns : nskip * T = T * (late / T) + T) by (subst nskip; ring).
  assert (Hns1 : (nskip + 1) * T = T * (late / T) + 2 * T)
    by (subst nskip; ring).
  match type of Hw with _ = Returned _ ?x => remember x as m1 eqn:Em1 end.
  assert (Hms : 0 < nskip * T - late <= T) by lia.
  assert (Hnow1 : now_ms m1 = now_ms m + (nskip * T - late)).
  { apply now_ms_advance; [lia | lia | subst m1; reflexivity |].
    subst m1. simpl. int_range. }
  exists r, m1, (nskip * T - late).
  split; [exact Hw|].
  split; [subst m1; reflexivity|].
  split; [exact Hms|].
  split; [rewrite Hnow1; subst late; lia|].
  rewrite Hnow1. subst m1. simpl. subst late. lia.
Qed.

(** X7.  On every timelapse tick but the first, the deadline and the frame
    counter move together: the deadline goes forward by the interval times
    the number of frames counted, whether the tick is on time, late or
    skipping. *)
Theorem timelapse_deadline_follows_frames (state : RASPISTILL_STATE)
    (m : machine) :
  let late := now_ms m - next_frame_ms m in
  frameNextMethod state = FRAME_NEXT_TIMELAPSE ->
  next_frame_ms m <> -1 ->
  - 2 ^ 62 <= next_frame_ms m < 2 ^ 62 ->
  0 < timelapse state <= INT_MAX ->
  - 2 ^ 32 < late ->
  late + 2 * timelapse state <= INT_MAX ->
  INT_MIN <= frame m < INT_MAX ->
  frame m + 2 + late / timelapse state <= INT_MAX ->
  exists r m',
    wait_for_next_frame state m = Returned r m'
    /\ 1 <= frame m' - frame m
    /\ next_frame_ms m' - next_frame_ms m
       = (frame m' - frame m) * timelapse state.
Proof.
  intros late Hm Hinit Hnext HT Hlo Hbig Hfr Hf2.
  pose proof (now_ms_range m) as Hr.
  assert (Hh : 0 <= timelapse state / 2 <= timelapse state)
    by (clear -HT; Z.div_mod_to_equations; lia).
  assert (HT0 : 0 < timelapse state) by lia.
  destruct (Z_le_gt_dec late 0) as [Hon | Hlate].
  - destruct (wait_on_time state m Hm) as (r & ct & Hw);
      [subst late; int_range .. |].
    eexists _, _. split; [exact Hw|]. simpl. lia.
  - destruct (Z_lt_ge_dec late (timelapse state / 2)) as [Hsmall | Hskip].
    + destruct (wait_slightly_late state m Hm Hinit Hnext)
        as (r & m' & Hw & _ & _ & F & N); [int_range | lia | exact Hfr |].
      exists r, m'. split; [exact Hw|]. rewrite F, N. lia.
    + assert (Hq : 0 <= late / timelapse state) by (apply Z.div_pos; lia).
      destruct (wait_skip state m Hm Hinit Hnext HT0) as (r & ct & Hw);
        [lia | lia | exact Hbig | lia | fold late; lia |].
      eexists _, _. split; [exact Hw|]. simpl. fold late. nia.
Qed.

(** *** Concrete runs *)

Lemma wait_stops_exactly_when_witness :
  exists r m',
    wait_for_next_frame (config FRAME_NEXT_KEYPRESS 0 0)
      (boot 1000000 [120; 10] []) = Returned r m'
    /\ (r = 0 \/ r = 1)
    /\ (r = 0 <->
        FRAME_NEXT_KEYPRESS = FRAME_NEXT_SINGLE
        \/ FRAME_NEXT_KEYPRESS = FRAME_NEXT_GPIO
        \/ (FRAME_NEXT_KEYPRESS = FRAME_NEXT_KEYPRESS
            /\ ((getchar (boot 1000000 [120; 10] [])).1 = 120
                \/ (getchar (boot 1000000 [120; 10] [])).1 = 88))
        \/ (FRAME_NEXT_KEYPRESS <> FRAME_NEXT_FOREVER
            /\ 0 <> 0
            /\ deadline (config FRAME_NEXT_KEYPRESS 0 0)
                 (boot 1000000 [120; 10] [])
               <= now_ms (boot 1000000 [120; 10] []))).
Proof.
  apply (wait_stops_exactly_when (config FRAME_NEXT_KEYPRESS 0 0)
           (boot 1000000 [120; 10] [])).
  intros H. discriminate H.
Defined.

Lemma deadline_set_once_witness :
  complete_time (boot 1000000 [] []) = -1
  /\ wrap64 (now_ms (boot 1000000 [] []) + 5000) <> -1
  /\ (complete_time <$>
        (snd <$> ticks (config FRAME_NEXT_IMMEDIATELY 5000 0)
                   [700000; 9000000; 42] (boot 1000000 [] [])))
     = Some 6000.
Proof.
  assert (H1 : complete_time (boot 1000000 [] []) = -1) by reflexivity.
  assert (H2 : wrap64 (now_ms (boot 1000000 [] [])
                       + timeout (config FRAME_NEXT_IMMEDIATELY 5000 0)) <> -1)
    by (vm_compute; discriminate).
  split; [exact H1|]. split; [exact H2|].
  destruct (ticks (config FRAME_NEXT_IMMEDIATELY 5000 0)
              [700000; 9000000; 42] (boot 1000000 [] []))
    as [[rs m']|] eqn:E; [|vm_compute in E; discriminate E].
  simpl. f_equal.
  rewrite (deadline_set_once _ _ _ _ _ _ H1 H2 E).
  vm_compute. reflexivity.
Defined.

Lemma keypress_at_end_of_input_never_stops_witness :
  exists m',
    ticks (config FRAME_NEXT_KEYPRESS 0 0) [0; 0; 0] (boot 1000000 [] [])
    = Some ([1; 1; 1], m')
    /\ frame m' = 0 + 3
    /\ stdin m' = [].
Proof.
  apply (keypress_at_end_of_input_never_stops
           (config FRAME_NEXT_KEYPRESS 0 0) [0; 0; 0] (boot 1000000 [] []));
    try reflexivity; vm_compute; discriminate.
Defined.

Lemma immediately_run_from_zero_witness :
  exists rs m',
    ticks (config FRAME_NEXT_IMMEDIATELY 0 0) [5; 5; 5] (boot 1000000 [] [])
    = Some (rs, m')
    /\ frame m' = 1 + 2
    /\ trace m' = [] ++ [EvSleep 1000; EvSleep 30; EvSleep 30].
Proof.
  apply (immediately_run_from_zero (config FRAME_NEXT_IMMEDIATELY 0 0)
           5 [5; 5] (boot 1000000 [] []));
    try reflexivity; vm_compute; discriminate.
Defined.

Lemma timelapse_late_tick_does_not_sleep_witness :
  exists r m',
    wait_for_next_frame (config FRAME_NEXT_TIMELAPSE 0 1000)
      (machine_at (-1) 10000 7 10400) = Returned r m'
    /\ trace m' = [] ++ [EvLogLate (7 + 1) (10400 - 10000)]
    /\ clock_us m' = 10400 * 1000
    /\ frame m' = 7 + 1
    /\ next_frame_ms m' = 10000 + 1000.
Proof.
  apply (timelapse_late_tick_does_not_sleep
           (config FRAME_NEXT_TIMELAPSE 0 1000) (machine_at (-1) 10000 7 10400));
    try reflexivity; vm_compute; intuition discriminate.
Defined.

Lemma timelapse_skip_resynchronises_witness :
  exists r m' ms,
    wait_for_next_frame (config FRAME_NEXT_TIMELAPSE 0 1000)
      (machine_at (-1) 10000 7 13700) = Returned r m'
    /\ trace m' = [] ++ [EvLogSkip (7 + 1) (7 + 1 + 4); EvSleep ms]
    /\ 0 < ms <= 1000
    /\ now_ms m' = 10000 + 4 * 1000
    /\ next_frame_ms m' = now_ms m' + 1000.
Proof.
  apply (timelapse_skip_resynchronises
           (config FRAME_NEXT_TIMELAPSE 0 1000) (machine_at (-1) 10000 7 13700));
    try reflexivity; vm_compute; intuition discriminate.
Defined.

Lemma timelapse_deadline_follows_frames_witness :
  exists r m',
    wait_for_next_frame (config FRAME_NEXT_TIMELAPSE 0 1000)
      (machine_at (-1) 10000 7 13700) = Returned r m'
    /\ 1 <= frame m' - 7
    /\ next_frame_ms m' - 10000 = (frame m' - 7) * 1000.
Proof.
  apply (timelapse_deadline_follows_frames
           (config FRAME_NEXT_TIMELAPSE 0 1000) (machine_at (-1) 10000 7 13700));
    try reflexivity; vm_compute; intuition discriminate.
Defined.

End FrameAdvanceMore.

(** ** More on [encoder_buffer_callback] *)
Section EncoderMore.
Import CInt Encoder.

Variable FRAME_END TRANSMISSION_FAILED : Z.

Local Abbreviation marked := (Encoder.marked FRAME_END TRANSMISSION_FAILED).
Local Abbreviation completes := (Encoder.completes FRAME_END TRANSMISSION_FAILED).
Local Abbreviation with_state := (Encoder.with_state FRAME_END TRANSMISSION_FAILED).
Local Abbreviation encoder_buffer_callback :=
  (Encoder.encoder_buffer_callback FRAME_END TRANSMISSION_FAILED).
Local Abbreviation deliver_all := (Encoder.deliver_all FRAME_END TRANSMISSION_FAILED).

Lemma sink_bytes_app (t1 t2 : list event) :
  sink_bytes (t1 ++ t2) = sink_bytes t1 ++ sink_bytes t2.
Proof.
  induction t1 as [|e t1 IH]; [reflexivity|].
  destruct e; simpl; rewrite IH; try reflexivity. apply app_assoc.
Qed.

Lemma opens_app (t1 t2 : list event) :
  opens (t1 ++ t2) = (opens t1 + opens t2)%nat.
Proof.
  induction t1 as [|e t1 IH]; [reflexivity|].
  destruct e; simpl; rewrite IH; reflexivity.
Qed.

(** What one invocation with user state does to the sink and to the pool. *)
Lemma callback_io (port : MMAL_PORT_T) (b : MMAL_BUFFER_HEADER_T)
    (env : oracle) (s : store) :
  userdata port = Some callback_data ->
  exists s' evs,
    encoder_buffer_callback port b env s = Finished s'
    /\ trace s' = trace s ++ evs
    /\ opens evs = (if outputFileFD s =? -1 then 1%nat else O)
    /\ sink_bytes evs
       = (if writes b env s
          then take (Z.to_nat (wrap32 (write_result env))) (payload b)
          else [])
    /\ posts evs = (if completes b env s then 1%nat else O)
    /\ outputFileFD s' = (if completes b env s then 0 else sink_fd env s)
    /\ queue s' = (if is_enabled port then tail (queue s ++ [b])
                   else queue s ++ [b])
    /\ in_port s'
       = (if is_enabled port && send_ok env
          then in_port s ++ [hd b (queue s ++ [b])] else in_port s).
Proof.
  intros Hud.
  unfold Encoder.encoder_buffer_callback, Encoder.with_state,
    Encoder.completes, writes, sink_fd, payload,
    mmal_buffer_header_release, mmal_queue_get, mmal_port_send_buffer,
    vcos_semaphore_post, emit, set_fd.
  rewrite Hud.
  destruct (outputFileFD s =? -1); simpl;
    match goal with
    | |- context [negb (length b =? 0) && (0 <? ?fd)] =>
        destruct (negb (length b =? 0) && (0 <? fd))
    end; simpl;
    try destruct (to_u32 (wrap32 (write_result env)) =? length b); simpl;
    destruct (marked b); simpl;
    destruct (is_enabled port); simpl;
    destruct (queue s) as [|q0 qs]; simpl;
    destruct (send_ok env); simpl;
    eexists _, _; (split; [reflexivity|]); simpl;
    (split; [trace_eq|]); simpl; rewrite ?app_nil_r; auto 10.
Qed.

(** X8.  The pool under the callback.  The delivered buffer goes to the tail of
    the free queue.  With the port disabled nothing is sent.  With the port
    enabled the head of the queue, the buffer that has been free the
    longest, is taken and sent to the port; when the send fails that buffer
    is in neither place any more.  So the buffers in the queue and at the
    port grow by the delivered one, except when a send fails. *)
Theorem callback_recycles_first_in_first_out (port : MMAL_PORT_T)
    (b : MMAL_BUFFER_HEADER_T) (env : oracle) (s : store) :
  userdata port = Some callback_data ->
  exists s',
    encoder_buffer_callback port b env s = Finished s'
    /\ (is_enabled port = false ->
        queue s' = queue s ++ [b] /\ in_port s' = in_port s)
    /\ (is_enabled port = true ->
        exists nb rest,
          queue s ++ [b] = nb :: rest
          /\ queue s' = rest
          /\ in_port s' = (if send_ok env then in_port s ++ [nb]
                           else in_port s))
    /\ (List.length (queue s') + List.length (in_port s')
        = List.length (queue s) + List.length (in_port s)
          + (if is_enabled port && negb (send_ok env) then 0 else 1))%nat.
Proof.
  intros Hud.
  destruct (callback_io port b env s Hud)
    as (s' & evs & Hcb & _ & _ & _ & _ & _ & Hq & Hp).
  exists s'. split; [exact Hcb|].
  rewrite Hq, Hp.
  destruct (is_enabled port); simpl.
  - split; [discriminate|]. split.
    + intros _. destruct (queue s) as [|q0 qs]; simpl;
        eexists _, _; (split; [reflexivity|]); split; reflexivity.
    + destruct (queue s) as [|q0 qs]; destruct (send_ok env); simpl;
        rewrite ?length_app; simpl; lia.
  - split; [intros _; split; reflexivity|].
    split; [discriminate|]. rewrite length_app. simpl. lia.
Qed.

(** X9.  Once a session is complete ([outputFileFD] is 0) the sink stays shut:
    whatever is delivered afterwards, the callback neither opens the file
    nor writes to it, and [outputFileFD] is still 0 at the end. *)
Theorem closed_sink_stays_closed (port : MMAL_PORT_T) (ds : list delivery)
    (s : store) :
  userdata port = Some callback_data ->
  outputFileFD s = 0 ->
  exists s' evs,
    deliver_all port ds s = Finished s'
    /\ trace s' = trace s ++ evs
    /\ sink_bytes evs = []
    /\ opens evs = O
    /\ outputFileFD s' = 0.
Proof.
  intros Hud. revert s. induction ds as [|d ds IH]; intros s Hfd.
  - exists s, []. simpl. rewrite app_nil_r. repeat split. exact Hfd.
  - destruct (callback_io port (buf d) (env d) s Hud)
      as (s1 & evs1 & Hcb & Htr & Ho & Hb & _ & Hfd1 & _).
    assert (Hs : sink_fd (env d) s = 0) by (unfold sink_fd; rewrite Hfd; reflexivity).
    assert (Hw : writes (buf d) (env d) s = false)
      by (unfold writes; rewrite Hs; apply andb_false_r).
    rewrite Hfd in Ho. rewrite Hw in Hb. rewrite Hs in Hfd1.
    assert (Hfd1' : outputFileFD s1 = 0)
      by (rewrite Hfd1; destruct (completes (buf d) (env d) s); reflexivity).
    destruct (IH s1 Hfd1') as (s' & evs & Hd & Htr' & Hb' & Ho' & Hfd').
    exists s', (evs1 ++ evs). simpl. rewrite Hcb.
    split; [exact Hd|].
    split; [rewrite Htr', Htr, <- app_assoc; reflexivity|].
    rewrite sink_bytes_app, opens_app, Hb, Hb', Ho, Ho'.
    repeat split. exact Hfd'.
Qed.

Lemma clean_session_io (port : MMAL_PORT_T) (last : delivery)
    (ds : list delivery) :
  userdata port = Some callback_data ->
  Forall (fun d => marked (buf d) = false /\ clean d) ds ->
  marked (buf last) = true -> clean last ->
  forall s,
    outputFileFD s = -1 \/ 0 < outputFileFD s ->
    exists s' evs,
      deliver_all port (ds ++ [last]) s = Finished s'
      /\ trace s' = trace s ++ evs
      /\ sink_bytes evs = concat (map (fun d => payload (buf d)) (ds ++ [last]))
      /\ opens evs = (if outputFileFD s =? -1 then 1%nat else O)
      /\ posts evs = 1%nat
      /\ outputFileFD s' = 0.
Proof.
  intros Hud Hds Hml Hcl.
  assert (step : forall d s, clean d ->
            outputFileFD s = -1 \/ 0 < outputFileFD s ->
            0 < sink_fd (env d) s
            /\ (if writes (buf d) (env d) s
                then take (Z.to_nat (wrap32 (write_result (env d))))
                       (payload (buf d))
                else []) = payload (buf d)
            /\ completes (buf d) (env d) s = marked (buf d)).
  { intros d s (Ho & Hl & Hw) Hfd.
    assert (Hs : 0 < sink_fd (env d) s).
    { unfold sink_fd. destruct (Z.eqb_spec (outputFileFD s) (-1));
        [rewrite wrap32_id by int_range|]; lia. }
    split; [exact Hs|].
    unfold Encoder.completes, writes. rewrite Hw.
    rewrite wrap32_id by int_range.
    rewrite to_u32_id by int_range. rewrite Z.eqb_refl.
    destruct (Z.ltb_spec 0 (sink_fd (env d) s)); [|lia].
    rewrite andb_true_r. simpl. rewrite andb_false_r, orb_false_r.
    split; [|reflexivity].
    unfold payload.
    destruct (Z.eqb_spec (length (buf d)) 0) as [E|_]; simpl.
    - rewrite E. reflexivity.
    - rewrite take_take. f_equal. lia. }
  induction Hds as [|d ds [Hm Hc] _ IH]; intros s Hfd.
  - destruct (callback_io port (buf last) (env last) s Hud)
      as (s' & evs & Hcb & Htr & Ho & Hb & Hp & Hfd' & _).
    destruct (step last s Hcl Hfd) as (_ & Hpay & Hcomp).
    rewrite Hcomp, Hml in *. rewrite Hpay in Hb.
    exists s', evs. simpl. rewrite Hcb, app_nil_r.
    repeat split; assumption.
  - destruct (callback_io port (buf d) (env d) s Hud)
      as (s1 & evs1 & Hcb & Htr & Ho & Hb & Hp & Hfd1 & _).
    destruct (step d s Hc Hfd) as (Hs & Hpay & Hcomp).
    rewrite Hcomp, Hm in *. rewrite Hpay in Hb.
    destruct (IH s1) as (s' & evs & Hd & Htr' & Hb' & Ho' & Hp' & Hfd');
      [right; lia|].
    destruct (Z.eqb_spec (outputFileFD s1) (-1)) as [|_]; [lia|].
    exists s', (evs1 ++ evs). simpl. rewrite Hcb.
    split; [exact Hd|].
    split; [rewrite Htr', Htr, <- app_assoc; reflexivity|].
    rewrite sink_bytes_app, opens_app, posts_app, Hb, Hb', Ho, Ho', Hp, Hp'.
    repeat split; [lia | exact Hfd'].
Qed.

(** X10.  The sink of a clean session.  In a session started by [main]
    ([outputFileFD] is -1) in which [open] returns a descriptor from 1 to
    [INT_MAX] (the callback writes only when [outputFileFD > 0]), every
    buffer length fits an [int], every write returns the full length and
    only the last buffer is marked, the file is opened once, the bytes written are
    the payloads of the buffers in the order of delivery, the semaphore is
    posted once and [outputFileFD] is back at 0. *)
Theorem clean_session_writes_payloads_in_order (port : MMAL_PORT_T)
    (ds : list delivery) (last : delivery) (s : store) :
  userdata port = Some callback_data ->
  Forall (fun d => marked (buf d) = false /\ clean d) ds ->
  marked (buf last) = true -> clean last ->
  exists s' evs,
    deliver_all port (ds ++ [last]) (begin_session s) = Finished s'
    /\ trace s' = trace s ++ evs
    /\ sink_bytes evs = concat (map (fun d => payload (buf d)) (ds ++ [last]))
    /\ opens evs = 1%nat
    /\ posts evs = 1%nat
    /\ outputFileFD s' = 0.
Proof.
  intros Hud Hds Hml Hcl.
  destruct (clean_session_io port last ds Hud Hds Hml Hcl (begin_session s))
    as (s' & evs & H); [left; reflexivity|].
  exists s', evs. exact H.
Qed.

(** X11.  When [open] fails the payload is dropped without a sign.  In a session
    in which every [open] returns -1, the callback tries [open] again at
    every buffer, writes nothing, and still completes at the marked buffer
    with the one post of a good session. *)
Theorem failed_open_drops_session (port : MMAL_PORT_T)
    (ds : list delivery) (last : delivery) (s : store) :
  userdata port = Some callback_data ->
  Forall (fun d => marked (buf d) = false /\ open_result (env d) = -1) ds ->
  marked (buf last) = true -> open_result (env last) = -1 ->
  exists s' evs,
    deliver_all port (ds ++ [last]) (begin_session s) = Finished s'
    /\ trace s' = trace s ++ evs
    /\ sink_bytes evs = []
    /\ opens evs = S (List.length ds)
    /\ posts evs = 1%nat
    /\ outputFileFD s' = 0.
Proof.
  intros Hud Hds Hml Hol.
  assert (step : forall d s, outputFileFD s = -1 -> open_result (env d) = -1 ->
            sink_fd (env d) s = -1
            /\ writes (buf d) (env d) s = false
            /\ completes (buf d) (env d) s = marked (buf d)).
  { intros d s0 Hfd Ho.
    assert (Hs : sink_fd (env d) s0 = -1).
    { unfold sink_fd. rewrite Hfd, Ho. simpl. apply wrap32_id. int_range. }
    assert (Hw : writes (buf d) (env d) s0 = false)
      by (unfold writes; rewrite Hs; apply andb_false_r).
    split; [exact Hs|]. split; [exact Hw|].
    unfold Encoder.completes. rewrite Hw. apply orb_false_r. }
  change (trace s) with (trace (begin_session s)).
  assert (Hfd : outputFileFD (begin_session s) = -1) by reflexivity.
  revert Hfd. generalize (begin_session s). clear s.
  induction Hds as [|d ds [Hm Ho] _ IH]; intros s Hfd.
  - destruct (callback_io port (buf last) (env last) s Hud)
      as (s' & evs & Hcb & Htr & Hop & Hb & Hp & Hfd' & _).
    destruct (step last s Hfd Hol) as (Hs & Hw & Hc).
    rewrite Hc, Hml in *. rewrite Hw in Hb. rewrite Hfd in Hop.
    exists s', evs. simpl. rewrite Hcb.
    repeat split; assumption.
  - destruct (callback_io port (buf d) (env d) s Hud)
      as (s1 & evs1 & Hcb & Htr & Hop & Hb & Hp & Hfd1 & _).
    destruct (step d s Hfd Ho) as (Hs & Hw & Hc).
    rewrite Hc, Hm in *. rewrite Hw in Hb. rewrite Hfd in Hop.
    rewrite Hs in Hfd1.
    destruct (IH s1 Hfd1) as (s' & evs & Hd & Htr' & Hb' & Ho' & Hp' & Hfd').
    exists s', (evs1 ++ evs). simpl. rewrite Hcb.
    split; [exact Hd|].
    split; [rewrite Htr', Htr, <- app_assoc; reflexivity|].
    rewrite sink_bytes_app, opens_app, posts_app, Hb, Hb', Hop, Ho', Hp, Hp'.
    repeat split; [exact Hfd'].
Qed.

(** X12.  The callback of the video port gives every buffer back once and does
    nothing else to the session: it posts nothing, opens and writes nothing
    and leaves [outputFileFD] and the semaphore alone.  With the queue in
    place it recycles as the encoder callback does: the delivered buffer to
    the tail, the head of the queue to the port. *)
Theorem opencv_callback_only_recycles (port : VIDEO_PORT_T)
    (b : MMAL_BUFFER_HEADER_T) (env : oracle) (s : store) :
  exists evs,
    trace (video_final (camera_opencv_callback port b env s)) = trace s ++ evs
    /\ released evs = [b]
    /\ posts evs = O
    /\ opens evs = O
    /\ sink_bytes evs = []
    /\ outputFileFD (video_final (camera_opencv_callback port b env s))
       = outputFileFD s
    /\ complete_semaphore (video_final (camera_opencv_callback port b env s))
       = complete_semaphore s
    /\ (video_userdata port = Some opencv_pool_queue ->
        exists s',
          camera_opencv_callback port b env s = VideoFinished s'
          /\ queue s' = (if video_is_enabled port then tail (queue s ++ [b])
                         else queue s ++ [b])
          /\ in_port s'
             = (if video_is_enabled port && send_ok env
                then in_port s ++ [hd b (queue s ++ [b])] else in_port s)).
Proof.
  unfold camera_opencv_callback, mmal_buffer_header_release, mmal_queue_get,
    mmal_port_send_buffer, emit.
  destruct (video_is_enabled port); destruct (video_userdata port) as [[]|];
    destruct (queue s) as [|q0 qs]; destruct (send_ok env); simpl;
    eexists; (split; [trace_eq|]); simpl;
    repeat (split; [reflexivity|]);
    first [ discriminate
          | intros _; eexists; split; [reflexivity|]; split; reflexivity ].
Qed.

End EncoderMore.

(** *** Concrete runs *)
Section EncoderMoreRuns.
Import CInt Encoder.

Lemma callback_recycles_first_in_first_out_witness :
  exists s',
    encoder_buffer_callback 4 1024 encoder_output_port
      (buffer_of [1; 2] 0) (answers 5 2)
      {| outputFileFD := -1; complete_semaphore := 0;
         queue := [buffer_of [] 0; buffer_of [9] 0]; in_port := [];
         trace := [] |} = Finished s'
    /\ (true = false ->
        queue s' = [buffer_of [] 0; buffer_of [9] 0] ++ [buffer_of [1; 2] 0]
        /\ in_port s' = [])
    /\ (true = true ->
        exists nb rest,
          [buffer_of [] 0; buffer_of [9] 0] ++ [buffer_of [1; 2] 0] = nb :: rest
          /\ queue s' = rest
          /\ in_port s' = [] ++ [nb])
    /\ (List.length (queue s') + List.length (in_port s') = 2 + 0 + 1)%nat.
Proof.
  apply (callback_recycles_first_in_first_out 4 1024 encoder_output_port
           (buffer_of [1; 2] 0) (answers 5 2)
           {| outputFileFD := -1; complete_semaphore := 0;
              queue := [buffer_of [] 0; buffer_of [9] 0]; in_port := [];
              trace := [] |}).
  reflexivity.
Defined.

Lemma closed_sink_stays_closed_witness :
  exists s' evs,
    deliver_all 4 1024 encoder_output_port
      [ {| buf := buffer_of [1; 2; 3] 0; env := answers 5 3 |};
        {| buf := buffer_of [4] 4; env := answers 5 1 |} ] idle
    = Finished s'
    /\ trace s' = [] ++ evs
    /\ sink_bytes evs = []
    /\ opens evs = O
    /\ outputFileFD s' = 0.
Proof.
  apply (closed_sink_stays_closed 4 1024 encoder_output_port
           [ {| buf := buffer_of [1; 2; 3] 0; env := answers 5 3 |};
             {| buf := buffer_of [4] 4; env := answers 5 1 |} ] idle);
    reflexivity.
Defined.

Lemma clean_session_writes_payloads_in_order_witness :
  exists s' evs,
    deliver_all 4 1024 encoder_output_port
      ([ {| buf := buffer_of [255; 216] 0; env := answers 5 2 |};
         {| buf := buffer_of [] 0; env := answers 5 0 |};
         {| buf := buffer_of [7; 7; 7] 0; env := answers 5 3 |} ]
       ++ [ {| buf := buffer_of [255; 217] 4; env := answers 5 2 |} ])
      (begin_session idle) = Finished s'
    /\ trace s' = [] ++ evs
    /\ sink_bytes evs = [255; 216; 7; 7; 7; 255; 217]
    /\ opens evs = 1%nat
    /\ posts evs = 1%nat
    /\ outputFileFD s' = 0.
Proof.
  apply (clean_session_writes_payloads_in_order 4 1024 encoder_output_port
           [ {| buf := buffer_of [255; 216] 0; env := answers 5 2 |};
             {| buf := buffer_of [] 0; env := answers 5 0 |};
             {| buf := buffer_of [7; 7; 7] 0; env := answers 5 3 |} ]
           {| buf := buffer_of [255; 217] 4; env := answers 5 2 |} idle);
    try reflexivity.
  - repeat constructor; vm_compute; discriminate.
  - repeat split; vm_compute; discriminate.
Defined.

Lemma failed_open_drops_session_witness :
  exists s' evs,
    deliver_all 4 1024 encoder_output_port
      ([ {| buf := buffer_of [255; 216] 0; env := answers (-1) 2 |} ]
       ++ [ {| buf := buffer_of [255; 217] 4; env := answers (-1) 2 |} ])
      (begin_session idle) = Finished s'
    /\ trace s' = [] ++ evs
    /\ sink_bytes evs = []
    /\ opens evs = 2%nat
    /\ posts evs = 1%nat
    /\ outputFileFD s' = 0.
Proof.
  apply (failed_open_drops_session 4 1024 encoder_output_port
           [ {| buf := buffer_of [255; 216] 0; env := answers (-1) 2 |} ]
           {| buf := buffer_of [255; 217] 4; env := answers (-1) 2 |} idle);
    try reflexivity.
  repeat constructor.
Defined.

End EncoderMoreRuns.

(** ** EXIF tags *)
Section ExifFacts.
Import CInt Exif.

Lemma store_all_spec (tags : list (option string)) :
  forall state : RASPISTILL_STATE,
    0 <= numExifTags state <= MAX_USER_EXIF_TAGS ->
    List.length (exifTags state) = 32%nat ->
    exists state',
      store_all tags state = Some state'
      /\ numExifTags state'
         = Z.min (numExifTags state + Z.of_nat (List.length tags))
             MAX_USER_EXIF_TAGS
      /\ take (Z.to_nat (numExifTags state')) (exifTags state')
         = take (Z.to_nat (numExifTags state)) (exifTags state)
           ++ take (32 - Z.to_nat (numExifTags state)) tags
      /\ List.length (exifTags state') = 32%nat
      /\ camera_name state' = camera_name state
      /\ encoder_component state' = encoder_component state.
Proof.
  unfold MAX_USER_EXIF_TAGS.
  induction tags as [|t rest IH]; intros state Hn Hlen.
  - exists state. simpl. rewrite take_nil, app_nil_r.
    repeat split; [lia | exact Hlen].
  - simpl. unfold store_exif_tag, MAX_USER_EXIF_TAGS.
    destruct (Z.ltb_spec (numExifTags state) 32) as [Hlt|Hge].
    + destruct (Z.ltb_spec (numExifTags state) 0) as [|_]; [lia|].
      set (n := Z.to_nat (numExifTags state)).
      assert (Hn' : (n < 32)%nat) by lia.
      rewrite wrap32_id by int_range.
      match goal with
      | |- context [store_all rest ?x] => destruct (IH x) as (st & Hs & Hnum & Htk & Hl & Hc & He)
      end.
      * simpl. lia.
      * simpl. rewrite length_insert. exact Hlen.
      * exists st. simpl in *. split; [exact Hs|].
        split; [lia|]. split; [|auto].
        rewrite Htk.
        replace (Z.to_nat (numExifTags state + 1)) with (S n) by lia.
        rewrite (take_S_r _ n t)
          by (apply list_lookup_insert_eq; lia).
        rewrite take_insert_ge by lia.
        rewrite <- app_assoc. f_equal.
        replace (32 - n)%nat with (S (32 - S n)) by lia. reflexivity.
    + destruct (IH state) as (st & Hs & Hnum & Htk & Hl & Hc & He);
        [lia | exact Hlen |].
      exists st. split; [exact Hs|]. split; [lia|]. split; [|auto].
      rewrite Htk. f_equal.
      replace (32 - Z.to_nat (numExifTags state))%nat with O by lia.
      reflexivity.
Qed.

(** X13.  [store_exif_tag] keeps the first 32 tags.  Stored one after the other
    into a state that holds none, the first [MAX_USER_EXIF_TAGS] tags of a
    list end up in the array, in order; the later ones are dropped, and the
    count never passes [MAX_USER_EXIF_TAGS]. *)
Theorem store_keeps_first_32 (name : string) (tags : list (option string)) :
  exists state,
    store_all tags (no_tags name) = Some state
    /\ numExifTags state = Z.min (Z.of_nat (List.length tags)) MAX_USER_EXIF_TAGS
    /\ take (Z.to_nat (numExifTags state)) (exifTags state) = take 32 tags
    /\ List.length (exifTags state) = 32%nat.
Proof.
  destruct (store_all_spec tags (no_tags name))
    as (st & Hs & Hnum & Htk & Hl & _).
  - unfold MAX_USER_EXIF_TAGS. simpl. lia.
  - reflexivity.
  - exists st. split; [exact Hs|]. split; [exact Hnum|].
    split; [exact Htk | exact Hl].
Qed.

Lemma string_take_all (n : nat) (s : string) :
  (String.length s <= n)%nat -> string_take n s = s.
Proof.
  revert n. induction s as [|a s IH]; intros [|n] H; simpl in *;
    try reflexivity; try lia.
  f_equal. apply IH. lia.
Qed.

Lemma string_take_length (n : nat) (s : string) :
  (String.length (string_take n s) <= n)%nat.
Proof.
  revert s. induction n as [|n IH]; intros [|a s]; simpl; try lia.
  specialize (IH s). lia.
Qed.

Lemma add_exif_tag_cases (MMAL_EINVAL size_of_header : Z)
    (state : RASPISTILL_STATE) (exif_tag : option string) (w : world) :
  encoder_component state = true ->
  calloc_ok w (callocs (trace w)) = true ->
  (acceptable exif_tag = false ->
   add_exif_tag MMAL_EINVAL size_of_header state exif_tag w
   = Returned MMAL_EINVAL (emit EvCalloc w))
  /\ (forall tag,
        exif_tag = Some tag -> acceptable exif_tag = true ->
        add_exif_tag MMAL_EINVAL size_of_header state exif_tag w
        = Returned (set_status w (List.length (sets (trace w))))
            (emit EvFree
               (emit (EvSetExif tag
                        (to_u32 (size_of_header
                                 + Z.of_nat (String.length tag))))
                  (emit EvCalloc w)))).
Proof.
  intros He Hc. unfold add_exif_tag, acceptable, MAX_EXIF_PAYLOAD_LENGTH.
  split.
  - destruct exif_tag as [tag|]; [|reflexivity].
    intros Ha.
    destruct (has_char equals_sign tag); simpl in *; [|reflexivity].
    destruct (Z.leb_spec (Z.of_nat (String.length tag)) (128 - 1));
      [discriminate|].
    destruct (Z.ltb_spec (128 - 1) (Z.of_nat (String.length tag)));
      [reflexivity | lia].
  - intros tag -> Ha.
    apply andb_true_iff in Ha as [Heq Hlen]. rewrite Heq. simpl.
    apply Z.leb_le in Hlen.
    destruct (Z.ltb_spec (128 - 1) (Z.of_nat (String.length tag))); [lia|].
    rewrite Hc, He. simpl.
    unfold strncpy. rewrite string_take_all by lia.
    replace (sets (trace w ++ [EvCalloc])) with (sets (trace w)).
    + reflexivity.
    + clear. induction (trace w) as [|e t IH]; [reflexivity|].
      destruct e; simpl; rewrite <- IH; reflexivity.
Qed.


(** X14.  [add_exif_tag] refuses or passes on untouched.  A tag that is NULL,
    has no ['='] or is longer than 127 characters gets [MMAL_EINVAL]:
    nothing reaches the encoder and the block just allocated is not freed.
    Any other tag reaches the encoder whole, never cut, under the size of
    the header plus its length; the block is freed and the status of the
    set is returned. *)
Theorem add_exif_tag_refuses_or_passes_verbatim (MMAL_EINVAL size_of_header : Z)
    (state : RASPISTILL_STATE) (exif_tag : option string) (w : world) :
  encoder_component state = true ->
  calloc_ok w (callocs (trace w)) = true ->
  (acceptable exif_tag = false ->
   add_exif_tag MMAL_EINVAL size_of_header state exif_tag w
   = Returned MMAL_EINVAL (emit EvCalloc w))
  /\ (forall tag,
        exif_tag = Some tag -> acceptable exif_tag = true ->
        add_exif_tag MMAL_EINVAL size_of_header state exif_tag w
        = Returned (set_status w (List.length (sets (trace w))))
            (emit EvFree
               (emit (EvSetExif tag
                        (to_u32 (size_of_header
                                 + Z.of_nat (String.length tag))))
                  (emit EvCalloc w)))).
Proof. apply add_exif_tag_cases. Qed.

Lemma sets_app (t1 t2 : list event) : sets (t1 ++ t2) = sets t1 ++ sets t2.
Proof.
  induction t1 as [|e t1 IH]; [reflexivity|].
  destruct e; simpl; rewrite IH; reflexivity.
Qed.

(** One call whose status is dropped, in a world where [calloc] never
    fails. *)
Lemma then_add_spec (MMAL_EINVAL size_of_header : Z) (state : RASPISTILL_STATE)
    (exif_tag : option string) (x : Z) (w : world) :
  encoder_component state = true ->
  (forall n, calloc_ok w n = true) ->
  exists x' w',
    then_add MMAL_EINVAL size_of_header state exif_tag (Returned x w)
    = Returned x' w'
    /\ (forall n, calloc_ok w' n = true)
    /\ sets (trace w')
       = sets (trace w) ++ accepted [exif_tag].
Proof.
  intros He Hc.
  destruct (add_exif_tag_cases MMAL_EINVAL size_of_header state exif_tag w
              He (Hc _)) as [Hno Hyes].
  unfold accepted. simpl.
  destruct (acceptable exif_tag) eqn:Ha.
  - destruct exif_tag as [tag|]; [|discriminate].
    rewrite (Hyes tag eq_refl eq_refl).
    eexists _, _. split; [reflexivity|]. split; [exact Hc|].
    simpl. rewrite !sets_app. simpl. rewrite !app_nil_r. reflexivity.
  - rewrite (Hno eq_refl).
    eexists _, _. split; [reflexivity|]. split; [exact Hc|].
    simpl. rewrite sets_app. simpl.
    destruct exif_tag; rewrite !app_nil_r; reflexivity.
Qed.

Lemma accepted_app (l1 l2 : list (option string)) :
  accepted (l1 ++ l2) = accepted l1 ++ accepted l2.
Proof. apply omap_app. Qed.

Lemma user_tags_loop_spec (MMAL_EINVAL size_of_header : Z)
    (state : RASPISTILL_STATE) :
  encoder_component state = true ->
  List.length (exifTags state) = 32%nat ->
  0 <= numExifTags state <= MAX_USER_EXIF_TAGS ->
  forall (fuel : nat) (i x : Z) (w : world),
    0 <= i ->
    32 - i <= Z.of_nat fuel ->
    (forall n, calloc_ok w n = true) ->
    exists x' w',
      user_tags_loop MMAL_EINVAL size_of_header state i fuel (Returned x w)
      = Returned x' w'
      /\ sets (trace w')
         = sets (trace w)
           ++ accepted (drop (Z.to_nat i)
                          (take (Z.to_nat (numExifTags state))
                             (exifTags state))).
Proof.
  unfold MAX_USER_EXIF_TAGS. intros He Hlen Hn.
  assert (Hout : forall i, numExifTags state <= i ->
            drop (Z.to_nat i)
              (take (Z.to_nat (numExifTags state)) (exifTags state)) = []).
  { intros i Hi. apply drop_ge. rewrite length_take. lia. }
  induction fuel as [|fuel IH]; intros i x w Hi Hfuel Hc.
  - exists x, w. simpl. rewrite Hout by lia.
    unfold accepted. simpl. rewrite app_nil_r. split; reflexivity.
  - cbn [user_tags_loop]. unfold MAX_USER_EXIF_TAGS.
    destruct (Z.ltb_spec i (numExifTags state)) as [Hlt|Hge]; cbn [andb].
    + destruct (Z.ltb_spec i 32) as [_|]; [|lia].
      destruct (lookup_lt_is_Some_2 (exifTags state) (Z.to_nat i))
        as [e He']; [lia|].
      rewrite He'. cbn [from_option id].
      assert (Hd : drop (Z.to_nat i)
                     (take (Z.to_nat (numExifTags state)) (exifTags state))
                   = e :: drop (S (Z.to_nat i))
                            (take (Z.to_nat (numExifTags state))
                               (exifTags state))).
      { apply drop_S. rewrite lookup_take_lt by lia. exact He'. }
      rewrite Hd. change (e :: ?l) with ([e] ++ l).
      rewrite accepted_app.
      rewrite wrap32_id by int_range.
      replace (S (Z.to_nat i)) with (Z.to_nat (i + 1)) by lia.
      destruct (then_add_spec MMAL_EINVAL size_of_header state e x w He Hc)
        as (x1 & w1 & Hadd & Hc1 & Hs1).
      destruct e as [tag|].
      * rewrite Hadd.
        destruct (IH (i + 1) x1 w1) as (x' & w' & Hl & Hs);
          [lia | lia | exact Hc1 |].
        exists x', w'. split; [exact Hl|].
        rewrite Hs, Hs1, <- app_assoc. reflexivity.
      * destruct (IH (i + 1) x w) as (x' & w' & Hl & Hs);
          [lia | lia | exact Hc |].
        exists x', w'. split; [exact Hl|].
        rewrite Hs. reflexivity.
    + exists x, w. rewrite Hout by lia.
      unfold accepted. simpl. rewrite app_nil_r. split; reflexivity.
Qed.

(** X15.  What the encoder is sent.  After the user's tags have been stored into
    an empty state, [add_exif_tags] hands the encoder the model, the make
    and three dates, and then those of the first 32 stored tags that
    [add_exif_tag] accepts, in the order they were stored; the others are
    passed over without a sign. *)
Theorem add_exif_tags_sends_stored_tags (MMAL_EINVAL size_of_header : Z)
    (name : string) (tags : list (option string)) (timeinfo : tm)
    (status : Z) :
  exists state x w' time_buf,
    store_all tags (no_tags name) = Some state
    /\ add_exif_tags MMAL_EINVAL size_of_header state timeinfo
         (kind_world status) = Returned x w'
    /\ sets (trace w')
       = [ snprintf 32 ("IFD0.Model=RP_" +:+ name);
           "IFD0.Make=RaspberryPi";
           snprintf 128 ("EXIF.DateTimeDigitized=" +:+ time_buf);
           snprintf 128 ("EXIF.DateTimeOriginal=" +:+ time_buf);
           snprintf 128 ("IFD0.DateTime=" +:+ time_buf) ]
         ++ accepted (take 32 tags).
Proof.
  destruct (store_all_spec tags (no_tags name))
    as (st & Hs & Hnum & Htk & Hl & Hname & Henc).
  { unfold MAX_USER_EXIF_TAGS. simpl. lia. }
  { reflexivity. }
  simpl in Htk, Hname, Henc, Hnum.
  pose (time_buf :=
          snprintf 32
            (fmt_0d 4 (wrap32 (tm_year timeinfo + 1900)) +:+ ":"
             +:+ fmt_0d 2 (wrap32 (tm_mon timeinfo + 1)) +:+ ":"
             +:+ fmt_0d 2 (tm_mday timeinfo) +:+ " "
             +:+ fmt_0d 2 (tm_hour timeinfo) +:+ ":"
             +:+ fmt_0d 2 (tm_min timeinfo) +:+ ":"
             +:+ fmt_0d 2 (tm_sec timeinfo))).
  exists st.
  cut (exists x w',
         add_exif_tags MMAL_EINVAL size_of_header st timeinfo
           (kind_world status) = Returned x w'
         /\ sets (trace w')
            = [ snprintf 32 ("IFD0.Model=RP_" +:+ name);
                "IFD0.Make=RaspberryPi";
                snprintf 128 ("EXIF.DateTimeDigitized=" +:+ time_buf);
                snprintf 128 ("EXIF.DateTimeOriginal=" +:+ time_buf);
                snprintf 128 ("IFD0.DateTime=" +:+ time_buf) ]
              ++ accepted (take 32 tags)).
  { intros (x & w' & H1 & H2). exists x, w', time_buf. auto. }
  unfold add_exif_tags. rewrite Hname. fold time_buf.
  clearbody time_buf.
  assert (Hlen128 : forall s, Z.of_nat (String.length (snprintf 128 s)) <= 127).
  { intros s0. pose proof (string_take_length (Z.to_nat (128 - 1)) s0).
    unfold snprintf. lia. }
  assert (Hlen32 : forall s, Z.of_nat (String.length (snprintf 32 s)) <= 127).
  { intros s0. pose proof (string_take_length (Z.to_nat (32 - 1)) s0).
    unfold snprintf. lia. }
  assert (K : forall n, calloc_ok (kind_world status) n = true)
    by reflexivity.
  set (model := snprintf 32 ("IFD0.Model=RP_" +:+ name)).
  set (d1 := snprintf 128 ("EXIF.DateTimeDigitized=" +:+ time_buf)).
  set (d2 := snprintf 128 ("EXIF.DateTimeOriginal=" +:+ time_buf)).
  set (d3 := snprintf 128 ("IFD0.DateTime=" +:+ time_buf)).
  assert (Am : acceptable (Some model) = true).
  { unfold acceptable. apply andb_true_iff. split.
    - subst model. vm_compute. reflexivity.
    - apply Z.leb_le. apply Hlen32. }
  assert (Ak : acceptable (Some "IFD0.Make=RaspberryPi") = true)
    by (vm_compute; reflexivity).
  assert (A1 : acceptable (Some d1) = true).
  { unfold acceptable. apply andb_true_iff. split.
    - subst d1. vm_compute. reflexivity.
    - apply Z.leb_le. apply Hlen128. }
  assert (A2 : acceptable (Some d2) = true).
  { unfold acceptable. apply andb_true_iff. split.
    - subst d2. vm_compute. reflexivity.
    - apply Z.leb_le. apply Hlen128. }
  assert (A3 : acceptable (Some d3) = true).
  { unfold acceptable. apply andb_true_iff. split.
    - subst d3. vm_compute. reflexivity.
    - apply Z.leb_le. apply Hlen128. }
  clearbody model d1 d2 d3.
  destruct (then_add_spec MMAL_EINVAL size_of_header st (Some model) 0
              (kind_world status) Henc K) as (x0 & w0 & H0 & K0 & S0).
  cbn [then_add] in H0. rewrite H0.
  destruct (then_add_spec MMAL_EINVAL size_of_header st
              (Some "IFD0.Make=RaspberryPi") x0 w0 Henc K0)
    as (x1 & w1 & H1 & K1 & S1).
  rewrite H1.
  destruct (then_add_spec MMAL_EINVAL size_of_header st (Some d1) x1 w1
              Henc K1) as (x2 & w2 & H2 & K2 & S2).
  rewrite H2.
  destruct (then_add_spec MMAL_EINVAL size_of_header st (Some d2) x2 w2
              Henc K2) as (x3 & w3 & H3 & K3 & S3).
  rewrite H3.
  destruct (then_add_spec MMAL_EINVAL size_of_header st (Some d3) x3 w3
              Henc K3) as (x4 & w4 & H4 & K4 & S4).
  rewrite H4.
  destruct (user_tags_loop_spec MMAL_EINVAL size_of_header st Henc Hl)
    with (fuel := Z.to_nat MAX_USER_EXIF_TAGS) (i := 0) (x := x4) (w := w4)
    as (x' & w' & Hloop & Sl);
    [unfold MAX_USER_EXIF_TAGS in *; lia | lia
    | unfold MAX_USER_EXIF_TAGS; lia | exact K4 |].
  exists x', w'.
  split; [exact Hloop|].
  assert (One : forall t, acceptable (Some t) = true ->
                          accepted [Some t] = [t]).
  { intros t Ht.
    change (accepted [Some t])
      with (match (if acceptable (Some t) then Some t else None) with
            | Some y => [y]
            | None => []
            end).
    rewrite Ht. reflexivity. }
  rewrite Sl, S4, S3, S2, S1, S0.
  rewrite !One by assumption.
  rewrite Htk. simpl. reflexivity.
Qed.

(** *** Concrete runs *)

Lemma add_exif_tag_refuses_or_passes_verbatim_witness :
  add_exif_tag 3 8 (no_tags "OV5647") (Some "NoEqualsSign") (kind_world 0)
  = Returned 3 (emit EvCalloc (kind_world 0))
  /\ add_exif_tag 3 8 (no_tags "OV5647") (Some "EXIF.UserComment=left")
       (kind_world 0)
     = Returned 0
         (emit EvFree
            (emit (EvSetExif "EXIF.UserComment=left" (8 + 21))
               (emit EvCalloc (kind_world 0)))).
Proof.
  split.
  - apply (add_exif_tag_refuses_or_passes_verbatim 3 8 (no_tags "OV5647")
             (Some "NoEqualsSign") (kind_world 0));
      reflexivity.
  - apply (add_exif_tag_refuses_or_passes_verbatim 3 8 (no_tags "OV5647")
             (Some "EXIF.UserComment=left") (kind_world 0)
             eq_refl eq_refl).
    + reflexivity.
    + reflexivity.
Defined.

End ExifFacts.


(** ** Start-up and shut-down *)
Section StartupFacts.
Import CInt Startup.

Variable MMAL_SUCCESS MMAL_ENOSYS : Z.
Variable EX_OK EX_SOFTWARE : Z.
Variable MAX_STR_LEN : Z.
Variable VCOS_ALIGN_UP : Z -> Z -> Z.
Hypothesis ENOSYS_is_an_error : MMAL_ENOSYS <> MMAL_SUCCESS.

Local Abbreviation ok := (Startup.ok MMAL_SUCCESS).
Local Abbreviation create_camera_component :=
  (Startup.create_camera_component MMAL_SUCCESS MMAL_ENOSYS VCOS_ALIGN_UP).
Local Abbreviation create_encoder_component :=
  (Startup.create_encoder_component MMAL_SUCCESS MMAL_ENOSYS).
Local Abbreviation connect_ports := (Startup.connect_ports MMAL_SUCCESS).
Local Abbreviation default_status :=
  (Startup.default_status MMAL_SUCCESS MAX_STR_LEN).
Local Abbreviation send_buffers := (Startup.send_buffers MMAL_SUCCESS).
Local Abbreviation main :=
  (Startup.main MMAL_SUCCESS MMAL_ENOSYS EX_OK EX_SOFTWARE MAX_STR_LEN
     VCOS_ALIGN_UP).
Local Abbreviation connection_stage :=
  (Startup.connection_stage MMAL_SUCCESS MMAL_ENOSYS MAX_STR_LEN
     VCOS_ALIGN_UP).

Lemma destroys_app (c : component) (t1 t2 : list event) :
  destroys c (t1 ++ t2) = (destroys c t1 + destroys c t2)%nat.
Proof. unfold destroys. rewrite List.filter_app, length_app. reflexivity. Qed.

Lemma enables_app (c : component) (t1 t2 : list event) :
  enables c (t1 ++ t2) = (enables c t1 + enables c t2)%nat.
Proof. unfold enables. rewrite List.filter_app, length_app. reflexivity. Qed.

Lemma connection_destroys_app (c : connection) (t1 t2 : list event) :
  connection_destroys c (t1 ++ t2)
  = (connection_destroys c t1 + connection_destroys c t2)%nat.
Proof.
  unfold connection_destroys. rewrite List.filter_app, length_app.
  reflexivity.
Qed.

Lemma plain_counts (evs : list event) :
  forallb plain evs = true ->
  (forall c, destroys c evs = O) /\ (forall c, enables c evs = O)
  /\ (forall c, connection_destroys c evs = O).
Proof.
  induction evs as [|e evs IH]; [auto|].
  cbn [forallb]. intros H. apply andb_true_iff in H as [He H].
  destruct (IH H) as (I1 & I2 & I3).
  unfold destroys, enables, connection_destroys in *.
  repeat split; intros c; cbn [List.filter];
    destruct e; try discriminate He; destruct c; simpl; auto.
Qed.

Lemma ok_spec (status : Z) :
  (ok status = true /\ status = MMAL_SUCCESS)
  \/ (ok status = false /\ status <> MMAL_SUCCESS).
Proof.
  unfold Startup.ok. destruct (Z.eqb_spec status MMAL_SUCCESS); auto.
Qed.

Lemma send_buffers_spec (env : oracle) (n : nat) :
  forall (q : Z) (s : sys),
  exists evs,
    trace (send_buffers env q n s) = trace s ++ evs
    /\ state (send_buffers env q n s) = state s
    /\ video_enabled (send_buffers env q n s) = video_enabled s
    /\ forallb plain evs = true.
Proof.
  induction n as [|n IH]; intros q s.
  - exists []. cbn [Startup.send_buffers]. rewrite app_nil_r. auto.
  - cbn [Startup.send_buffers].
    match goal with
    | |- context [Startup.send_buffers _ _ ?q' n ?s'] =>
        destruct (IH q' s') as (evs & Ht & Hs & Hv & Hp);
        rewrite Ht, Hs, Hv
    end.
    unfold vcos_log_error.
    destruct (video_buffer env q), (ok (video_send_status env q)); simpl;
      eexists; (split; [rewrite <- ?app_assoc; simpl; reflexivity|]);
      simpl; auto.
Qed.

Lemma default_status_spec (env : oracle) (s s0 : sys) :
  default_status env s = Done s0 ->
  exists evs,
    trace s0 = trace s ++ evs
    /\ video_enabled s0 = video_enabled s
    /\ preview_component (state s0) = (preview_defaults env).2
    /\ camera_component (state s0) = false
    /\ encoder_component (state s0) = false
    /\ encoder_pool (state s0) = false
    /\ preview_connection (state s0) = false
    /\ encoder_connection (state s0) = false
    /\ destroys Camera evs = O /\ destroys Encoder evs = O
    /\ enables Camera evs = O
    /\ (forall c, connection_destroys c evs = O).
Proof.
  unfold Startup.default_status, set_sensor_defaults, vcos_log_error.
  destruct (ok (info_create_status env)); simpl.
  - destruct (info_created env); simpl; [|discriminate].
    destruct (ok (info_first_get_status env)); simpl.
    + intros H. injection H as <-. eexists. split; [trace_eq|].
      simpl. repeat split; auto; intros []; reflexivity.
    + destruct (ok (info_second_get_status env) && (0 <? info_num_cameras env));
        simpl; intros H; injection H as <-; eexists;
        (split; [trace_eq|]); simpl; repeat split; auto;
        intros []; reflexivity.
  - intros H. injection H as <-. eexists. split; [trace_eq|].
    simpl. repeat split; auto; intros []; reflexivity.
Qed.

Ltac creation_leaf :=
  let H := fresh "H" in
  intros H; injection H as <- <-; eexists; (split; [trace_eq|]); simpl;
  (repeat split; auto; try (intros []; reflexivity); try congruence).

(** What [create_camera_component] leaves behind. *)
Lemma create_camera_component_spec (env : oracle) (s : sys) (status : Z)
    (s' : sys) :
  create_camera_component env s = Status status s' ->
  exists evs,
    trace s' = trace s ++ evs
    /\ destroys Encoder evs = O
    /\ (forall c, connection_destroys c evs = O)
    /\ ((enables Camera evs = O /\ state s' = state s)
        \/ (enables Camera evs = 1%nat
            /\ state s' = set_camera_component true (state s)))
    /\ (status <> MMAL_SUCCESS ->
        video_enabled s' = video_enabled s
        /\ destroys Camera evs = (if cam_created env then 1%nat else O))
    /\ (status = MMAL_SUCCESS ->
        video_enabled s' = true
        /\ destroys Camera evs = O
        /\ enables Camera evs = 1%nat
        /\ state s' = set_camera_component true (state s)).
Proof.
  unfold Startup.create_camera_component, camera_error, vcos_log_error.
  destruct (ok_spec (cam_create_status env)) as [[-> E1]|[-> E1]]; simpl.
  2:{ destruct (cam_created env); creation_leaf. }
  destruct (cam_created env); simpl; [|discriminate].
  destruct (ok_spec (cam_select_status env)) as [[-> E2]|[-> E2]]; simpl;
    [|creation_leaf].
  destruct (cam_output_num env =? 0); simpl; [creation_leaf|].
  destruct (ok_spec (cam_sensor_status env)) as [[-> E3]|[-> E3]]; simpl;
    [|creation_leaf].
  destruct (cam_output_num env <? 3); simpl; [discriminate|].
  destruct (video_commit_adjust env 4 _) as [buffer_num buffer_size].
  destruct (ok_spec (cam_control_enable_status env)) as [[-> E4]|[-> E4]];
    simpl.
  2:{ destruct (settings (state s) =? 0); [creation_leaf|].
      destruct (ok (cam_settings_status env)); creation_leaf. }
  destruct (ok_spec (preview_commit_status env)) as [[-> E5]|[-> E5]]; simpl.
  2:{ destruct (settings (state s) =? 0); [creation_leaf|].
      destruct (ok (cam_settings_status env)); creation_leaf. }
  destruct (ok_spec (video_commit_status env)) as [[-> E6]|[-> E6]]; simpl.
  2:{ destruct (settings (state s) =? 0); [creation_leaf|].
      destruct (ok (cam_settings_status env)); creation_leaf. }
  destruct (ok_spec (still_commit_status env)) as [[-> E7]|[-> E7]]; simpl.
  2:{ destruct (settings (state s) =? 0); [creation_leaf|].
      destruct (ok (cam_settings_status env)); creation_leaf. }
  destruct (ok_spec (cam_enable_status env)) as [[-> E8]|[-> E8]]; simpl.
  2:{ destruct (video_pool env);
      (destruct (settings (state s) =? 0); [creation_leaf|]);
      destruct (ok (cam_settings_status env)); creation_leaf. }
  destruct (ok_spec (video_enable_status env)) as [[-> E9]|[-> E9]]; simpl.
  2:{ destruct (video_pool env);
      (destruct (settings (state s) =? 0); [creation_leaf|]);
      destruct (ok (cam_settings_status env)); creation_leaf. }
  destruct (video_pool env) as [num|]; [|discriminate].
  intros H. injection H as <- <-.
  match goal with
  | |- context [Startup.send_buffers _ env 0 ?n ?s0] =>
      destruct (send_buffers_spec env n 0 s0) as (evs & Ht & Hs & Hv & Hp);
      remember (Startup.send_buffers MMAL_SUCCESS env 0 n s0) as sent
  end.
  destruct (plain_counts _ Hp) as (P1 & P2 & P3).
  cbn [trace emit state video_enabled update set_video_enabled] in *.
  rewrite Ht, Hs.
  destruct (settings (state s) =? 0);
    [|destruct (ok (cam_settings_status env))];
    cbn [trace emit state video_enabled update set_video_enabled];
    rewrite <- ?app_assoc; eexists; (split; [reflexivity|]);
    rewrite ?destroys_app, ?enables_app, ?P1, ?P2;
    (repeat split; auto; try congruence;
     try (intros c; rewrite ?connection_destroys_app, ?P3; destruct c;
          reflexivity)).
Qed.

(** What [create_encoder_component] leaves behind. *)
Lemma create_encoder_component_spec (env : oracle) (s : sys) (status : Z)
    (s' : sys) :
  create_encoder_component env s = Status status s' ->
  exists evs,
    trace s' = trace s ++ evs
    /\ video_enabled s' = video_enabled s
    /\ destroys Camera evs = O
    /\ enables Camera evs = O
    /\ (forall c, connection_destroys c evs = O)
    /\ (status <> MMAL_SUCCESS ->
        state s' = state s
        /\ destroys Encoder evs = (if enc_created env then 1%nat else O))
    /\ (status = MMAL_SUCCESS ->
        state s' = set_encoder_component true
                     (set_encoder_pool (enc_pool env) (state s))
        /\ destroys Encoder evs = O
        /\ In (EvPoolCreate EncoderOutput
                 (Z.max (enc_num_recommended env) (enc_num_min env))
                 (Z.max (enc_size_recommended env) (enc_size_min env))) evs
        /\ enc_create_status env = MMAL_SUCCESS
        /\ enc_commit_status env = MMAL_SUCCESS
        /\ enc_quality_status env = MMAL_SUCCESS
        /\ enc_enable_status env = MMAL_SUCCESS
        /\ enc_input_num env <> 0 /\ enc_output_num env <> 0).
Proof.
  unfold Startup.create_encoder_component, encoder_error, vcos_log_error.
  destruct (ok_spec (enc_create_status env)) as [[-> E1]|[-> E1]]; simpl.
  2:{ destruct (enc_created env); creation_leaf. }
  destruct (enc_created env); simpl; [|discriminate].
  destruct (Z.eqb_spec (enc_input_num env) 0) as [I0|I0]; simpl;
    [creation_leaf|].
  destruct (Z.eqb_spec (enc_output_num env) 0) as [O0|O0]; simpl;
    [creation_leaf|].
  destruct (ok_spec (enc_commit_status env)) as [[-> E2]|[-> E2]]; simpl;
    [|creation_leaf].
  destruct (ok_spec (enc_quality_status env)) as [[-> E3]|[-> E3]]; simpl;
    [|creation_leaf].
  destruct (ok_spec (enc_enable_status env)) as [[-> E4]|[-> E4]]; simpl;
    [|creation_leaf].
  assert (Hmax : forall a b, (if a <? b then b else a) = Z.max a b).
  { intros a b. destruct (Z.ltb_spec a b); lia. }
  rewrite !Hmax.
  destruct (enc_pool env); creation_leaf.
  all: simpl; auto 10.
Qed.

Lemma connect_ports_spec (env : oracle) (c : connection) (s : sys)
    (status : Z) (s' : sys) :
  connect_ports env c s = Status status s' ->
  exists evs,
    trace s' = trace s ++ evs
    /\ video_enabled s' = video_enabled s
    /\ state s' = set_connection c (conn_created env c) (state s)
    /\ (forall k, destroys k evs = O)
    /\ (forall k, enables k evs = O)
    /\ (forall c', c' <> c -> connection_destroys c' evs = O)
    /\ (status = MMAL_SUCCESS ->
        conn_created env c = true /\ connection_destroys c evs = O)
    /\ (status <> MMAL_SUCCESS ->
        connection_destroys c evs
        = (if ok (conn_create_status env c) then 1%nat else O)).
Proof.
  unfold Startup.connect_ports.
  destruct (ok_spec (conn_create_status env c)) as [[-> E1]|[-> E1]]; simpl.
  2:{ intros H. injection H as <- <-. eexists. (split; [trace_eq|]).
      simpl. repeat split; auto; try congruence; intros []; reflexivity. }
  destruct (conn_created env c) eqn:Ec; simpl; [|discriminate].
  destruct (ok_spec (conn_enable_status env c)) as [[-> E2]|[-> E2]]; simpl;
    intros H; injection H as <- <-; eexists; (split; [trace_eq|]); simpl;
    (repeat split; auto; try congruence; try (intros []; reflexivity)).
  - intros c' Hc. destruct c, c'; try reflexivity; congruence.
  - destruct c; reflexivity.
Qed.


(** What [main] does from its [error:] label on. *)
Lemma shut_down_spec (env : oracle) (ports : bool) (code : Z) (s : sys) :
  (encoder_pool (state s) = true -> encoder_component (state s) = true) ->
  exists s',
    shut_down env ports code s = Exit code s'
    /\ destroys Camera (trace s')
       = (destroys Camera (trace s)
          + (if camera_component (state s) then 1 else 0))%nat
    /\ destroys Encoder (trace s')
       = (destroys Encoder (trace s)
          + (if encoder_component (state s) then 1 else 0))%nat
    /\ (forall c, connection_destroys c (trace s')
                  = (connection_destroys c (trace s)
                     + (if get_connection c (state s) then 1 else 0))%nat)
    /\ enables Camera (trace s') = enables Camera (trace s)
    /\ camera_component (state s') = false
    /\ encoder_component (state s') = false.
Proof.
  unfold shut_down, check_disable_video_port, destroy_encoder_component,
    destroy_camera_component, raspipreview_destroy.
  destruct s as [st v t]. destruct st. cbn. intros H.
  destruct (ports && v), preview_component0, camera_component0,
    encoder_component0, encoder_pool0, preview_connection0,
    encoder_connection0; cbn;
    try (specialize (H eq_refl); discriminate H);
    eexists; (split; [reflexivity|]);
    unfold destroys, enables, connection_destroys; cbn;
    rewrite ?List.filter_app, ?length_app; cbn;
    (repeat split; try lia;
     intros []; rewrite ?List.filter_app, ?length_app; cbn; lia).
Qed.

Lemma shut_down_never_captures (env : oracle) (ports : bool) (code : Z)
    (s s' : sys) :
  shut_down env ports code s <> CaptureLoop s'.
Proof.
  unfold shut_down.
  match goal with
  | |- context [destroy_encoder_component ?x] =>
      destruct (destroy_encoder_component x)
  end; discriminate.
Qed.

Ltac walk :=
  repeat (progress
    (cbn -[destroys enables connection_destroys];
     repeat match goal with
     | H : state _ = _ |- _ => rewrite H
     | H : trace _ = _ |- _ => rewrite H
     | H : video_enabled _ = _ |- _ => rewrite H
     | H : camera_component (state _) = _ |- _ => rewrite H
     | H : encoder_component (state _) = _ |- _ => rewrite H
     | H : encoder_pool (state _) = _ |- _ => rewrite H
     | H : preview_component (state _) = _ |- _ => rewrite H
     | H : preview_connection (state _) = _ |- _ => rewrite H
     | H : encoder_connection (state _) = _ |- _ => rewrite H
     end;
     rewrite ?destroys_app, ?enables_app, ?connection_destroys_app)).

(** X16.  [create_encoder_component] is all or nothing.  When it fails the state
    is as it was and the encoder, if it had been created, is destroyed once;
    when it succeeds every call it checks has succeeded, the pool has been
    asked for with the larger of the recommended and the minimal number and
    size, and the state holds the encoder and the pool, which may be NULL. *)
Theorem create_encoder_component_all_or_nothing (env : oracle) (s : sys)
    (status : Z) (s' : sys) :
  create_encoder_component env s = Status status s' ->
  exists evs,
    trace s' = trace s ++ evs
    /\ video_enabled s' = video_enabled s
    /\ destroys Camera evs = O
    /\ enables Camera evs = O
    /\ (forall c, connection_destroys c evs = O)
    /\ (status <> MMAL_SUCCESS ->
        state s' = state s
        /\ destroys Encoder evs = (if enc_created env then 1%nat else O))
    /\ (status = MMAL_SUCCESS ->
        state s' = set_encoder_component true
                     (set_encoder_pool (enc_pool env) (state s))
        /\ destroys Encoder evs = O
        /\ In (EvPoolCreate EncoderOutput
                 (Z.max (enc_num_recommended env) (enc_num_min env))
                 (Z.max (enc_size_recommended env) (enc_size_min env))) evs
        /\ enc_create_status env = MMAL_SUCCESS
        /\ enc_commit_status env = MMAL_SUCCESS
        /\ enc_quality_status env = MMAL_SUCCESS
        /\ enc_enable_status env = MMAL_SUCCESS
        /\ enc_input_num env <> 0 /\ enc_output_num env <> 0).
Proof. apply create_encoder_component_spec. Qed.

(** X17.  A failure of [create_camera_component] makes [main] return
    [EX_SOFTWARE]; the camera is destroyed once if it was created, and once
    more if [mmal_component_enable] had been reached, the pointer being
    stored in the state before that call. *)
Theorem camera_failure_exits_with_software_error (env : oracle)
    (s0 : sys) (status : Z) (s1 : sys) :
  default_status env power_on = Done s0 ->
  create_camera_component env s0 = Status status s1 ->
  status <> MMAL_SUCCESS ->
  exists s,
    main env = Exit EX_SOFTWARE s
    /\ destroys Camera (trace s)
       = ((if cam_created env then 1 else 0) + enables Camera (trace s))%nat
    /\ (enables Camera (trace s) <= 1)%nat
    /\ camera_component (state s) = false.
Proof.
  intros D C Hs. unfold Startup.main. rewrite D, C.
  destruct (ok_spec status) as [[_ ?]|[-> _]]; [congruence|]. cbn [negb].
  destruct (default_status_spec _ _ _ D)
    as (evs0 & T0 & V0 & Pv & Cam & Enc & Pool & Pc & Ec & D1 & D2 & E0 & D3).
  destruct (create_camera_component_spec _ _ _ _ C)
    as (evs1 & T1 & D4 & D5 & St & Fail & _).
  destruct (Fail Hs) as [V1 D6].
  destruct (shut_down_spec env false EX_SOFTWARE
              (vcos_log_error "main: Failed to create camera component" s1))
    as (s & R & Rc & _ & _ & Re & Rs & _).
  { cbn. destruct St as [[_ ->]|[_ ->]]; cbn; congruence. }
  exists s. split; [exact R|].
  rewrite Rc, Re. cbn [trace state vcos_log_error emit].
  rewrite T1, T0. cbn [power_on trace app].
  rewrite ?destroys_app, ?enables_app, D1, D6, E0.
  destruct St as [[-> ->]|[-> ->]]; cbn; rewrite ?Cam;
    destruct (cam_created env); cbn; auto with lia.
Qed.

(** X18.  When the camera has been created and the preview or the encoder cannot
    be, [main] returns [EX_SOFTWARE] having destroyed the camera exactly
    once, the encoder at most once, and no connection. *)
Theorem later_failure_cleans_up_once (env : oracle) (s0 s1 : sys) :
  default_status env power_on = Done s0 ->
  create_camera_component env s0 = Status MMAL_SUCCESS s1 ->
  preview_create_status env <> MMAL_SUCCESS
  \/ (exists status s2,
        create_encoder_component env (raspipreview_create env s1)
        = Status status s2
        /\ status <> MMAL_SUCCESS) ->
  exists s,
    main env = Exit EX_SOFTWARE s
    /\ destroys Camera (trace s) = 1%nat
    /\ (destroys Encoder (trace s) <= 1)%nat
    /\ (forall c, connection_destroys c (trace s) = O)
    /\ camera_component (state s) = false
    /\ encoder_component (state s) = false.
Proof.
  intros D C F. unfold Startup.main. rewrite D, C.
  destruct (ok_spec MMAL_SUCCESS) as [[-> _]|[_ ?]]; [|congruence].
  cbn [negb].
  destruct (default_status_spec _ _ _ D)
    as (evs0 & T0 & V0 & Pv & Cam & Enc & Pool & Pc & Ec & D1 & D2 & E0 & D3).
  destruct (create_camera_component_spec _ _ _ _ C)
    as (evs1 & T1 & D4 & D5 & _ & _ & Good).
  destruct (Good eq_refl) as (V1 & D6 & E1 & St1).
  pose proof (eq_refl : trace power_on = []) as Tp.
  destruct (ok_spec (preview_create_status env)) as [[-> P]|[-> P]];
    cbn [negb].
  - destruct F as [F|(status & s2 & C2 & F)]; [congruence|].
    rewrite C2.
    destruct (ok_spec status) as [[_ ?]|[-> _]]; [congruence|]. cbn [negb].
    destruct (create_encoder_component_spec _ _ _ _ C2)
      as (evs2 & T2 & V2 & D7 & E2 & D8 & Fail & _).
    destruct (Fail F) as [St2 D9].
    match goal with
    | |- context [shut_down env false EX_SOFTWARE ?x] =>
        destruct (shut_down_spec env false EX_SOFTWARE x)
          as (s & R & Rc & Rn & Rk & Re & Rs & Rt)
    end.
    { unfold destroy_camera_component, raspipreview_destroy, vcos_log_error.
      walk. auto. }
    exists s. split; [exact R|]. rewrite Rc, Rn.
    split; [|split; [|split; [|auto]]].
    + unfold destroy_camera_component, raspipreview_destroy, vcos_log_error.
      walk.
      rewrite ?D1, ?D6, ?D7. reflexivity.
    + unfold destroy_camera_component, raspipreview_destroy, vcos_log_error.
      walk.
      rewrite ?D2, ?D4, ?D9.
      destruct (enc_created env); cbn; lia.
    + intros c. rewrite Rk.
      unfold destroy_camera_component, raspipreview_destroy, vcos_log_error.
      destruct c; walk; rewrite ?D3, ?D5, ?D8; reflexivity.
  - match goal with
    | |- context [shut_down env false EX_SOFTWARE ?x] =>
        destruct (shut_down_spec env false EX_SOFTWARE x)
          as (s & R & Rc & Rn & Rk & Re & Rs & Rt)
    end.
    { unfold destroy_camera_component, raspipreview_create, vcos_log_error.
      walk. auto. }
    exists s. split; [exact R|]. rewrite Rc, Rn.
    split; [|split; [|split; [|auto]]].
    + unfold destroy_camera_component, raspipreview_create, vcos_log_error.
      walk.
      rewrite ?D1, ?D6. reflexivity.
    + unfold destroy_camera_component, raspipreview_create, vcos_log_error.
      walk.
      rewrite ?D2, ?D4. cbn. lia.
    + intros c. rewrite Rk.
      unfold destroy_camera_component, raspipreview_create, vcos_log_error.
      destruct c; walk; rewrite ?D3, ?D5; reflexivity.
Qed.

(** What holds when [main] stands before its first [connect_ports]. *)
Lemma connection_stage_spec (env : oracle) (s : sys) :
  connection_stage env s ->
  camera_component (state s) = true
  /\ encoder_component (state s) = true
  /\ preview_component (state s) = true
  /\ encoder_pool (state s) = enc_pool env
  /\ preview_connection (state s) = false
  /\ encoder_connection (state s) = false
  /\ video_enabled s = true
  /\ destroys Camera (trace s) = O
  /\ destroys Encoder (trace s) = O
  /\ enables Camera (trace s) = 1%nat
  /\ (forall c, connection_destroys c (trace s) = O).
Proof.
  intros (s0 & s1 & D & C & P & C2 & Pv2).
  destruct (default_status_spec _ _ _ D)
    as (evs0 & T0 & V0 & Pv & Cam & Enc & Pool & Pc & Ec & D1 & D2 & E0 & D3).
  destruct (create_camera_component_spec _ _ _ _ C)
    as (evs1 & T1 & D4 & D5 & _ & _ & Good).
  destruct (Good eq_refl) as (V1 & D6 & E1 & St1).
  destruct (create_encoder_component_spec _ _ _ _ C2)
    as (evs2 & T2 & V2 & D7 & E2 & D8 & _ & Good2).
  destruct (Good2 eq_refl) as (St2 & D9 & _).
  split; [|split; [|split; [exact Pv2|]]].
  1-2: unfold raspipreview_create in *; walk; reflexivity.
  clear Pv2.
  unfold raspipreview_create in *.
  repeat split; try intros c; walk;
    rewrite ?D1, ?D2, ?D3, ?D4, ?D5, ?D6, ?D7, ?D8, ?D9, ?E0, ?E1, ?E2;
    reflexivity.
Qed.

(** X19.  A connection that cannot be made leaves [main]'s exit code at [EX_OK];
    camera and encoder are destroyed once each, and a connection that was
    created but could not be enabled is destroyed by [connect_ports] and
    again by [main], which still holds its pointer. *)
Theorem connection_failure_exits_with_ok (env : oracle) (s : sys)
    (c : connection) (before : sys) (status : Z) (after : sys) :
  connection_stage env s ->
  (c = PreviewConnection /\ before = s)
  \/ (c = EncoderConnection
      /\ connect_ports env PreviewConnection s = Status MMAL_SUCCESS before) ->
  connect_ports env c before = Status status after ->
  status <> MMAL_SUCCESS ->
  exists s',
    main env = Exit EX_OK s'
    /\ destroys Camera (trace s') = 1%nat
    /\ destroys Encoder (trace s') = 1%nat
    /\ connection_destroys c (trace s')
       = ((if ok (conn_create_status env c) then 1 else 0)
          + (if conn_created env c then 1 else 0))%nat.
Proof.
  intros Stage Which Conn Hs.
  destruct (connection_stage_spec _ _ Stage)
    as (Cam & Enc & Pv & Pool & Pc & Ec & V & D1 & D2 & E1 & D3).
  destruct Stage as (s0 & s1 & D & C & P & C2 & _).
  unfold Startup.main. rewrite D, C.
  destruct (ok_spec MMAL_SUCCESS) as [[OK _]|[_ ?]]; [|congruence].
  rewrite OK. cbn [negb]. rewrite P, OK. cbn [negb]. rewrite C2, OK, Pv.
  cbn [negb].
  destruct (ok_spec status) as [[_ ?]|[Bad _]]; [congruence|].
  destruct (connect_ports_spec _ _ _ _ _ Conn)
    as (evs & T & V' & St & K1 & K2 & K3 & _ & Fail).
  specialize (Fail Hs).
  destruct Which as [[-> ->]|[-> Conn1]].
  - rewrite Conn, Bad. cbn [negb].
    destruct (shut_down_spec env true EX_OK after)
      as (s' & R & Rc & Rn & Rk & _).
    { walk. auto. }
    exists s'. split; [exact R|]. rewrite Rc, Rn, Rk.
    destruct (ok (conn_create_status env PreviewConnection)),
      (conn_created env PreviewConnection);
      repeat split; walk; rewrite ?D1, ?D2, ?D3, ?K1, ?Fail; reflexivity.
  - destruct (connect_ports_spec _ _ _ _ _ Conn1)
      as (evs1 & T1 & V1 & St1 & K4 & K5 & K6 & Good & _).
    destruct (Good eq_refl) as [Made K7].
    rewrite Conn1, OK. cbn [negb]. rewrite Conn, Bad. cbn [negb].
    match goal with
    | |- context [shut_down env true EX_OK ?x] =>
        destruct (shut_down_spec env true EX_OK x)
          as (s' & R & Rc & Rn & Rk & _)
    end.
    { unfold vcos_log_error. walk. auto. }
    exists s'. split; [exact R|]. rewrite Rc, Rn, Rk.
    unfold vcos_log_error.
    destruct (ok (conn_create_status env EncoderConnection)),
      (conn_created env EncoderConnection);
      repeat split; walk;
      rewrite ?D1, ?D2, ?D3, ?K1, ?K4, ?Fail, ?K6 by discriminate;
      reflexivity.
Qed.

Lemma teardowns_app (t1 t2 : list event) :
  teardowns (t1 ++ t2) = teardowns t1 ++ teardowns t2.
Proof. apply List.filter_app. Qed.

Lemma plain_teardowns (evs : list event) :
  forallb plain evs = true -> teardowns evs = [].
Proof.
  induction evs as [|e evs IH]; [reflexivity|].
  cbn [forallb]. intros H. apply andb_true_iff in H as [He H].
  unfold teardowns in *. cbn [List.filter]. rewrite (IH H).
  destruct e; try discriminate He; reflexivity.
Qed.

Ltac failed_leaf :=
  let H := fresh "H" in
  intros H; injection H; intros; congruence.

Ltac quiet_leaf :=
  let H := fresh "H" in
  intros H; first [injection H as _ <- | injection H as <-];
  cbn [trace emit update set_video_enabled];
  rewrite ?teardowns_app; cbn [teardowns List.filter is_teardown];
  rewrite ?app_nil_r; reflexivity.

(** What [default_status] disables or destroys: the camera-info component
    of [set_sensor_defaults], when it has been created. *)
Lemma default_status_teardowns (env : oracle) (s s0 : sys) :
  default_status env s = Done s0 ->
  teardowns (trace s0)
  = teardowns (trace s)
    ++ (if ok (info_create_status env) then [EvComponentDestroy CameraInfo]
        else []).
Proof.
  unfold Startup.default_status, set_sensor_defaults, vcos_log_error.
  destruct (ok (info_create_status env)); simpl.
  - destruct (info_created env); simpl; [|discriminate].
    destruct (ok (info_first_get_status env)); simpl; [quiet_leaf|].
    destruct (ok (info_second_get_status env) && (0 <? info_num_cameras env));
      simpl; quiet_leaf.
  - quiet_leaf.
Qed.

(** A [create_camera_component] that succeeds disables and destroys
    nothing. *)
Lemma create_camera_component_teardowns (env : oracle) (s s' : sys) :
  create_camera_component env s = Status MMAL_SUCCESS s' ->
  teardowns (trace s') = teardowns (trace s).
Proof.
  unfold Startup.create_camera_component, camera_error, vcos_log_error.
  destruct (ok_spec (cam_create_status env)) as [[-> E1]|[-> E1]]; simpl;
    [|failed_leaf].
  destruct (cam_created env); simpl; [|discriminate].
  destruct (ok_spec (cam_select_status env)) as [[-> E2]|[-> E2]]; simpl;
    [|failed_leaf].
  destruct (cam_output_num env =? 0); simpl; [failed_leaf|].
  destruct (ok_spec (cam_sensor_status env)) as [[-> E3]|[-> E3]]; simpl;
    [|failed_leaf].
  destruct (cam_output_num env <? 3); simpl; [discriminate|].
  destruct (video_commit_adjust env 4 _) as [buffer_num buffer_size].
  destruct (ok_spec (cam_control_enable_status env)) as [[-> E4]|[-> E4]];
    simpl; [|failed_leaf].
  destruct (ok_spec (preview_commit_status env)) as [[-> E5]|[-> E5]]; simpl;
    [|failed_leaf].
  destruct (ok_spec (video_commit_status env)) as [[-> E6]|[-> E6]]; simpl;
    [|failed_leaf].
  destruct (ok_spec (still_commit_status env)) as [[-> E7]|[-> E7]]; simpl;
    [|failed_leaf].
  destruct (ok_spec (cam_enable_status env)) as [[-> E8]|[-> E8]]; simpl;
    [|failed_leaf].
  destruct (ok_spec (video_enable_status env)) as [[-> E9]|[-> E9]]; simpl;
    [|failed_leaf].
  destruct (video_pool env) as [num|]; [|discriminate].
  intros H. injection H as _ <-.
  match goal with
  | |- context [Startup.send_buffers _ env 0 ?n ?s0] =>
      destruct (send_buffers_spec env n 0 s0) as (evs & Ht & Hs & Hv & Hp);
      remember (Startup.send_buffers MMAL_SUCCESS env 0 n s0) as sent
  end.
  pose proof (plain_teardowns _ Hp) as P.
  cbn [trace emit state video_enabled update set_video_enabled] in *.
  rewrite Ht.
  destruct (settings (state s) =? 0);
    [|destruct (ok (cam_settings_status env))];
    cbn [trace emit state video_enabled update set_video_enabled];
    rewrite ?teardowns_app, P; cbn [teardowns List.filter is_teardown];
    rewrite ?app_nil_r; reflexivity.
Qed.

(** So do [create_encoder_component] and [connect_ports]. *)
Lemma create_encoder_component_teardowns (env : oracle) (s s' : sys) :
  create_encoder_component env s = Status MMAL_SUCCESS s' ->
  teardowns (trace s') = teardowns (trace s).
Proof.
  unfold Startup.create_encoder_component, encoder_error, vcos_log_error.
  destruct (ok_spec (enc_create_status env)) as [[-> E1]|[-> E1]]; simpl;
    [|failed_leaf].
  destruct (enc_created env); simpl; [|discriminate].
  destruct (Z.eqb_spec (enc_input_num env) 0) as [I0|I0]; simpl;
    [failed_leaf|].
  destruct (Z.eqb_spec (enc_output_num env) 0) as [O0|O0]; simpl;
    [failed_leaf|].
  destruct (ok_spec (enc_commit_status env)) as [[-> E2]|[-> E2]]; simpl;
    [|failed_leaf].
  destruct (ok_spec (enc_quality_status env)) as [[-> E3]|[-> E3]]; simpl;
    [|failed_leaf].
  destruct (ok_spec (enc_enable_status env)) as [[-> E4]|[-> E4]]; simpl;
    [|failed_leaf].
  destruct (enc_pool env); quiet_leaf.
Qed.

Lemma connect_ports_teardowns (env : oracle) (c : connection) (s s' : sys) :
  connect_ports env c s = Status MMAL_SUCCESS s' ->
  teardowns (trace s') = teardowns (trace s).
Proof.
  unfold Startup.connect_ports.
  destruct (ok_spec (conn_create_status env c)) as [[-> E1]|[-> E1]]; simpl;
    [|failed_leaf].
  destruct (conn_created env c); simpl; [|discriminate].
  destruct (ok_spec (conn_enable_status env c)) as [[-> E2]|[-> E2]]; simpl;
    [quiet_leaf|failed_leaf].
Qed.

(** X20.  When [main] reaches its capture loop, camera, preview and encoder
    are set up and connected and the video port is enabled.  Nothing has
    been disabled or destroyed, no component, port, pool, connection or
    preview, but the camera-info component that [set_sensor_defaults]
    creates for its query and destroys itself.  The encoder's pool is
    whatever [mmal_port_pool_create] returned, NULL included. *)
Theorem capture_loop_starts_fully_set_up (env : oracle) (s : sys) :
  main env = CaptureLoop s ->
  camera_component (state s) = true
  /\ encoder_component (state s) = true
  /\ preview_component (state s) = true
  /\ preview_connection (state s) = true
  /\ encoder_connection (state s) = true
  /\ encoder_pool (state s) = enc_pool env
  /\ video_enabled s = true
  /\ destroys Camera (trace s) = O
  /\ destroys Encoder (trace s) = O
  /\ (forall c, connection_destroys c (trace s) = O)
  /\ teardowns (trace s)
     = (if ok (info_create_status env) then [EvComponentDestroy CameraInfo]
        else []).
Proof.
  unfold Startup.main.
  destruct (default_status env power_on) as [s0|] eqn:D; [|discriminate].
  destruct (create_camera_component env s0) as [st1 s1|] eqn:C;
    [|discriminate].
  destruct (ok_spec st1) as [[-> ->]|[-> _]]; cbn [negb];
    [|intros H; destruct (shut_down_never_captures _ _ _ _ _ H)].
  destruct (ok_spec (preview_create_status env)) as [[-> P]|[-> _]];
    cbn [negb]; [|intros H; destruct (shut_down_never_captures _ _ _ _ _ H)].
  destruct (create_encoder_component env (raspipreview_create env s1))
    as [st2 s2|] eqn:C2; [|discriminate].
  destruct (ok_spec st2) as [[-> ->]|[-> _]]; cbn [negb];
    [|intros H; destruct (shut_down_never_captures _ _ _ _ _ H)].
  destruct (preview_component (state s2)) eqn:Pv2; cbn [negb];
    [|discriminate].
  assert (Stage : connection_stage env s2).
  { exists s0, s1. auto. }
  destruct (connection_stage_spec _ _ Stage)
    as (Cam & Enc & Pv & Pool & Pc & Ec & V & D1 & D2 & E1 & D3).
  destruct (connect_ports env PreviewConnection s2) as [st3 s3|] eqn:K1;
    [|discriminate].
  destruct (ok_spec st3) as [[-> ->]|[-> _]]; cbn [negb];
    [|intros H; destruct (shut_down_never_captures _ _ _ _ _ H)].
  destruct (connect_ports env EncoderConnection s3) as [st4 s4|] eqn:K2;
    [|discriminate].
  destruct (ok_spec st4) as [[-> ->]|[-> _]]; cbn [negb];
    [|intros H; destruct (shut_down_never_captures _ _ _ _ _ H)].
  intros H. injection H as <-.
  assert (Quiet : teardowns (trace s4)
                  = (if ok (info_create_status env)
                     then [EvComponentDestroy CameraInfo] else [])).
  { rewrite (connect_ports_teardowns _ _ _ _ K2).
    rewrite (connect_ports_teardowns _ _ _ _ K1).
    rewrite (create_encoder_component_teardowns _ _ _ C2).
    unfold raspipreview_create. cbn [trace emit update].
    rewrite teardowns_app. cbn [teardowns List.filter is_teardown].
    rewrite app_nil_r.
    rewrite (create_camera_component_teardowns _ _ _ C).
    rewrite (default_status_teardowns _ _ _ D). reflexivity. }
  destruct (connect_ports_spec _ _ _ _ _ K1)
    as (evs3 & T3 & V3 & St3 & A1 & A2 & A3 & Good3 & _).
  destruct (Good3 eq_refl) as [Made3 A4].
  destruct (connect_ports_spec _ _ _ _ _ K2)
    as (evs4 & T4 & V4 & St4 & B1 & B2 & B3 & Good4 & _).
  destruct (Good4 eq_refl) as [Made4 B4].
  cbn [trace emit] in *.
  assert (Quiet' : teardowns ((trace s4 ++ [EvSemaphoreCreate])
                              ++ [EvParameter CameraVideo "CAPTURE"])
                   = (if ok (info_create_status env)
                      then [EvComponentDestroy CameraInfo] else [])).
  { rewrite !teardowns_app, Quiet. cbn [teardowns List.filter is_teardown].
    rewrite !app_nil_r. reflexivity. }
  clear Quiet.
  repeat apply conj; try exact Quiet'; clear Quiet'; try intros c; walk;
    rewrite ?Made3, ?Made4, ?D1, ?D2, ?D3, ?A1, ?B1;
    try reflexivity.
  destruct c; rewrite ?A4, ?B4, ?A3, ?B3 by discriminate; reflexivity.
Qed.

End StartupFacts.

Section StartupRuns.
Import CInt Startup.

Lemma create_encoder_component_all_or_nothing_witness :
  exists evs,
    trace (update (set_encoder_component true)
             (update (set_encoder_pool true)
                (emit (EvPoolCreate EncoderOutput 1 81920)
                   (emit (EvComponentEnable Encoder)
                      (emit (EvParameter EncoderOutput "JPEG_Q_FACTOR")
                         (emit (EvFormatCommit EncoderOutput)
                            (emit (EvComponentCreate Encoder) power_on)))))))
    = trace power_on ++ evs
    /\ destroys Encoder evs = O
    /\ In (EvPoolCreate EncoderOutput (Z.max 1 1) (Z.max 81920 2048)) evs.
Proof.
  destruct (create_encoder_component_all_or_nothing 0 4 ltac:(discriminate)
              (smooth 0 0 (fun _ => 0)) power_on 0 _ eq_refl)
    as (evs & T & _ & _ & _ & _ & _ & Good).
  destruct (Good eq_refl) as (_ & D & I & _).
  exists evs. split; [exact T|]. split; [exact D|exact I].
Defined.

Lemma camera_failure_exits_with_software_error_witness :
  exists s,
    main 0 4 0 70 16 align_up (smooth 5 0 (fun _ => 0)) = Exit 70 s
    /\ destroys Camera (trace s)
       = ((if cam_created (smooth 5 0 (fun _ => 0%Z)) then 1 else 0)
          + enables Camera (trace s))%nat
    /\ (enables Camera (trace s) <= 1)%nat
    /\ camera_component (state s) = false.
Proof.
  eapply (camera_failure_exits_with_software_error 0 4 0 70 16 align_up
            ltac:(discriminate) (smooth 5 0 (fun _ => 0)));
    [reflexivity | reflexivity | discriminate].
Defined.

Lemma later_failure_cleans_up_once_witness :
  exists s,
    main 0 4 0 70 16 align_up (smooth 0 7 (fun _ => 0)) = Exit 70 s
    /\ destroys Camera (trace s) = 1%nat
    /\ (destroys Encoder (trace s) <= 1)%nat
    /\ (forall c, connection_destroys c (trace s) = O)
    /\ camera_component (state s) = false
    /\ encoder_component (state s) = false.
Proof.
  eapply (later_failure_cleans_up_once 0 4 0 70 16 align_up
            ltac:(discriminate) (smooth 0 7 (fun _ => 0)));
    [reflexivity | reflexivity |].
  right. eexists _, _. split; [reflexivity | discriminate].
Defined.

Lemma connection_failure_exits_with_ok_witness :
  exists s,
    main 0 4 0 70 16 align_up
      (smooth 0 0 (fun c => match c with
                            | PreviewConnection => 0
                            | EncoderConnection => 9
                            end)) = Exit 0 s
    /\ destroys Camera (trace s) = 1%nat
    /\ destroys Encoder (trace s) = 1%nat
    /\ connection_destroys EncoderConnection (trace s) = (1 + 1)%nat.
Proof.
  eapply (connection_failure_exits_with_ok 0 4 0 70 16 align_up
            ltac:(discriminate)
            (smooth 0 0 (fun c => match c with
                                  | PreviewConnection => 0
                                  | EncoderConnection => 9
                                  end))
            _ EncoderConnection).
  - eexists _, _. split; [reflexivity|]. split; [reflexivity|].
    split; [reflexivity|]. split; reflexivity.
  - right. split; reflexivity.
  - reflexivity.
  - discriminate.
Defined.

Lemma capture_loop_starts_fully_set_up_witness :
  let s := final (main 0 4 0 70 16 align_up (smooth 0 0 (fun _ => 0))) in
  camera_component (state s) = true
  /\ encoder_component (state s) = true
  /\ preview_component (state s) = true
  /\ preview_connection (state s) = true
  /\ encoder_connection (state s) = true
  /\ encoder_pool (state s) = enc_pool (smooth 0 0 (fun _ => 0))
  /\ video_enabled s = true
  /\ destroys Camera (trace s) = O
  /\ destroys Encoder (trace s) = O
  /\ (forall c, connection_destroys c (trace s) = O)
  /\ teardowns (trace s)
     = (if ok 0 (info_create_status (smooth 0 0 (fun _ => 0)))
        then [EvComponentDestroy CameraInfo] else []).
Proof.
  cbv zeta.
  apply (capture_loop_starts_fully_set_up 0 4 0 70 16 align_up
           ltac:(discriminate) (smooth 0 0 (fun _ => 0))
           (final (main 0 4 0 70 16 align_up (smooth 0 0 (fun _ => 0))))).
  vm_compute. reflexivity.
Defined.

End StartupRuns.

(** ** The upload server and its keyboard loop *)
Section DashgrabMore.
Import Dashgrab.

(** The loop on a file that holds [pre] up to the offset and the rest of
    [old] after it. *)
Lemma copy_loop_overlays (rs : list read_result) (old pre : list Z) :
  copy_loop rs (List.length pre) (pre ++ drop (List.length pre) old)
  = (pre ++ stored rs)
    ++ drop (List.length (pre ++ stored rs)) old.
Proof.
  revert pre. induction rs as [|r rs IH]; intros pre; simpl.
  - rewrite app_nil_r. reflexivity.
  - destruct (0 <? len_of r); [|rewrite app_nil_r; reflexivity].
    unfold write_at.
    rewrite take_app_length.
    rewrite drop_app_add', drop_drop by reflexivity.
    specialize (IH (pre ++ written_of r)).
    rewrite length_app, <- !app_assoc in IH.
    rewrite <- !app_assoc. exact IH.
Qed.

Lemma written_of_length (r : read_result) :
  (List.length (written_of r) <= List.length (bytes_of r))%nat.
Proof.
  destruct r; cbn [written_of bytes_of]; try lia.
  rewrite length_take. lia.
Qed.

Lemma stored_length (rs : list read_result) :
  (List.length (stored rs) <= List.length (received rs))%nat.
Proof.
  induction rs as [|r rs IH]; [reflexivity|].
  cbn [stored received]. destruct (0 <? len_of r); [|reflexivity].
  rewrite !length_app. pose proof (written_of_length r). lia.
Qed.

(** X21.  [processClient] lays over the start of the file named after its
    address the bytes its writes put there: of every read, all the bytes
    when the write is complete, the first [written] when it comes back
    short, none when it fails, with no gap, since the loop does not look at
    what [write] returns.  What the file held beyond them stays, nothing is
    cut off, and no other file is touched.  They are never more than the
    bytes received, and exactly those when no write comes back short. *)
Theorem processClient_overlays_without_truncating (c : connection)
    (address : N) (fs : gmap string (list Z)) :
  open_ok c = true ->
  processClient c address fs !! filename_of address
  = Some (stored (reads c)
          ++ drop (List.length (stored (reads c)))
               (default [] (fs !! filename_of address)))
  /\ (forall name, name <> filename_of address ->
        processClient c address fs !! name = fs !! name)
  /\ (List.length (stored (reads c)) <= List.length (received (reads c)))%nat
  /\ (complete_writes (reads c) = true ->
      stored (reads c) = received (reads c)).
Proof.
  intros Ho. unfold processClient. rewrite Ho. split; [|split; [|split]].
  - rewrite lookup_insert_eq. f_equal.
    apply (copy_loop_overlays (reads c) _ []).
  - intros name Hn. apply lookup_insert_ne. congruence.
  - apply stored_length.
  - apply stored_complete.
Qed.

(** X22.  Serving two clients under different addresses gives the same
    files in either order, whatever their reads and writes return: each
    upload has a file of its own. *)
Theorem processClient_distinct_addresses_commute (c1 c2 : connection)
    (a1 a2 : N) (fs : gmap string (list Z)) :
  a1 <> a2 ->
  processClient c1 a1 (processClient c2 a2 fs)
  = processClient c2 a2 (processClient c1 a1 fs).
Proof.
  intros Ha.
  assert (Hn : filename_of a1 <> filename_of a2).
  { intros H. apply Ha, filename_of_inj, H. }
  unfold processClient.
  destruct (open_ok c1), (open_ok c2); try reflexivity.
  rewrite !lookup_insert_ne by congruence.
  apply insert_insert_ne. congruence.
Qed.

Lemma processClient_length (c : connection) (address : N)
    (fs : gmap string (list Z)) (name : string) :
  (List.length (default [] (fs !! name))
   <= List.length (default [] (processClient c address fs !! name)))%nat.
Proof.
  unfold processClient. destruct (open_ok c); [|lia].
  destruct (decide (name = filename_of address)) as [->|Hn].
  - rewrite lookup_insert_eq.
    set (old := default [] (fs !! filename_of address)).
    pose proof (copy_loop_overlays (reads c) old []) as H.
    cbn [app List.length] in H. rewrite drop_0 in H.
    change (default [] (Some ?x)) with x. rewrite H.
    rewrite length_app, length_drop. lia.
  - rewrite lookup_insert_ne by congruence. lia.
Qed.

(** X23.  The server never shortens a file, whatever is uploaded and
    whatever the reads, the opens and the writes return: a file is as long
    after any number of connections as it was before, or longer. *)
Theorem acceptThread_never_shortens_a_file (INADDR_ANY : N)
    (conns : list connection) (fs : gmap string (list Z)) (name : string) :
  (List.length (default [] (fs !! name))
   <= List.length (default [] (acceptThread INADDR_ANY conns fs !! name)))%nat.
Proof.
  revert fs. induction conns as [|c conns IH]; intros fs; [reflexivity|].
  cbn [acceptThread foldl].
  etransitivity; [apply (processClient_length c INADDR_ANY)|].
  apply IH.
Qed.

Lemma events_after_key (t : list pin_event) (k : keyboard) :
  events (after_key t k) = t ++ events k.
Proof. destruct k; reflexivity. Qed.

Lemma level_app (pin : Z) (t1 t2 : list pin_event) (high : bool) :
  level pin (t1 ++ t2) high = level pin t2 (level pin t1 high).
Proof.
  revert high. induction t1 as [|e t1 IH]; intros high; [reflexivity|].
  destruct e; cbn [app level]; apply IH.
Qed.

(** X24.  The keyboard loop pulses pin 21 once for every [c] typed before the
    first [q] and does nothing else to any pin; it ends exactly when a [q]
    is typed, and it never leaves pin 21 high. *)
Theorem main_pulses_once_per_c (keys : list Z) :
  List.filter is_pin (events (main keys))
  = pulses (List.length (List.filter (fun k => k =? 99) (before_quit keys)))
  /\ ((exists t, main keys = Quit t) <-> In 113 keys)
  /\ level 21 (events (main keys)) false = false.
Proof.
  induction keys as [|c keys (IH1 & IH2 & IH3)].
  - cbn. repeat split; try tauto. intros [t H]. discriminate H.
  - cbn [main before_quit].
    destruct (Z.eqb_spec c 113) as [->|Hq].
    + cbn. repeat split; auto. eauto.
    + rewrite events_after_key.
      split; [|split].
      * cbn [List.filter].
        destruct (Z.eqb_spec c 99) as [->|Hc].
        -- cbn. rewrite IH1. reflexivity.
        -- cbn. exact IH1.
      * cbn [In]. split.
        -- intros [t H]. right. apply IH2.
           destruct (main keys) as [t'|t']; [eauto|discriminate H].
        -- intros [H|H]; [congruence|].
           apply IH2 in H as [t' H]. rewrite H. cbn. eauto.
      * rewrite level_app.
        match goal with
        | |- level 21 _ (level 21 ?p false) = false =>
            replace (level 21 p false) with false
              by (destruct (c =? 99); reflexivity)
        end.
        exact IH3.
Qed.

End DashgrabMore.

Section DashgrabRuns.
Import Dashgrab.

Lemma processClient_overlays_without_truncating_witness :
  let c := {| cli_addr := 167772161;
              reads := [ReadShort [1; 2; 3; 4] 2; ReadBytes [5]; ReadClosed];
              open_ok := true |} in
  let fs : gmap string (list Z) := {[ filename_of 7 := [9; 9; 9; 9; 9] ]} in
  processClient c 7 fs !! filename_of 7
  = Some (stored (reads c)
          ++ drop (List.length (stored (reads c)))
               (default [] (fs !! filename_of 7)))
  /\ (forall name, name <> filename_of 7 ->
        processClient c 7 fs !! name = fs !! name)
  /\ (List.length (stored (reads c)) <= List.length (received (reads c)))%nat
  /\ (complete_writes (reads c) = true ->
      stored (reads c) = received (reads c)).
Proof.
  cbv zeta.
  apply (processClient_overlays_without_truncating
           {| cli_addr := 167772161;
              reads := [ReadShort [1; 2; 3; 4] 2; ReadBytes [5]; ReadClosed];
              open_ok := true |} 7 {[ filename_of 7 := [9; 9; 9; 9; 9] ]}).
  reflexivity.
Defined.

Lemma processClient_distinct_addresses_commute_witness :
  let c1 := {| cli_addr := 167772161; reads := [ReadBytes [1; 2]; ReadClosed];
               open_ok := true |} in
  let c2 := {| cli_addr := 167772162;
               reads := [ReadShort [9; 8] 1; ReadClosed];
               open_ok := true |} in
  processClient c1 167772161 (processClient c2 167772162 ∅)
  = processClient c2 167772162 (processClient c1 167772161 ∅).
Proof.
  cbv zeta.
  apply (processClient_distinct_addresses_commute
           {| cli_addr := 167772161;
              reads := [ReadBytes [1; 2]; ReadClosed]; open_ok := true |}
           {| cli_addr := 167772162;
              reads := [ReadShort [9; 8] 1; ReadClosed]; open_ok := true |}
           167772161%N 167772162%N ∅).
  discriminate.
Defined.

End DashgrabRuns.
